(** * Messenger backend: the repository layer over the wide-column store

    A shallow embedding of [app/models/cassandra_models.py] (the two
    repositories [MessageModel] and [ConversationModel]), of
    [CassandraClient.execute] from [app/db/cassandra_client.py], and of the
    three tables declared in [scripts/setup_db.py].

    The development goes on to the connection ([CassandraClient.connect],
    [get_cassandra_client] and [startup_event] of [app/main.py]), to the
    request handlers of [app/controllers], and to
    [scripts/generate_test_data.py].

    Conventions.
    - Python [int] is [Z]; a [datetime] is the number of microseconds since
      the epoch, as a [Z]; a [uuid.UUID] is its 128-bit integer, as an [N].
    - A table is a finite map from the partition key to the rows of that
      partition, kept in the clustering order of the table; an [INSERT] is an
      upsert on the primary key.
    - The store is a single copy read and written in program order
      (replication and consistency levels are not modelled); it keeps a
      written value as it was bound (the rounding of a timestamp to the
      millisecond is not modelled), and the values bound are in the range of
      their columns.
    - The effects of the code (queries that may raise, the clock, the uuid
      generator, the error log) are threaded through a state-and-exception
      monad [M]. *)

From stdpp Require Import base option list gmap strings sorting.
From stdpp Require Import pretty.
From Stdlib Require Import ZArith Lia Ascii.

Open Scope Z_scope.

(** ** Python values *)

Abbreviation datetime := Z (only parsing).
Abbreviation uuid := N (only parsing).

Module Py.

(** [seq[start:stop]]: an index below zero counts from the end, and both
    ends are clamped to the sequence. *)
Definition slice_index (n i : Z) : Z :=
  if i <? 0 then Z.max 0 (i + n) else Z.min i n.

Definition slice {A} (l : list A) (start stop : Z) : list A :=
  let n := Z.of_nat (length l) in
  let lo := slice_index n start in
  let hi := slice_index n stop in
  take (Z.to_nat (hi - lo)) (drop (Z.to_nat lo) l).

(** [int(d.timestamp())]: whole seconds, truncated toward zero. The float
    returned by [timestamp()] is exact to the microsecond in the range of
    real clocks, so the truncation is that of the exact quotient. *)
Definition int_timestamp (d : datetime) : Z := Z.quot d 1000000.

Definition hex_digit (n : N) : ascii :=
  match n with
  | 0%N => "0" | 1%N => "1" | 2%N => "2" | 3%N => "3"
  | 4%N => "4" | 5%N => "5" | 6%N => "6" | 7%N => "7"
  | 8%N => "8" | 9%N => "9" | 10%N => "a" | 11%N => "b"
  | 12%N => "c" | 13%N => "d" | 14%N => "e" | _ => "f"
  end%char.

(** ['%0<width>x' % n], least significant digit last. *)
Fixpoint hex_fixed (width : nat) (n : N) : string :=
  match width with
  | O => EmptyString
  | S w => hex_fixed w (n / 16)%N +:+ String (hex_digit (n mod 16)%N) EmptyString
  end.

(** [str(u)] for a [uuid.UUID]: 32 hex digits in groups 8-4-4-4-12. *)
Definition str_uuid (u : uuid) : string :=
  let h := hex_fixed 32 u in
  String.substring 0 8 h +:+ "-" +:+ String.substring 8 4 h +:+ "-" +:+
  String.substring 12 4 h +:+ "-" +:+ String.substring 16 4 h +:+ "-" +:+ String.substring 20 12 h.

End Py.

(** ** The tables of [scripts/setup_db.py] *)

(** [messages_by_conversation]:
    PRIMARY KEY ((conversation_id), message_timestamp, message_id),
    CLUSTERING ORDER BY (message_timestamp DESC, message_id ASC). *)
Record MessageRow := {
  m_conversation_id : Z;
  m_message_timestamp : datetime;
  m_message_id : uuid;
  m_sender_id : Z;
  m_receiver_id : Z;
  m_content : string
}.

(** [conversations_by_user]:
    PRIMARY KEY ((user_id), last_message_timestamp, conversation_id),
    CLUSTERING ORDER BY (last_message_timestamp DESC, conversation_id ASC). *)
Record SummaryRow := {
  c_user_id : Z;
  c_last_message_timestamp : datetime;
  c_conversation_id : Z;
  c_other_user_id : Z;
  c_last_message_content : option string
}.

(** [conversation_participants]: PRIMARY KEY (conversation_id). *)
Record ParticipantRow := {
  p_conversation_id : Z;
  p_user1_id : Z;
  p_user2_id : Z;
  p_created_at : datetime
}.

(** A partition holds its rows as an association list from the clustering
    columns to the remaining columns, in clustering order; the partition key
    is the key of the map, and a row read back carries the key it was read
    under. *)
Record Store := {
  messages_by_conversation : gmap Z (list ((datetime * uuid) * (Z * Z * string)));
  conversations_by_user : gmap Z (list ((datetime * Z) * (Z * option string)));
  conversation_participants : gmap Z (Z * Z * datetime)
}.

Definition empty_store : Store :=
  {| messages_by_conversation := ∅;
     conversations_by_user := ∅;
     conversation_participants := ∅ |}.

Module Clustering.

(** Comparison of clustering columns: [Lt] when the first is read before
    the second. Both tables cluster by a timestamp, newest first, and then
    by an identifier, smallest first. *)
Definition message (a b : datetime * uuid) : comparison :=
  match b.1 ?= a.1 with
  | Eq => (a.2 ?= b.2)%N
  | c => c
  end.

Definition summary (a b : datetime * Z) : comparison :=
  match b.1 ?= a.1 with
  | Eq => a.2 ?= b.2
  | c => c
  end.

(** Upsert into a partition: a row with the same clustering columns is
    overwritten, a new row takes its place in the order. *)
Fixpoint upsert {K V} (cmp : K → K → comparison) (k : K) (v : V)
    (l : list (K * V)) : list (K * V) :=
  match l with
  | [] => [(k, v)]
  | x :: l' =>
      match cmp k x.1 with
      | Lt => (k, v) :: x :: l'
      | Eq => (k, v) :: l'
      | Gt => x :: upsert cmp k v l'
      end
  end.

End Clustering.

Definition message_row (conversation_id : Z)
    (e : (datetime * uuid) * (Z * Z * string)) : MessageRow :=
  {| m_conversation_id := conversation_id;
     m_message_timestamp := e.1.1;
     m_message_id := e.1.2;
     m_sender_id := e.2.1.1;
     m_receiver_id := e.2.1.2;
     m_content := e.2.2 |}.

Definition summary_row (user_id : Z)
    (e : (datetime * Z) * (Z * option string)) : SummaryRow :=
  {| c_user_id := user_id;
     c_last_message_timestamp := e.1.1;
     c_conversation_id := e.1.2;
     c_other_user_id := e.2.1;
     c_last_message_content := e.2.2 |}.

Definition participant_row (conversation_id : Z) (e : Z * Z * datetime)
    : ParticipantRow :=
  {| p_conversation_id := conversation_id;
     p_user1_id := e.1.1;
     p_user2_id := e.1.2;
     p_created_at := e.2 |}.

(** ** The queries issued by the repositories *)

Inductive exn :=
  | InvalidRequest (msg : string)
  | DriverError (code : Z).

(** One constructor per statement text of the source, with its bound
    parameters. A [SELECT] of some columns is modelled by the whole row: the
    code reads only columns it selected. *)
Inductive Statement :=
  | INSERT_messages_by_conversation (params : MessageRow)
  | INSERT_conversations_by_user (params : SummaryRow)
  | INSERT_conversation_participants (params : ParticipantRow)
  | SELECT_messages_by_conversation
      (conversation_id : Z) (before : option datetime) (limit : option Z)
  | SELECT_COUNT_messages_by_conversation (conversation_id : Z) (before : datetime)
  | SELECT_conversations_by_user (user_id : Z) (limit : option Z)
  | SELECT_conversation_participants (conversation_id : Z).

Definition rows_of (q : Statement) : Type :=
  match q with
  | INSERT_messages_by_conversation _
  | INSERT_conversations_by_user _
  | INSERT_conversation_participants _ => unit
  | SELECT_messages_by_conversation _ _ _ => MessageRow
  | SELECT_COUNT_messages_by_conversation _ _ => Z
  | SELECT_conversations_by_user _ _ => SummaryRow
  | SELECT_conversation_participants _ => ParticipantRow
  end.

Definition is_write (q : Statement) : bool :=
  match q with
  | INSERT_messages_by_conversation _
  | INSERT_conversations_by_user _
  | INSERT_conversation_participants _ => true
  | _ => false
  end.

Module Cql.

Definition insert_message (r : MessageRow) (s : Store) : Store :=
  {| messages_by_conversation :=
       <[m_conversation_id r :=
           Clustering.upsert Clustering.message
             (m_message_timestamp r, m_message_id r)
             (m_sender_id r, m_receiver_id r, m_content r)
             (messages_by_conversation s !!! m_conversation_id r)]>
         (messages_by_conversation s);
     conversations_by_user := conversations_by_user s;
     conversation_participants := conversation_participants s |}.

Definition insert_summary (r : SummaryRow) (s : Store) : Store :=
  {| messages_by_conversation := messages_by_conversation s;
     conversations_by_user :=
       <[c_user_id r :=
           Clustering.upsert Clustering.summary
             (c_last_message_timestamp r, c_conversation_id r)
             (c_other_user_id r, c_last_message_content r)
             (conversations_by_user s !!! c_user_id r)]>
         (conversations_by_user s);
     conversation_participants := conversation_participants s |}.

Definition insert_participants (r : ParticipantRow) (s : Store) : Store :=
  {| messages_by_conversation := messages_by_conversation s;
     conversations_by_user := conversations_by_user s;
     conversation_participants :=
       <[p_conversation_id r := (p_user1_id r, p_user2_id r, p_created_at r)]>
         (conversation_participants s) |}.

(** [WHERE conversation_id = %s [AND message_timestamp < %s]], in
    clustering order. *)
Definition messages_where (conversation_id : Z) (before : option datetime)
    (s : Store) : list MessageRow :=
  let partition :=
    message_row conversation_id <$> messages_by_conversation s !!! conversation_id in
  match before with
  | None => partition
  | Some t => filter (λ r, m_message_timestamp r < t) partition
  end.

Definition summaries_where (user_id : Z) (s : Store) : list SummaryRow :=
  summary_row user_id <$> conversations_by_user s !!! user_id.

Definition participants_where (conversation_id : Z) (s : Store)
    : list ParticipantRow :=
  match conversation_participants s !! conversation_id with
  | Some e => [participant_row conversation_id e]
  | None => []
  end.

(** [LIMIT %s]: the store rejects a limit that is not strictly positive. *)
Definition limited {R} (limit : option Z) (rows : list R) : exn + list R :=
  match limit with
  | None => inr rows
  | Some n =>
      if 0 <? n then inr (take (Z.to_nat n) rows)
      else inl (InvalidRequest "LIMIT must be strictly positive")
  end.

(** The rows a statement returns and the store it leaves. *)
Definition run (q : Statement) (s : Store) : exn + (list (rows_of q) * Store) :=
  match q return exn + (list (rows_of q) * Store) with
  | INSERT_messages_by_conversation r => inr ([], insert_message r s)
  | INSERT_conversations_by_user r => inr ([], insert_summary r s)
  | INSERT_conversation_participants r => inr ([], insert_participants r s)
  | SELECT_messages_by_conversation cid before limit =>
      match limited limit (messages_where cid before s) with
      | inl e => inl e
      | inr rows => inr (rows, s)
      end
  | SELECT_COUNT_messages_by_conversation cid before =>
      inr ([Z.of_nat (length (messages_where cid (Some before) s))], s)
  | SELECT_conversations_by_user uid limit =>
      match limited limit (summaries_where uid s) with
      | inl e => inl e
      | inr rows => inr (rows, s)
      end
  | SELECT_conversation_participants cid => inr (participants_where cid s, s)
  end.

End Cql.

(** ** Effects *)

(** The world the repositories run in: the store; for each coming call of
    [session.execute], whether it fails and with what ([faults], an empty
    list meaning that no failure is coming); the coming readings of
    [datetime.now()] and results of [uuid.uuid4()]; and, for the statements
    of the properties, the statements executed so far and the errors passed
    to [logger.error]. *)
Record World := {
  store : Store;
  faults : list (option exn);
  clock : nat → datetime;
  uuids : nat → uuid;
  journal : list Statement;
  logged : list exn
}.

Inductive Outcome (A : Type) :=
  | Return (a : A)
  | Raise (e : exn).
Arguments Return {A} a.
Arguments Raise {A} e.

Definition M (A : Type) : Type := World → Outcome A * World.

#[global] Instance M_ret : MRet M := λ A a w, (Return a, w).

#[global] Instance M_bind : MBind M := λ A B f m w,
  match m w with
  | (Return a, w') => f a w'
  | (Raise e, w') => (Raise e, w')
  end.

(** The world after a reading of the clock and after a draw of a uuid. *)
Definition tick (w : World) : World :=
  {| store := store w; faults := faults w;
     clock := λ n, clock w (S n); uuids := uuids w;
     journal := journal w; logged := logged w |}.

Definition draw (w : World) : World :=
  {| store := store w; faults := faults w;
     clock := clock w; uuids := λ n, uuids w (S n);
     journal := journal w; logged := logged w |}.

Definition datetime_now : M datetime := λ w, (Return (clock w O), tick w).

Definition uuid4 : M uuid := λ w, (Return (uuids w O), draw w).

(** The world after a call of [session.execute] that raised [e], and after
    one that completed [q] and left the store [s']. *)
Definition failed (e : exn) (w : World) : World :=
  {| store := store w; faults := tail (faults w);
     clock := clock w; uuids := uuids w;
     journal := journal w; logged := logged w ++ [e] |}.

Definition completed (q : Statement) (s' : Store) (w : World) : World :=
  {| store := s'; faults := tail (faults w);
     clock := clock w; uuids := uuids w;
     journal := journal w ++ [q]; logged := logged w |}.

(** [CassandraClient.execute]: the session exists (the module-level client
    connected at import); a failure of [session.execute] is passed to
    [logger.error] and raised again. *)
Definition execute (q : Statement) : M (list (rows_of q)) := λ w,
  match head (faults w) with
  | Some (Some e) => (Raise e, failed e w)
  | _ =>
      match Cql.run q (store w) with
      | inl e => (Raise e, failed e w)
      | inr (result, s') => (Return result, completed q s' w)
      end
  end.

(** ** The dictionaries returned to the request handlers *)

Module Message.
Record t := {
  id : string;
  conversation_id : Z;
  sender_id : Z;
  receiver_id : Z;
  content : string;
  created_at : datetime
}.
End Message.

Module Conversation.
Record t := {
  id : Z;
  user1_id : Z;
  user2_id : Z;
  last_message_at : datetime;
  last_message_content : option string
}.
End Conversation.

Module Page.
Record t (A : Type) := {
  total : Z;
  page : Z;
  limit : Z;
  data : list A
}.
Arguments total {A} _.
Arguments page {A} _.
Arguments limit {A} _.
Arguments data {A} _.
End Page.

(** ** [MessageModel] *)

Module MessageModel.

(** The parameter tuples bound by [create_message]. *)
Definition params (sender_id receiver_id : Z) (content : string)
    (conversation_id : Z) (message_id : uuid) (message_timestamp : datetime)
    : MessageRow :=
  {| m_conversation_id := conversation_id;
     m_message_timestamp := message_timestamp;
     m_message_id := message_id;
     m_sender_id := sender_id;
     m_receiver_id := receiver_id;
     m_content := content |}.

Definition sender_params (sender_id receiver_id : Z) (content : string)
    (conversation_id : Z) (message_timestamp : datetime) : SummaryRow :=
  {| c_user_id := sender_id;
     c_last_message_timestamp := message_timestamp;
     c_conversation_id := conversation_id;
     c_other_user_id := receiver_id;
     c_last_message_content := Some content |}.

Definition receiver_params (sender_id receiver_id : Z) (content : string)
    (conversation_id : Z) (message_timestamp : datetime) : SummaryRow :=
  {| c_user_id := receiver_id;
     c_last_message_timestamp := message_timestamp;
     c_conversation_id := conversation_id;
     c_other_user_id := sender_id;
     c_last_message_content := Some content |}.

Definition create_message (sender_id receiver_id : Z) (content : string)
    (conversation_id : Z) : M Message.t :=
  message_id ← uuid4;
  message_timestamp ← datetime_now;
  _ ← execute (INSERT_messages_by_conversation
         (params sender_id receiver_id content conversation_id
            message_id message_timestamp));
  _ ← execute (INSERT_conversations_by_user
         (sender_params sender_id receiver_id content conversation_id
            message_timestamp));
  _ ← execute (INSERT_conversations_by_user
         (receiver_params sender_id receiver_id content conversation_id
            message_timestamp));
  mret {| Message.id := Py.str_uuid message_id;
          Message.conversation_id := conversation_id;
          Message.sender_id := sender_id;
          Message.receiver_id := receiver_id;
          Message.content := content;
          Message.created_at := message_timestamp |}.

(** The dictionary built from a row in the loops of the two readers. *)
Definition of_row (row : MessageRow) : Message.t :=
  {| Message.id := Py.str_uuid (m_message_id row);
     Message.conversation_id := m_conversation_id row;
     Message.sender_id := m_sender_id row;
     Message.receiver_id := m_receiver_id row;
     Message.content := m_content row;
     Message.created_at := m_message_timestamp row |}.

(** [for row in rows: messages.append({...})] *)
Fixpoint for_rows (rows : list MessageRow) (messages : list Message.t)
    : list Message.t :=
  match rows with
  | [] => messages
  | row :: rows' => for_rows rows' (messages ++ [of_row row])
  end.

Definition get_conversation_messages (conversation_id page limit : Z)
    : M (Page.t Message.t) :=
  let fetch_limit := page * limit in
  rows ← execute
    (SELECT_messages_by_conversation conversation_id None (Some fetch_limit));
  let messages := for_rows rows [] in
  let start_idx := (page - 1) * limit in
  let end_idx := start_idx + limit in
  let paged_messages := Py.slice messages start_idx end_idx in
  mret {| Page.total := Z.of_nat (length messages);
          Page.page := page;
          Page.limit := limit;
          Page.data := paged_messages |}.

Definition get_messages_before_timestamp (conversation_id : Z)
    (before_timestamp : datetime) (page limit : Z) : M (Page.t Message.t) :=
  let fetch_limit := page * limit in
  rows ← execute
    (SELECT_messages_by_conversation conversation_id (Some before_timestamp)
       (Some fetch_limit));
  let messages := for_rows rows [] in
  let start_idx := (page - 1) * limit in
  let end_idx := start_idx + limit in
  let paged_messages := Py.slice messages start_idx end_idx in
  count_result ← execute
    (SELECT_COUNT_messages_by_conversation conversation_id before_timestamp);
  let total :=
    match count_result with
    | count :: _ => count
    | [] => 0
    end in
  mret {| Page.total := total;
          Page.page := page;
          Page.limit := limit;
          Page.data := paged_messages |}.

End MessageModel.

(** ** [ConversationModel] *)

Module ConversationModel.

(** The loop of [get_user_conversations]: one lookup of the participants
    per summary row; a row without participants adds nothing. *)
Fixpoint for_rows (rows : list SummaryRow) (conversations : list Conversation.t)
    : M (list Conversation.t) :=
  match rows with
  | [] => mret conversations
  | row :: rows' =>
      let conversation_id := c_conversation_id row in
      participants_result ← execute (SELECT_conversation_participants conversation_id);
      match participants_result with
      | participant :: _ =>
          for_rows rows'
            (conversations ++
             [{| Conversation.id := conversation_id;
                 Conversation.user1_id := p_user1_id participant;
                 Conversation.user2_id := p_user2_id participant;
                 Conversation.last_message_at := c_last_message_timestamp row;
                 Conversation.last_message_content := c_last_message_content row |}])
      | [] => for_rows rows' conversations
      end
  end.

Definition get_user_conversations (user_id page limit : Z)
    : M (Page.t Conversation.t) :=
  let fetch_limit := page * limit in
  rows ← execute (SELECT_conversations_by_user user_id (Some fetch_limit));
  conversations ← for_rows rows [];
  let start_idx := (page - 1) * limit in
  let end_idx := start_idx + limit in
  let paged_conversations := Py.slice conversations start_idx end_idx in
  mret {| Page.total := Z.of_nat (length conversations);
          Page.page := page;
          Page.limit := limit;
          Page.data := paged_conversations |}.

Definition get_conversation (conversation_id : Z) : M (option Conversation.t) :=
  rows ← execute (SELECT_conversation_participants conversation_id);
  match rows with
  | [] => mret None
  | conversation :: _ =>
      last_message_results ← execute
        (SELECT_messages_by_conversation conversation_id None (Some 1));
      mret (Some
        {| Conversation.id := p_conversation_id conversation;
           Conversation.user1_id := p_user1_id conversation;
           Conversation.user2_id := p_user2_id conversation;
           Conversation.last_message_at :=
             match last_message_results with
             | last :: _ => m_message_timestamp last
             | [] => p_created_at conversation
             end;
           Conversation.last_message_content :=
             match last_message_results with
             | last :: _ => Some (m_content last)
             | [] => None
             end |})
  end.

(** The test of the scanning loop on a participants row. *)
Definition same_pair (participant : ParticipantRow) (min_user_id max_user_id : Z)
    : bool :=
  (p_user1_id participant =? min_user_id) && (p_user2_id participant =? max_user_id)
  || (p_user1_id participant =? max_user_id) && (p_user2_id participant =? min_user_id).

(** The scanning loop of [create_or_get_conversation]: the conversation id
    at which the loop returns, or [None] when it runs to its end. *)
Fixpoint for_conversations (conversations : list SummaryRow)
    (min_user_id max_user_id : Z) : M (option Z) :=
  match conversations with
  | [] => mret None
  | conversation :: conversations' =>
      let conversation_id := c_conversation_id conversation in
      participants ← execute (SELECT_conversation_participants conversation_id);
      match participants with
      | participant :: _ =>
          if same_pair participant min_user_id max_user_id
          then mret (Some conversation_id)
          else for_conversations conversations' min_user_id max_user_id
      | [] => for_conversations conversations' min_user_id max_user_id
      end
  end.

(** The parameter tuples bound by [create_or_get_conversation]. *)
Definition create_params (min_user_id max_user_id conversation_id : Z)
    (created_at : datetime) : ParticipantRow :=
  {| p_conversation_id := conversation_id;
     p_user1_id := min_user_id;
     p_user2_id := max_user_id;
     p_created_at := created_at |}.

Definition user1_params (min_user_id max_user_id conversation_id : Z)
    (created_at : datetime) : SummaryRow :=
  {| c_user_id := min_user_id;
     c_last_message_timestamp := created_at;
     c_conversation_id := conversation_id;
     c_other_user_id := max_user_id;
     c_last_message_content := None |}.

Definition user2_params (min_user_id max_user_id conversation_id : Z)
    (created_at : datetime) : SummaryRow :=
  {| c_user_id := max_user_id;
     c_last_message_timestamp := created_at;
     c_conversation_id := conversation_id;
     c_other_user_id := min_user_id;
     c_last_message_content := None |}.

Definition create_or_get_conversation (user1_id user2_id : Z)
    : M (option Conversation.t) :=
  let min_user_id := Z.min user1_id user2_id in
  let max_user_id := Z.max user1_id user2_id in
  conversations ← execute (SELECT_conversations_by_user min_user_id None);
  found ← for_conversations conversations min_user_id max_user_id;
  match found with
  | Some conversation_id => get_conversation conversation_id
  | None =>
      now ← datetime_now;
      let conversation_id := Py.int_timestamp now in
      created_at ← datetime_now;
      _ ← execute (INSERT_conversation_participants
             (create_params min_user_id max_user_id conversation_id created_at));
      _ ← execute (INSERT_conversations_by_user
             (user1_params min_user_id max_user_id conversation_id created_at));
      _ ← execute (INSERT_conversations_by_user
             (user2_params min_user_id max_user_id conversation_id created_at));
      mret (Some
        {| Conversation.id := conversation_id;
           Conversation.user1_id := min_user_id;
           Conversation.user2_id := max_user_id;
           Conversation.last_message_at := created_at;
           Conversation.last_message_content := None |})
  end.

End ConversationModel.

(** ** The text of a message id, as the request handlers read it *)

Module PyStr.

(** [s.split("-")[0]]: the part of [s] before its first dash, all of [s]
    when it has none. *)
Fixpoint before_dash (s : string) : string :=
  match s with
  | EmptyString => EmptyString
  | String c s' =>
      if Ascii.eqb c "-" then EmptyString else String c (before_dash s')
  end.

Definition hex_value (c : ascii) : option N :=
  let n := N_of_ascii c in
  if (48 <=? n)%N && (n <=? 57)%N then Some (n - 48)%N
  else if (97 <=? n)%N && (n <=? 102)%N then Some (n - 87)%N
  else if (65 <=? n)%N && (n <=? 70)%N then Some (n - 55)%N
  else None.

Fixpoint digits16 (acc : N) (s : string) : option N :=
  match s with
  | EmptyString => Some acc
  | String c s' =>
      match hex_value c with
      | Some d => digits16 (16 * acc + d) s'
      | None => None
      end
  end.

(** [int(s, 16)] on a string of hex digits; [None] is [ValueError]. The other
    strings [int] accepts (a sign, a prefix 0x, underscores, blanks around)
    are not produced by [str] of a uuid and count as errors here. *)
Definition int16 (s : string) : option Z :=
  match s with
  | EmptyString => None
  | _ => Z.of_N <$> digits16 0 s
  end.

End PyStr.

(** ** [CassandraClient]: the connection *)

(** The client object, the module variable that holds it, and the process
    start of [app/main.py]. The cluster is reduced to what an attempt to
    connect gives; the attributes [host], [port], [keyspace] and [cluster],
    and the methods [close] and [execute_async], which the repositories do
    not use, are left out. *)
Module CassandraClient.

(** What one pass through the [try] of [connect] gives: a session, the
    exception [NoHostAvailable], or another exception. *)
Inductive Attempt :=
  | Connects
  | NoHostAvailable
  | Fails.

Inductive PyExc :=
  | Exception (msg : string)
  | SystemExit (code : Z).

(** The records passed to the logger, by kind. *)
Inductive LogRecord :=
  | Connected
  | NotAvailableYet (attempt retries : nat)
  | UnexpectedError
  | Initializing
  | ConnectionEstablished
  | NotReadyYet (attempt max_retries : nat)
  | GivingUp.

(** The attributes of the instance that the code reads. *)
Record Client := {
  initialized : bool;
  session : bool
}.

(** The process: the coming outcomes of the attempts to connect, the class
    attribute [_instance], whether the module variable [cassandra_client] is
    set, the seconds spent in [time.sleep] and [asyncio.sleep], the log. *)
Record Process := {
  outcomes : nat → Attempt;
  instance : option Client;
  cassandra_client : bool;
  slept : Z;
  log : list LogRecord
}.

Definition fresh (outcomes : nat → Attempt) : Process :=
  {| outcomes := outcomes; instance := None; cassandra_client := false;
     slept := 0; log := [] |}.

Definition has_session (p : Process) : bool :=
  match instance p with
  | Some c => session c
  | None => false
  end.

Definition set_client (c : Client) (p : Process) : Process :=
  {| outcomes := outcomes p; instance := Some c;
     cassandra_client := cassandra_client p; slept := slept p; log := log p |}.

Definition set_session (b : bool) (p : Process) : Process :=
  match instance p with
  | Some c => set_client {| initialized := initialized c; session := b |} p
  | None => p
  end.

Definition set_initialized (b : bool) (p : Process) : Process :=
  match instance p with
  | Some c => set_client {| initialized := b; session := session c |} p
  | None => p
  end.

(** One attempt is used up. *)
Definition next (p : Process) : Process :=
  {| outcomes := λ n, outcomes p (S n); instance := instance p;
     cassandra_client := cassandra_client p; slept := slept p; log := log p |}.

Definition sleep (seconds : Z) (p : Process) : Process :=
  {| outcomes := outcomes p; instance := instance p;
     cassandra_client := cassandra_client p; slept := slept p + seconds;
     log := log p |}.

Definition logger (r : LogRecord) (p : Process) : Process :=
  {| outcomes := outcomes p; instance := instance p;
     cassandra_client := cassandra_client p; slept := slept p;
     log := log p ++ [r] |}.

Definition retries : nat := 10.

(** [for i in range(retries)] of [connect], with [remaining] passes to go. *)
Fixpoint connect_loop (remaining i : nat) (p : Process) : option PyExc * Process :=
  match remaining with
  | O =>
      (Some (Exception "Failed to connect to Cassandra after multiple retries."), p)
  | S remaining' =>
      match outcomes p O with
      | Connects => (None, logger Connected (set_session true (next p)))
      | NoHostAvailable =>
          connect_loop remaining' (S i)
            (sleep 3 (logger (NotAvailableYet (i + 1) retries) (next p)))
      | Fails =>
          connect_loop remaining' (S i) (sleep 3 (logger UnexpectedError (next p)))
      end
  end.

Definition connect (p : Process) : option PyExc * Process :=
  connect_loop retries O p.

(** [get_session]: connects when there is no session. *)
Definition get_session (p : Process) : option PyExc * Process :=
  if has_session p then (None, p) else connect p.

(** [CassandraClient()]: [__new__], then [__init__] on the instance. *)
Definition new (p : Process) : Process :=
  match instance p with
  | None => set_client {| initialized := false; session := false |} p
  | Some _ => p
  end.

Definition init (p : Process) : option PyExc * Process :=
  match instance p with
  | Some c =>
      if initialized c then (None, p)
      else
        match connect (set_session false p) with
        | (None, p') => (None, set_initialized true p')
        | (Some e, p') => (Some e, p')
        end
  | None => (None, p)
  end.

Definition construct (p : Process) : option PyExc * Process := init (new p).

Definition get_cassandra_client (p : Process) : option PyExc * Process :=
  if cassandra_client p then (None, p)
  else
    match construct p with
    | (None, p') =>
        (None,
         {| outcomes := outcomes p'; instance := instance p';
            cassandra_client := true; slept := slept p'; log := log p' |})
    | (Some e, p') => (Some e, p')
    end.

Definition max_retries : nat := 20.

(** The loop of [startup_event]: [None] when the application starts, the
    exception of [sys.exit(1)] when the loop runs out. *)
Fixpoint startup_loop (remaining i : nat) (p : Process) : option PyExc * Process :=
  match remaining with
  | O => (Some (SystemExit 1), logger GivingUp p)
  | S remaining' =>
      let attempt :=
        match get_cassandra_client p with
        | (None, p') => get_session p'
        | (Some e, p') => (Some e, p')
        end in
      match attempt with
      | (None, p') => (None, logger ConnectionEstablished p')
      | (Some _, p') =>
          startup_loop remaining' (S i)
            (sleep 3 (logger (NotReadyYet (i + 1) max_retries) p'))
      end
  end.

Definition startup_event (p : Process) : option PyExc * Process :=
  startup_loop max_retries O (logger Initializing p).

(** [execute] with its first lines: without a session it connects before it
    runs the query; a failure to connect is raised from outside the [try],
    so it is not passed to [logger.error]. *)
Definition execute (q : Statement) (pw : Process * World)
    : (PyExc + Outcome (list (rows_of q))) * (Process * World) :=
  let '(p, w) := pw in
  if has_session p then
    let '(r, w') := execute q w in (inr r, (p, w'))
  else
    match connect p with
    | (Some e, p') => (inl e, (p', w))
    | (None, p') => let '(r, w') := execute q w in (inr r, (p', w'))
    end.

End CassandraClient.

(** ** The request handlers *)

(** The handlers of [app/controllers]. The response models of [app.schemas]
    are not among the sources: the handlers are embedded over any response
    models, whose constructors return an instance or refuse their arguments
    with an exception, and over any text [str(e)] of an exception. *)
Module Controller.

Record HTTPException := {
  status_code : Z;
  detail : string
}.

Definition HTTP_404_NOT_FOUND : Z := 404.
Definition HTTP_500_INTERNAL_SERVER_ERROR : Z := 500.

Class Schemas := {
  MessageResponse_t : Type;
  PaginatedMessageResponse_t : Type;
  ConversationResponse_t : Type;
  PaginatedConversationResponse_t : Type;
  Refusal : Type;
  MessageResponse (id conversation_id sender_id receiver_id : Z) (content : string)
      (created_at : datetime) : Refusal + MessageResponse_t;
  PaginatedMessageResponse (total page limit : Z) (data : list MessageResponse_t)
      : Refusal + PaginatedMessageResponse_t;
  ConversationResponse (id user1_id user2_id : Z) (last_message_at : datetime)
      (last_message_content : option string) : Refusal + ConversationResponse_t;
  PaginatedConversationResponse (total page limit : Z)
      (data : list ConversationResponse_t) : Refusal + PaginatedConversationResponse_t
}.

Section handlers.
Context {schemas : Schemas}.

(** What the body of a [try] raises: an [HTTPException], the exception of a
    query, [TypeError] for a subscript of [None], [ValueError] of [int], or
    the exception of a response model. *)
Inductive Raised :=
  | Http (h : HTTPException)
  | Driver (e : exn)
  | TypeError
  | ValueError
  | Refused (r : Refusal).

(** The body of a handler, and the handler with its [except] clauses. *)
Definition Body (A : Type) : Type := World → (Raised + A) * World.

Definition Handler (A : Type) : Type := World → (HTTPException + A) * World.

Definition pure {A} (a : A) : Body A := λ w, (inr a, w).

Definition bind {A B} (m : Body A) (f : A → Body B) : Body B := λ w,
  match m w with
  | (inr a, w') => f a w'
  | (inl r, w') => (inl r, w')
  end.

Definition raise {A} (r : Raised) : Body A := λ w, (inl r, w).

(** [await] of a method of the repositories. *)
Definition await {A} (m : M A) : Body A := λ w,
  match m w with
  | (Return a, w') => (inr a, w')
  | (Raise e, w') => (inl (Driver e), w')
  end.

(** A call of a response model. *)
Definition model {A} (r : Refusal + A) : Body A :=
  match r with
  | inr a => pure a
  | inl x => raise (Refused x)
  end.

(** [[f(x) for x in l]] *)
Fixpoint comprehension {A B} (f : A → Body B) (l : list A) : Body (list B) :=
  match l with
  | [] => pure []
  | x :: l' =>
      bind (f x) (λ y, bind (comprehension f l') (λ ys, pure (y :: ys)))
  end.

Variable str : Raised → string.

(** [except Exception as e: raise HTTPException(500, f"<prefix>{str(e)}")],
    alone, where it catches an [HTTPException] as well, and after
    [except HTTPException: raise]. *)
Definition except_Exception {A} (prefix : string) (body : Body A) : Handler A := λ w,
  match body w with
  | (inr a, w') => (inr a, w')
  | (inl e, w') =>
      (inl {| status_code := HTTP_500_INTERNAL_SERVER_ERROR;
              detail := prefix +:+ str e |}, w')
  end.

Definition except_HTTPException_raise {A} (prefix : string) (body : Body A)
    : Handler A := λ w,
  match body w with
  | (inr a, w') => (inr a, w')
  | (inl (Http h), w') => (inl h, w')
  | (inl e, w') =>
      (inl {| status_code := HTTP_500_INTERNAL_SERVER_ERROR;
              detail := prefix +:+ str e |}, w')
  end.

(** [conversation["id"]], where [conversation] may be [None]. *)
Definition subscript_id (conversation : option Conversation.t) : Body Z :=
  match conversation with
  | Some c => pure (Conversation.id c)
  | None => raise TypeError
  end.

(** [if not conversation: raise HTTPException(404, "Conversation not found")] *)
Definition found (conversation : option Conversation.t) : Body Conversation.t :=
  match conversation with
  | Some c => pure c
  | None =>
      raise (Http {| status_code := HTTP_404_NOT_FOUND;
                     detail := "Conversation not found" |})
  end.

(** [int(message["id"].split("-")[0], 16)] *)
Definition int_id (id : string) : Body Z :=
  match PyStr.int16 (PyStr.before_dash id) with
  | Some n => pure n
  | None => raise ValueError
  end.

Definition message_response (message : Message.t) : Body MessageResponse_t :=
  bind (int_id (Message.id message)) (λ id,
  model (MessageResponse id (Message.conversation_id message)
           (Message.sender_id message) (Message.receiver_id message)
           (Message.content message) (Message.created_at message))).

Definition paginated_messages (result : Page.t Message.t)
    : Body PaginatedMessageResponse_t :=
  bind (comprehension message_response (Page.data result)) (λ messages,
  model (PaginatedMessageResponse (Page.total result) (Page.page result)
           (Page.limit result) messages)).

Definition conversation_response (conversation : Conversation.t)
    : Body ConversationResponse_t :=
  model (ConversationResponse (Conversation.id conversation)
           (Conversation.user1_id conversation) (Conversation.user2_id conversation)
           (Conversation.last_message_at conversation)
           (Conversation.last_message_content conversation)).

(** [MessageController] *)

Definition send_message (sender_id receiver_id : Z) (content : string)
    : Handler MessageResponse_t :=
  except_Exception "Failed to send message: "
    (bind (await (ConversationModel.create_or_get_conversation sender_id receiver_id))
       (λ conversation,
     bind (subscript_id conversation) (λ conversation_id,
     bind (await (MessageModel.create_message sender_id receiver_id content
                    conversation_id)) (λ message,
     message_response message)))).

Definition get_conversation_messages (conversation_id page limit : Z)
    : Handler PaginatedMessageResponse_t :=
  except_HTTPException_raise "Failed to get conversation messages: "
    (bind (await (ConversationModel.get_conversation conversation_id))
       (λ conversation,
     bind (found conversation) (λ _,
     bind (await (MessageModel.get_conversation_messages conversation_id page limit))
       (λ result,
     paginated_messages result)))).

Definition get_messages_before_timestamp (conversation_id : Z)
    (before_timestamp : datetime) (page limit : Z)
    : Handler PaginatedMessageResponse_t :=
  except_HTTPException_raise "Failed to get messages before timestamp: "
    (bind (await (ConversationModel.get_conversation conversation_id))
       (λ conversation,
     bind (found conversation) (λ _,
     bind (await (MessageModel.get_messages_before_timestamp conversation_id
                    before_timestamp page limit)) (λ result,
     paginated_messages result)))).

(** [ConversationController] *)

Definition get_user_conversations (user_id page limit : Z)
    : Handler PaginatedConversationResponse_t :=
  except_Exception "Failed to get user conversations: "
    (bind (await (ConversationModel.get_user_conversations user_id page limit))
       (λ result,
     bind (comprehension conversation_response (Page.data result))
       (λ conversations,
     model (PaginatedConversationResponse (Page.total result) (Page.page result)
              (Page.limit result) conversations)))).

Definition get_conversation (conversation_id : Z) : Handler ConversationResponse_t :=
  except_HTTPException_raise "Failed to get conversation: "
    (bind (await (ConversationModel.get_conversation conversation_id))
       (λ conversation,
     bind (found conversation) (λ conversation,
     conversation_response conversation))).

End handlers.

End Controller.

(** ** [scripts/generate_test_data.py] *)

(** The script writes through a session of its own. The choices of the
    module [random] are given from outside, by the iteration that makes
    them; the clock and the uuids are those of the world. *)
Module Script.

Definition NUM_USERS : Z := 10.
Definition NUM_CONVERSATIONS : nat := 15.
Definition MAX_MESSAGES_PER_CONVERSATION : Z := 50.

(** For the conversation [i]: [random.sample(user_ids, 2)], the days of
    [random.randint(1, 30)] and the number of messages
    [random.randint(5, MAX_MESSAGES_PER_CONVERSATION)]; for its message [j]:
    whether [random.random() < 0.5], and the hours, minutes and seconds. *)
Record Random := {
  sample : nat → Z * Z;
  days : nat → Z;
  num_messages : nat → nat;
  coin : nat → nat → bool;
  hours : nat → nat → Z;
  minutes : nat → nat → Z;
  seconds : nat → nat → Z
}.

(** [session.execute] of the script: nothing is logged where it raises. *)
Definition raised (w : World) : World :=
  {| store := store w; faults := tail (faults w);
     clock := clock w; uuids := uuids w;
     journal := journal w; logged := logged w |}.

Definition session_execute (q : Statement) : M (list (rows_of q)) := λ w,
  match head (faults w) with
  | Some (Some e) => (Raise e, raised w)
  | _ =>
      match Cql.run q (store w) with
      | inl e => (Raise e, raised w)
      | inr (result, s') => (Return result, completed q s' w)
      end
  end.

(** [timedelta(days=..., hours=..., minutes=..., seconds=...)], in
    microseconds. *)
Definition timedelta (days hours minutes seconds : Z) : Z :=
  (((days * 24 + hours) * 60 + minutes) * 60 + seconds) * 1000000.

(** [f"Test message {j + 1} from User {sender_id} to User {receiver_id}"] *)
Definition content (j : nat) (sender_id receiver_id : Z) : string :=
  "Test message " +:+ pretty (j + 1)%nat +:+ " from User " +:+ pretty sender_id
  +:+ " to User " +:+ pretty receiver_id.

Definition sender_receiver (r : Random) (i j : nat) (user1 user2 : Z) : Z * Z :=
  if coin r i j then (user1, user2) else (user2, user1).

Definition message_timestamp (r : Random) (i j : nat) (created_at : datetime)
    : datetime :=
  created_at + timedelta 0 (hours r i j) (minutes r i j) (seconds r i j).

(** [if last_message_timestamp is None or message_timestamp >
    last_message_timestamp: ...] *)
Definition track (last : option (datetime * string)) (message_timestamp : datetime)
    (content : string) : option (datetime * string) :=
  match last with
  | None => Some (message_timestamp, content)
  | Some (last_message_timestamp, _) =>
      if last_message_timestamp <? message_timestamp
      then Some (message_timestamp, content)
      else last
  end.

(** [for j in range(num_messages)], with [remaining] passes to go. *)
Fixpoint message_loop (r : Random) (i : nat) (conversation_id user1 user2 : Z)
    (created_at : datetime) (remaining j : nat) (last : option (datetime * string))
    : M (option (datetime * string)) :=
  match remaining with
  | O => mret last
  | S remaining' =>
      let sender_id := (sender_receiver r i j user1 user2).1 in
      let receiver_id := (sender_receiver r i j user1 user2).2 in
      message_id ← uuid4;
      let message_timestamp := message_timestamp r i j created_at in
      let content := content j sender_id receiver_id in
      let last' := track last message_timestamp content in
      _ ← session_execute (INSERT_messages_by_conversation
             {| m_conversation_id := conversation_id;
                m_message_timestamp := message_timestamp;
                m_message_id := message_id;
                m_sender_id := sender_id;
                m_receiver_id := receiver_id;
                m_content := content |});
      message_loop r i conversation_id user1 user2 created_at remaining' (S j) last'
  end.

(** The body of [for i in range(NUM_CONVERSATIONS)]. *)
Definition conversation (r : Random) (i : nat) : M unit :=
  let user1 := (sample r i).1 in
  let user2 := (sample r i).2 in
  now ← datetime_now;
  let conversation_id := Py.int_timestamp now + Z.of_nat i in
  now' ← datetime_now;
  let created_at := now' - timedelta (days r i) 0 0 0 in
  _ ← session_execute (INSERT_conversation_participants
         {| p_conversation_id := conversation_id;
            p_user1_id := Z.min user1 user2;
            p_user2_id := Z.max user1 user2;
            p_created_at := created_at |});
  last ← message_loop r i conversation_id user1 user2 created_at
           (num_messages r i) O None;
  match last with
  | Some (last_message_timestamp, last_message_content) =>
      _ ← session_execute (INSERT_conversations_by_user
             {| c_user_id := user1;
                c_last_message_timestamp := last_message_timestamp;
                c_conversation_id := conversation_id;
                c_other_user_id := user2;
                c_last_message_content := Some last_message_content |});
      _ ← session_execute (INSERT_conversations_by_user
             {| c_user_id := user2;
                c_last_message_timestamp := last_message_timestamp;
                c_conversation_id := conversation_id;
                c_other_user_id := user1;
                c_last_message_content := Some last_message_content |});
      mret ()
  | None => mret ()
  end.

Fixpoint conversations_loop (r : Random) (remaining i : nat) : M unit :=
  match remaining with
  | O => mret ()
  | S remaining' =>
      _ ← conversation r i;
      conversations_loop r remaining' (S i)
  end.

Definition generate_test_data (r : Random) : M unit :=
  conversations_loop r NUM_CONVERSATIONS O.

End Script.

(** * The vocabulary of the properties *)

(** The elements of [l] at the zero-based offsets [lo <= i < hi]. *)
Definition window {A} (l : list A) (lo hi : Z) : list A :=
  take (Z.to_nat (hi - lo)) (drop (Z.to_nat lo) l).

(** No failure of [session.execute] is scheduled among the next [n] calls,
    respectively among all coming calls. *)
Definition calm (n : nat) (w : World) : Prop :=
  ∀ i e, (i < n)%nat → faults w !! i ≠ Some (Some e).

Definition fault_free (w : World) : Prop := ∀ n, calm n w.

(** The world after the statements [qs] completed and left the store [s']. *)
Definition after (qs : list Statement) (s' : Store) (w : World) : World :=
  {| store := s'; faults := drop (length qs) (faults w);
     clock := clock w; uuids := uuids w;
     journal := journal w ++ qs; logged := logged w |}.

(** The store after the statements [qs] completed one after the other. *)
Definition replay (qs : list Statement) (s : Store) : Store :=
  foldl (λ s q, match Cql.run q s with inr (_, s') => s' | inl _ => s end) s qs.

(** The statements of [create_message], in program order. *)
Definition create_message_writes (sender_id receiver_id : Z) (content : string)
    (conversation_id : Z) (w : World) : list Statement :=
  [INSERT_messages_by_conversation
     (MessageModel.params sender_id receiver_id content conversation_id
        (uuids w O) (clock w O));
   INSERT_conversations_by_user
     (MessageModel.sender_params sender_id receiver_id content conversation_id
        (clock w O));
   INSERT_conversations_by_user
     (MessageModel.receiver_params sender_id receiver_id content conversation_id
        (clock w O))].

(** What the loop of [get_user_conversations] makes of one summary row. *)
Definition resolve (s : Store) (row : SummaryRow) : option Conversation.t :=
  match conversation_participants s !! c_conversation_id row with
  | Some e =>
      Some {| Conversation.id := c_conversation_id row;
              Conversation.user1_id := e.1.1;
              Conversation.user2_id := e.1.2;
              Conversation.last_message_at := c_last_message_timestamp row;
              Conversation.last_message_content := c_last_message_content row |}
  | None => None
  end.

Definition participants_lookups (rows : list SummaryRow) : list Statement :=
  (λ row, SELECT_conversation_participants (c_conversation_id row)) <$> rows.

(** The dictionary [get_conversation] builds from the participants row and
    the newest message of the conversation, if there is one. *)
Definition conversation_view (conversation : ParticipantRow)
    (last : option MessageRow) : Conversation.t :=
  {| Conversation.id := p_conversation_id conversation;
     Conversation.user1_id := p_user1_id conversation;
     Conversation.user2_id := p_user2_id conversation;
     Conversation.last_message_at :=
       match last with
       | Some m => m_message_timestamp m
       | None => p_created_at conversation
       end;
     Conversation.last_message_content := m_content <$> last |}.

(** The scanning loop read off the store: the conversation it returns at, and
    the summary rows it visits. *)
Fixpoint existing (s : Store) (rows : list SummaryRow) (min_user_id max_user_id : Z)
    : option Z :=
  match rows with
  | [] => None
  | row :: rows' =>
      match conversation_participants s !! c_conversation_id row with
      | Some e =>
          if ConversationModel.same_pair
               (participant_row (c_conversation_id row) e) min_user_id max_user_id
          then Some (c_conversation_id row)
          else existing s rows' min_user_id max_user_id
      | None => existing s rows' min_user_id max_user_id
      end
  end.

Fixpoint visited (s : Store) (rows : list SummaryRow) (min_user_id max_user_id : Z)
    : list SummaryRow :=
  match rows with
  | [] => []
  | row :: rows' =>
      row ::
      match conversation_participants s !! c_conversation_id row with
      | Some e =>
          if ConversationModel.same_pair
               (participant_row (c_conversation_id row) e) min_user_id max_user_id
          then []
          else visited s rows' min_user_id max_user_id
      | None => visited s rows' min_user_id max_user_id
      end
  end.

(** The conversation [create_or_get_conversation] finds for a pair of users. *)
Definition existing_conversation (s : Store) (user1_id user2_id : Z) : option Z :=
  existing s (Cql.summaries_where (Z.min user1_id user2_id) s)
    (Z.min user1_id user2_id) (Z.max user1_id user2_id).

(** The statements of [create_or_get_conversation]: the reads of the scan, and
    the writes of a creation in program order. *)
Definition scan_reads (user1_id user2_id : Z) (s : Store) : list Statement :=
  SELECT_conversations_by_user (Z.min user1_id user2_id) None ::
  participants_lookups
    (visited s (Cql.summaries_where (Z.min user1_id user2_id) s)
       (Z.min user1_id user2_id) (Z.max user1_id user2_id)).

Definition new_conversation_id (w : World) : Z := Py.int_timestamp (clock w O).

Definition creation_writes (user1_id user2_id : Z) (w : World) : list Statement :=
  let min_user_id := Z.min user1_id user2_id in
  let max_user_id := Z.max user1_id user2_id in
  [INSERT_conversation_participants
     (ConversationModel.create_params min_user_id max_user_id
        (new_conversation_id w) (clock w 1%nat));
   INSERT_conversations_by_user
     (ConversationModel.user1_params min_user_id max_user_id
        (new_conversation_id w) (clock w 1%nat));
   INSERT_conversations_by_user
     (ConversationModel.user2_params min_user_id max_user_id
        (new_conversation_id w) (clock w 1%nat))].

(** A property of the store kept by a computation, failures included. *)
Definition keeps (P : Store → Prop) {A} (m : M A) : Prop :=
  ∀ w, P (store w) → P (store (m w).2).

(** What the upsert needs of a comparison of clustering columns. *)
Class ClusteringOrder {K} (cmp : K → K → comparison) := {
  cmp_trans a b c : cmp a b = Lt → cmp b c = Lt → cmp a c = Lt;
  cmp_flip a b : cmp a b = Gt → cmp b a = Lt;
  cmp_eq a b : cmp a b = Eq → a = b
}.

(** The rows of a partition are in clustering order, without two rows of the
    same clustering columns. *)
Definition in_order {K V} (cmp : K → K → comparison) (l : list (K * V)) : Prop :=
  StronglySorted (λ x y, cmp x.1 y.1 = Lt) l.

Definition clustered (s : Store) : Prop :=
  (∀ conversation_id,
     in_order Clustering.message (messages_by_conversation s !!! conversation_id))
  ∧ (∀ user_id,
       in_order Clustering.summary (conversations_by_user s !!! user_id)).

(** Every stored pair of participants has the smaller id first. *)
Definition canonical (s : Store) : Prop :=
  ∀ conversation_id e,
    conversation_participants s !! conversation_id = Some e → e.1.1 ≤ e.1.2.

Definition well_formed (s : Store) : Prop := canonical s ∧ clustered s.

Inductive Call :=
  | Call_create_message (sender_id receiver_id : Z) (content : string)
      (conversation_id : Z)
  | Call_get_conversation_messages (conversation_id page limit : Z)
  | Call_get_messages_before_timestamp (conversation_id : Z)
      (before_timestamp : datetime) (page limit : Z)
  | Call_get_user_conversations (user_id page limit : Z)
  | Call_get_conversation (conversation_id : Z)
  | Call_create_or_get_conversation (user1_id user2_id : Z).

(** The world a call leaves, whether it returns or raises. *)
Definition perform (c : Call) (w : World) : World :=
  match c with
  | Call_create_message sender_id receiver_id content conversation_id =>
      (MessageModel.create_message sender_id receiver_id content conversation_id w).2
  | Call_get_conversation_messages conversation_id page limit =>
      (MessageModel.get_conversation_messages conversation_id page limit w).2
  | Call_get_messages_before_timestamp conversation_id before_timestamp page limit =>
      (MessageModel.get_messages_before_timestamp conversation_id before_timestamp
         page limit w).2
  | Call_get_user_conversations user_id page limit =>
      (ConversationModel.get_user_conversations user_id page limit w).2
  | Call_get_conversation conversation_id =>
      (ConversationModel.get_conversation conversation_id w).2
  | Call_create_or_get_conversation user1_id user2_id =>
      (ConversationModel.create_or_get_conversation user1_id user2_id w).2
  end.

Definition start (fs : list (option exn)) (clk : nat → datetime) (us : nat → uuid)
    : World :=
  {| store := empty_store; faults := fs; clock := clk; uuids := us;
     journal := []; logged := [] |}.

(** From the empty tables, any sequence of calls, with any failures, clock
    and uuids. *)
Inductive reachable : World → Prop :=
  | reachable_start fs clk us : reachable (start fs clk us)
  | reachable_call c w : reachable w → reachable (perform c w).

(** Worlds to run the repositories on: a clock that advances by a second and
    a half at each reading, uuids counted from 1000. *)
Module Example.

Definition clk (n : nat) : datetime := 1700000000000000 + Z.of_nat n * 1500000.
Definition us (n : nat) : uuid := (1000 + N.of_nat n)%N.

(** Empty tables, no failure coming. *)
Definition fresh : World := start [] clk us.

(** Users 5 and 9 have a conversation, without messages, then with two. *)
Definition opened : World := perform (Call_create_or_get_conversation 5 9) fresh.

Definition chatted : World :=
  perform (Call_create_message 9 5 "yo" 1700000000)
    (perform (Call_create_message 5 9 "hi" 1700000000) opened).

(** Empty tables, and the call of [session.execute] after the next [k]
    fails. *)
Definition failing (k : nat) : World :=
  start (replicate k None ++ [Some (DriverError 7)]) clk us.

End Example.

(** The clustering order of messages_by_conversation on rows: newer first,
    and at equal timestamps the smaller message id first. *)
Definition newest_first (a b : MessageRow) : Prop :=
  m_message_timestamp b < m_message_timestamp a
  ∨ (m_message_timestamp a = m_message_timestamp b
     ∧ (m_message_id a < m_message_id b)%N).

(** A value of a column as the driver hands it to the code, and a summary
    row as the dictionary [dict_factory] makes of it. *)
Inductive Value :=
  | Null
  | Int (z : Z)
  | Timestamp (t : datetime)
  | Text (s : string).

Definition summary_dict (row : SummaryRow) : gmap string Value :=
  {[ "user_id" := Int (c_user_id row);
     "last_message_timestamp" := Timestamp (c_last_message_timestamp row);
     "conversation_id" := Int (c_conversation_id row);
     "other_user_id" := Int (c_other_user_id row);
     "last_message_content" :=
       match c_last_message_content row with
       | Some s => Text s
       | None => Null
       end ]}.

(** Both [last_message_*] columns of a summary row are null. *)
Definition last_message_fields_null (row : SummaryRow) : Prop :=
  summary_dict row !! "last_message_timestamp" = Some Null
  ∧ summary_dict row !! "last_message_content" = Some Null.

(** Worlds where the clock advances by a microsecond at each reading, so that
    all readings of a run fall in the same second: users 5 and 9 have a
    conversation with one message. *)
Module SameSecond.

Definition clk (n : nat) : datetime := 1700000000000000 + Z.of_nat n.

Definition fresh : World := start [] clk Example.us.

Definition chatted : World :=
  perform (Call_create_message 5 9 "hi" 1700000000)
    (perform (Call_create_or_get_conversation 5 9) fresh).

(** Empty tables, and the third write of the next creation fails. *)
Definition failing : World := start [None; None; None; Some (DriverError 7)] clk Example.us.

End SameSecond.

(** Clusters that come up at the attempt number [n] (from 0), and one that
    never does. *)
Module Cluster.

Definition up_at (n : nat) (k : nat) : CassandraClient.Attempt :=
  if (k <? n)%nat then CassandraClient.NoHostAvailable else CassandraClient.Connects.

Definition down (k : nat) : CassandraClient.Attempt := CassandraClient.NoHostAvailable.

End Cluster.

(** A process that has not got its client yet. *)
Definition unstarted (p : CassandraClient.Process) : Prop :=
  CassandraClient.cassandra_client p = false
  ∧ ∀ c, CassandraClient.instance p = Some c → CassandraClient.initialized c = false.

(** Response models that keep the fields they are given and refuse nothing,
    and a text for the exceptions. *)
Module Plain.

Definition schemas : Controller.Schemas :=
  {| Controller.MessageResponse_t := Z * Z * Z * Z * string * datetime;
     Controller.PaginatedMessageResponse_t :=
       Z * Z * Z * list (Z * Z * Z * Z * string * datetime);
     Controller.ConversationResponse_t := Z * Z * Z * datetime * option string;
     Controller.PaginatedConversationResponse_t :=
       Z * Z * Z * list (Z * Z * Z * datetime * option string);
     Controller.Refusal := Empty_set;
     Controller.MessageResponse id conversation_id sender_id receiver_id content
         created_at :=
       inr (id, conversation_id, sender_id, receiver_id, content, created_at);
     Controller.PaginatedMessageResponse total page limit data :=
       inr (total, page, limit, data);
     Controller.ConversationResponse id user1_id user2_id last_message_at
         last_message_content :=
       inr (id, user1_id, user2_id, last_message_at, last_message_content);
     Controller.PaginatedConversationResponse total page limit data :=
       inr (total, page, limit, data) |}.

Definition str (e : @Controller.Raised schemas) : string :=
  match e with
  | Controller.Driver (InvalidRequest msg) => msg
  | _ => "error"
  end.

End Plain.

(** The integer id the handlers give the message of a row, the response
    model of the row, and the instances for a list of calls of a response
    model in order: all of them, or the first refusal. *)
Definition response_id (row : MessageRow) : Z :=
  Z.of_N ((m_message_id row / 2 ^ 96) mod 2 ^ 32).

Definition row_response `{schemas : Controller.Schemas} (row : MessageRow)
    : Controller.Refusal + Controller.MessageResponse_t :=
  Controller.MessageResponse (response_id row) (m_conversation_id row)
    (m_sender_id row) (m_receiver_id row) (m_content row) (m_message_timestamp row).

Fixpoint instances {R A} (calls : list (R + A)) : R + list A :=
  match calls with
  | [] => inr []
  | inl r :: _ => inl r
  | inr a :: calls' =>
      match instances calls' with
      | inl r => inl r
      | inr l => inr (a :: l)
      end
  end.

(** The answer of a handler whose queries succeeded: the instance of the
    response model, or the status 500 for its refusal. *)
Definition answer `{schemas : Controller.Schemas} (str : Controller.Raised → string)
    (prefix : string) {A} (r : Controller.Refusal + A)
    : Controller.HTTPException + A :=
  match r with
  | inr a => inr a
  | inl x =>
      inl {| Controller.status_code := 500;
             Controller.detail := prefix +:+ str (Controller.Refused x) |}
  end.

(** Every summary row and every message belongs to a conversation that has
    its participants row. *)
Definition referential (s : Store) : Prop :=
  (∀ user_id row,
     row ∈ Cql.summaries_where user_id s →
     is_Some (conversation_participants s !! c_conversation_id row))
  ∧ (∀ conversation_id row,
       row ∈ Cql.messages_where conversation_id None s →
       is_Some (conversation_participants s !! conversation_id)).

(** From a store with [P], a computation returns [a] in a store with [Q a],
    or raises in a store with [E]; the same for the body of a handler and
    for a handler. *)
Definition triple (P : Store → Prop) {A} (m : M A) (Q : A → Store → Prop)
    (E : Store → Prop) : Prop :=
  ∀ w, P (store w) →
       match m w with
       | (Return a, w') => Q a (store w')
       | (Raise _, w') => E (store w')
       end.

Definition body_triple `{schemas : Controller.Schemas} (P : Store → Prop) {A}
    (b : Controller.Body A) (Q : A → Store → Prop) (E : Store → Prop) : Prop :=
  ∀ w, P (store w) →
       match b w with
       | (inr a, w') => Q a (store w')
       | (inl _, w') => E (store w')
       end.

(** The requests the handlers serve, and the worlds reached through them
    from the empty tables, with any failures, clock and uuids. *)
Inductive Request :=
  | Request_send_message (sender_id receiver_id : Z) (content : string)
  | Request_get_conversation_messages (conversation_id page limit : Z)
  | Request_get_messages_before_timestamp (conversation_id : Z)
      (before_timestamp : datetime) (page limit : Z)
  | Request_get_user_conversations (user_id page limit : Z)
  | Request_get_conversation (conversation_id : Z).

Definition serve `{schemas : Controller.Schemas} (str : Controller.Raised → string)
    (r : Request) (w : World) : World :=
  match r with
  | Request_send_message sender_id receiver_id content =>
      (Controller.send_message str sender_id receiver_id content w).2
  | Request_get_conversation_messages conversation_id page limit =>
      (Controller.get_conversation_messages str conversation_id page limit w).2
  | Request_get_messages_before_timestamp conversation_id before_timestamp page limit =>
      (Controller.get_messages_before_timestamp str conversation_id before_timestamp
         page limit w).2
  | Request_get_user_conversations user_id page limit =>
      (Controller.get_user_conversations str user_id page limit w).2
  | Request_get_conversation conversation_id =>
      (Controller.get_conversation str conversation_id w).2
  end.

Inductive served `{schemas : Controller.Schemas} (str : Controller.Raised → string)
    : World → Prop :=
  | served_start fs clk us : served str (start fs clk us)
  | served_request r w : served str w → served str (serve str r w).

(** The response model of a conversation. *)
Definition conversation_model `{schemas : Controller.Schemas} (c : Conversation.t)
    : Controller.Refusal + Controller.ConversationResponse_t :=
  Controller.ConversationResponse (Conversation.id c) (Conversation.user1_id c)
    (Conversation.user2_id c) (Conversation.last_message_at c)
    (Conversation.last_message_content c).

(** What the message loop of the script tracks over the passes
    [j, j + 1, ..., j + remaining - 1], and the ids of the conversations a
    list of statements inserts. *)
Fixpoint tracked (r : Script.Random) (i : nat) (user1 user2 : Z)
    (created_at : datetime) (remaining j : nat) (last : option (datetime * string))
    : option (datetime * string) :=
  match remaining with
  | O => last
  | S remaining' =>
      tracked r i user1 user2 created_at remaining' (S j)
        (Script.track last (Script.message_timestamp r i j created_at)
           (Script.content j (Script.sender_receiver r i j user1 user2).1
              (Script.sender_receiver r i j user1 user2).2))
  end.

Definition participants_inserted (qs : list Statement) : list Z :=
  omap (λ q, match q with
             | INSERT_conversation_participants p => Some (p_conversation_id p)
             | _ => None
             end) qs.

(** Random choices to run the script on. *)
Module Seed.

Definition random : Script.Random :=
  {| Script.sample i := (1 + Z.of_nat i mod 10, 1 + (Z.of_nat i + 3) mod 10);
     Script.days i := 1 + Z.of_nat i mod 30;
     Script.num_messages i := 5%nat;
     Script.coin i j := Nat.even j;
     Script.hours i j := 1 + Z.of_nat ((j * 7) mod 5);
     Script.minutes i j := Z.of_nat j;
     Script.seconds i j := 0 |}.

End Seed.

(** The columns of type [timestamp] hold milliseconds: of a [datetime] bound
    to such a column the store keeps the whole milliseconds, which the driver
    cuts off toward zero. The embedding of the store keeps the value as it
    was bound; a property that compares a [datetime] of the program with one
    read back from the store is therefore stated up to the millisecond. *)
Definition millisecond (t : datetime) : Z := Z.quot t 1000.

(** The row of the message that the pass [j] of the message loop of the
    script binds, [message_id] being the uuid it drew. *)
Definition generated_message (r : Script.Random) (i : nat)
    (conversation_id user1 user2 : Z) (created_at : datetime) (j : nat)
    (message_id : uuid) : MessageRow :=
  {| m_conversation_id := conversation_id;
     m_message_timestamp := Script.message_timestamp r i j created_at;
     m_message_id := message_id;
     m_sender_id := (Script.sender_receiver r i j user1 user2).1;
     m_receiver_id := (Script.sender_receiver r i j user1 user2).2;
     m_content :=
       Script.content j (Script.sender_receiver r i j user1 user2).1
         (Script.sender_receiver r i j user1 user2).2 |}.

(** * Properties *)

(** ** Slices *)

Lemma window_lookup {A} (l : list A) (lo hi : Z) (i : nat) :
  0 ≤ lo →
  window l lo hi !! i =
    if decide (lo + Z.of_nat i < hi) then l !! Z.to_nat (lo + Z.of_nat i) else None.
Proof.
  intros Hlo. unfold window. case_decide as Hi.
  - rewrite lookup_take_lt by lia. rewrite lookup_drop. f_equal. lia.
  - apply lookup_take_ge. lia.
Qed.

Lemma window_length {A} (l : list A) (lo hi : Z) :
  0 ≤ lo →
  Z.of_nat (length (window l lo hi)) =
    Z.max 0 (Z.min hi (Z.of_nat (length l)) - lo).
Proof.
  intros Hlo. unfold window. rewrite length_take, length_drop. lia.
Qed.

(** A Python slice with bounds that are not negative is that window. *)
Lemma slice_window {A} (l : list A) (start stop : Z) :
  0 ≤ start → 0 ≤ stop → Py.slice l start stop = window l start stop.
Proof.
  intros Hstart Hstop. unfold Py.slice, Py.slice_index, window.
  destruct (Z.ltb_spec start 0); [lia|].
  destruct (Z.ltb_spec stop 0); [lia|].
  destruct (decide (Z.of_nat (length l) ≤ start)) as [Hge|Hlt].
  - rewrite (drop_ge l (Z.to_nat start)) by lia.
    rewrite (drop_ge l (Z.to_nat (Z.min start _))) by lia.
    by rewrite !take_nil.
  - rewrite (Z.min_l start) by lia.
    apply list_eq. intros i.
    destruct (decide (Z.of_nat i < stop - start)) as [Hi|Hi].
    + destruct (decide (Z.of_nat i < Z.min stop (Z.of_nat (length l)) - start)) as [Hj|Hj].
      * rewrite !lookup_take_lt by lia. done.
      * rewrite lookup_take_ge by lia. rewrite lookup_take_lt by lia.
        symmetry. apply lookup_ge_None. rewrite length_drop. lia.
    + rewrite !lookup_take_ge by lia. done.
Qed.

(** The bounds of a page are not negative as soon as the fetch limit is
    positive (both of [page] and [limit] positive, or both negative). *)
Lemma page_bounds (page limit : Z) :
  0 < page * limit → 0 ≤ (page - 1) * limit ∧ 0 ≤ (page - 1) * limit + limit.
Proof.
  intros H.
  destruct (Z.lt_trichotomy page 0) as [?|[->|?]];
    destruct (Z.lt_trichotomy limit 0) as [?|[->|?]]; nia.
Qed.

(** ** Running the repositories *)

Lemma run_bind {A B} (m : M A) (f : A → M B) (w : World) :
  (m ≫= f) w =
    match m w with
    | (Return a, w') => f a w'
    | (Raise e, w') => (Raise e, w')
    end.
Proof. reflexivity. Qed.

Lemma calm_le n m w : (m ≤ n)%nat → calm n w → calm m w.
Proof. intros Hle H i e Hi. apply H. lia. Qed.

Lemma calm_after n qs s w : calm (length qs + n) w → calm n (after qs s w).
Proof.
  intros H i e Hi. simpl. rewrite lookup_drop. apply H. lia.
Qed.

Lemma fault_free_calm n w : fault_free w → calm n w.
Proof. intros H. apply H. Qed.

Lemma fault_free_after qs s w : fault_free w → fault_free (after qs s w).
Proof. intros H n. apply calm_after, H. Qed.

Lemma fault_free_nil w : faults w = [] → fault_free w.
Proof. intros H n i e _. by rewrite H. Qed.

Lemma execute_calm q w :
  calm 1 w →
  execute q w =
    match Cql.run q (store w) with
    | inl e => (Raise e, failed e w)
    | inr (result, s') => (Return result, after [q] s' w)
    end.
Proof.
  intros H. unfold execute.
  destruct (head (faults w)) as [[e|]|] eqn:Hhead;
    try (destruct (Cql.run q (store w)) as [|[??]]; by rewrite ?completed_after).
  exfalso. apply (H O e); [lia|]. by rewrite <- head_lookup.
Qed.

Lemma execute_fault q w e :
  head (faults w) = Some (Some e) → execute q w = (Raise e, failed e w).
Proof. intros H. unfold execute. by rewrite H. Qed.

Lemma after_after qs1 qs2 s1 s2 w :
  after qs2 s2 (after qs1 s1 w) = after (qs1 ++ qs2) s2 w.
Proof.
  unfold after. simpl. f_equal.
  - rewrite drop_drop, length_app. done.
  - by rewrite app_assoc.
Qed.

Lemma tick_after qs s w : tick (after qs s w) = after qs s (tick w).
Proof. reflexivity. Qed.

Lemma after_nil w : after [] (store w) w = w.
Proof. destruct w. unfold after. simpl. by rewrite app_nil_r. Qed.

Lemma bind_uuid4 {B} (f : uuid → M B) w : (uuid4 ≫= f) w = f (uuids w O) (draw w).
Proof. reflexivity. Qed.

Lemma bind_datetime_now {B} (f : datetime → M B) w :
  (datetime_now ≫= f) w = f (clock w O) (tick w).
Proof. reflexivity. Qed.

Lemma bind_execute {B} q (f : list (rows_of q) → M B) w :
  calm 1 w →
  (execute q ≫= f) w =
    match Cql.run q (store w) with
    | inl e => (Raise e, failed e w)
    | inr (result, s') => f result (after [q] s' w)
    end.
Proof.
  intros H. rewrite run_bind, execute_calm by done.
  by destruct (Cql.run q (store w)) as [|[??]].
Qed.

Lemma bind_execute_fault {B} q (f : list (rows_of q) → M B) w e :
  head (faults w) = Some (Some e) → (execute q ≫= f) w = (Raise e, failed e w).
Proof. intros H. by rewrite run_bind, (execute_fault q w e). Qed.

(** Discharges [calm n w'] for a world [w'] built from a world known to be
    calm long enough. *)
Ltac calm_tac :=
  let i := fresh "i" in
  let e := fresh "e" in
  let Hi := fresh "Hi" in
  intros i e Hi; cbn [faults after tick draw length app];
  rewrite ?lookup_drop, ?length_app;
  match goal with
  | H : calm _ _ |- _ => apply H; cbn [length]; lia
  | H : fault_free _ |- _ => eapply (H (S _)); apply Nat.lt_succ_diag_r
  end.

Lemma calm_replicate k e rest w :
  faults w = replicate k None ++ Some e :: rest → calm k w.
Proof.
  intros H i e' Hi. rewrite H, lookup_app_l by (rewrite length_replicate; lia).
  rewrite lookup_replicate_2 by done. done.
Qed.

Lemma head_faults_after k e rest qs s w :
  faults w = replicate k None ++ Some e :: rest →
  length qs = k →
  head (faults (after qs s w)) = Some (Some e).
Proof.
  intros H Hlen. cbn [faults after]. rewrite H, Hlen.
  rewrite drop_app_length' by (by rewrite length_replicate). done.
Qed.

Lemma limited_pos {R} (n : Z) (rows : list R) :
  0 < n → Cql.limited (Some n) rows = inr (take (Z.to_nat n) rows).
Proof. intros H. unfold Cql.limited. by destruct (Z.ltb_spec 0 n); [|lia]. Qed.

Lemma limited_not_pos {R} (n : Z) (rows : list R) :
  n ≤ 0 →
  Cql.limited (Some n) rows = inl (InvalidRequest "LIMIT must be strictly positive").
Proof. intros H. unfold Cql.limited. by destruct (Z.ltb_spec 0 n); [lia|]. Qed.

(** ** [MessageModel.create_message] *)

Lemma create_message_run w sender_id receiver_id content conversation_id :
  calm 3 w →
  let writes := create_message_writes sender_id receiver_id content conversation_id w in
  MessageModel.create_message sender_id receiver_id content conversation_id w =
    (Return {| Message.id := Py.str_uuid (uuids w O);
               Message.conversation_id := conversation_id;
               Message.sender_id := sender_id;
               Message.receiver_id := receiver_id;
               Message.content := content;
               Message.created_at := clock w O |},
     after writes (replay writes (store w)) (tick (draw w))).
Proof.
  intros Hcalm writes. unfold MessageModel.create_message.
  rewrite bind_uuid4, bind_datetime_now.
  do 3 (rewrite bind_execute by calm_tac;
        cbn [Cql.run store after tick draw]; rewrite ?after_after; cbn [app]).
  reflexivity.
Qed.

(** A failure of the [k]-th write of [create_message] reaches the caller, and
    the world keeps the writes before it. *)
Lemma create_message_fault w sender_id receiver_id content conversation_id k e rest :
  (k < 3)%nat →
  faults w = replicate k None ++ Some e :: rest →
  let writes :=
    take k (create_message_writes sender_id receiver_id content conversation_id w) in
  MessageModel.create_message sender_id receiver_id content conversation_id w =
    (Raise e, failed e (after writes (replay writes (store w)) (tick (draw w)))).
Proof.
  intros Hk Hfaults writes. pose proof (calm_replicate _ _ _ _ Hfaults) as Hcalm.
  unfold MessageModel.create_message.
  rewrite bind_uuid4, bind_datetime_now.
  destruct k as [|[|[|k]]]; [| | |lia].
  - rewrite (bind_execute_fault _ _ _ e) by (cbn [faults tick draw]; by rewrite Hfaults).
    exact (f_equal (λ x, (Raise e, failed e x)) (eq_sym (after_nil (tick (draw w))))).
  - rewrite bind_execute by calm_tac.
    cbn [Cql.run store after tick draw].
    rewrite (bind_execute_fault _ _ _ e) by (by apply (head_faults_after 1 _ rest)).
    reflexivity.
  - do 2 (rewrite bind_execute by calm_tac;
          cbn [Cql.run store after tick draw]; rewrite ?after_after; cbn [app]).
    rewrite (bind_execute_fault _ _ _ e) by (by apply (head_faults_after 2 _ rest)).
    reflexivity.
Qed.

(** ** The readers of [MessageModel] *)

Lemma message_for_rows rows messages :
  MessageModel.for_rows rows messages = messages ++ (MessageModel.of_row <$> rows).
Proof.
  revert messages. induction rows as [|row rows IH]; intros messages; simpl.
  - by rewrite app_nil_r.
  - by rewrite IH, <- app_assoc.
Qed.

(** One step of a run: the next statement, with no failure scheduled. *)
Ltac exec := rewrite run_bind, execute_calm by calm_tac; cbn [Cql.run].

Lemma get_conversation_messages_run w conversation_id page limit :
  calm 1 w →
  0 < page * limit →
  let q := SELECT_messages_by_conversation conversation_id None (Some (page * limit)) in
  let fetched :=
    take (Z.to_nat (page * limit)) (Cql.messages_where conversation_id None (store w)) in
  MessageModel.get_conversation_messages conversation_id page limit w =
    (Return {| Page.total := Z.of_nat (length fetched);
               Page.page := page;
               Page.limit := limit;
               Page.data :=
                 MessageModel.of_row <$>
                   window fetched ((page - 1) * limit) (page * limit) |},
     after [q] (store w) w).
Proof.
  intros Hcalm Hpos q fetched. unfold MessageModel.get_conversation_messages.
  cbv zeta. exec. rewrite limited_pos by done. cbv beta iota.
  fold fetched. fold q. rewrite message_for_rows. cbn [app].
  destruct (page_bounds _ _ Hpos) as [Hlo Hhi].
  rewrite slice_window by done.
  replace ((page - 1) * limit + limit) with (page * limit) by lia.
  unfold window. rewrite <- fmap_drop, <- fmap_take, length_fmap. reflexivity.
Qed.

(** With a fetch limit that is not positive the store rejects the query. *)
Lemma get_conversation_messages_rejected w conversation_id page limit :
  calm 1 w →
  page * limit ≤ 0 →
  ∃ e w', MessageModel.get_conversation_messages conversation_id page limit w =
            (Raise e, w')
          ∧ store w' = store w.
Proof.
  intros Hcalm Hpos. unfold MessageModel.get_conversation_messages.
  cbv zeta. exec. rewrite limited_not_pos by done. cbv beta iota.
  eauto.
Qed.


(** ** The readers of [ConversationModel] *)

Lemma conversation_for_rows rows conversations w :
  calm (length rows) w →
  ConversationModel.for_rows rows conversations w =
    (Return (conversations ++ omap (resolve (store w)) rows),
     after (participants_lookups rows) (store w) w).
Proof.
  revert conversations w.
  induction rows as [|row rows IH]; intros conversations w Hcalm.
  - cbn. by rewrite app_nil_r, after_nil.
  - cbn [ConversationModel.for_rows]. exec. cbv beta iota.
    unfold Cql.participants_where. cbn [omap list_omap].
    unfold resolve at 1.
    destruct (conversation_participants (store w) !! c_conversation_id row)
      as [e|] eqn:Hlookup; cbv beta iota.
    + rewrite IH by calm_tac. cbn [store after]. rewrite after_after.
      by rewrite <- app_assoc.
    + rewrite IH by calm_tac. cbn [store after]. by rewrite after_after.
Qed.

Lemma get_user_conversations_run w user_id page limit :
  fault_free w →
  0 < page * limit →
  let fetched :=
    take (Z.to_nat (page * limit)) (Cql.summaries_where user_id (store w)) in
  let resolved := omap (resolve (store w)) fetched in
  ConversationModel.get_user_conversations user_id page limit w =
    (Return {| Page.total := Z.of_nat (length resolved);
               Page.page := page;
               Page.limit := limit;
               Page.data := window resolved ((page - 1) * limit) (page * limit) |},
     after (SELECT_conversations_by_user user_id (Some (page * limit))
              :: participants_lookups fetched) (store w) w).
Proof.
  intros Hfree Hpos fetched resolved.
  unfold ConversationModel.get_user_conversations.
  cbv zeta. exec. rewrite limited_pos by done. cbv beta iota. fold fetched.
  rewrite run_bind, conversation_for_rows
    by (apply fault_free_calm, fault_free_after, Hfree).
  cbn [store after app]. fold resolved. rewrite after_after. cbn [app].
  destruct (page_bounds _ _ Hpos) as [Hlo Hhi].
  rewrite slice_window by done.
  replace ((page - 1) * limit + limit) with (page * limit) by lia.
  reflexivity.
Qed.

Lemma get_conversation_run w conversation_id :
  calm 2 w →
  ConversationModel.get_conversation conversation_id w =
    match conversation_participants (store w) !! conversation_id with
    | None =>
        (Return None,
         after [SELECT_conversation_participants conversation_id] (store w) w)
    | Some e =>
        (Return (Some (conversation_view (participant_row conversation_id e)
                         (head (Cql.messages_where conversation_id None (store w))))),
         after [SELECT_conversation_participants conversation_id;
                SELECT_messages_by_conversation conversation_id None (Some 1)]
           (store w) w)
    end.
Proof.
  intros Hcalm. unfold ConversationModel.get_conversation.
  exec. cbv beta iota. unfold Cql.participants_where.
  destruct (conversation_participants (store w) !! conversation_id) as [e|]; [|done].
  exec. rewrite limited_pos by done. cbv beta iota.
  cbn [store after]. rewrite after_after. cbn [app].
  unfold conversation_view.
  by destruct (Cql.messages_where conversation_id None (store w)).
Qed.

(** ** [ConversationModel.create_or_get_conversation] *)

Lemma visited_all s rows min_user_id max_user_id :
  existing s rows min_user_id max_user_id = None →
  visited s rows min_user_id max_user_id = rows.
Proof.
  induction rows as [|row rows IH]; simpl; [done|]. intros H.
  destruct (conversation_participants s !! c_conversation_id row) as [e|];
    [destruct (ConversationModel.same_pair _ _ _); [done|]|]; by rewrite IH.
Qed.

Lemma for_conversations_run rows min_user_id max_user_id w :
  calm (length (visited (store w) rows min_user_id max_user_id)) w →
  ConversationModel.for_conversations rows min_user_id max_user_id w =
    (Return (existing (store w) rows min_user_id max_user_id),
     after (participants_lookups (visited (store w) rows min_user_id max_user_id))
       (store w) w).
Proof.
  revert w. induction rows as [|row rows IH]; intros w Hcalm.
  - cbn. by rewrite after_nil.
  - cbn [ConversationModel.for_conversations existing visited] in *.
    exec. cbv beta iota. unfold Cql.participants_where.
    destruct (conversation_participants (store w) !! c_conversation_id row)
      as [e|] eqn:Hlookup; cbv beta iota.
    + destruct (ConversationModel.same_pair _ _ _); [done|].
      rewrite IH by (cbn [store after]; calm_tac).
      cbn [store after]. by rewrite after_after.
    + rewrite IH by (cbn [store after]; calm_tac).
      cbn [store after]. by rewrite after_after.
Qed.

Lemma existing_Some s rows min_user_id max_user_id conversation_id :
  existing s rows min_user_id max_user_id = Some conversation_id →
  ∃ row e,
    row ∈ rows ∧ c_conversation_id row = conversation_id ∧
    conversation_participants s !! conversation_id = Some e ∧
    ConversationModel.same_pair (participant_row conversation_id e)
      min_user_id max_user_id = true.
Proof.
  induction rows as [|row rows IH]; simpl; [done|]. intros H.
  destruct (conversation_participants s !! c_conversation_id row) as [e|] eqn:Hl.
  - destruct (ConversationModel.same_pair _ _ _) eqn:Hp.
    + injection H as <-. exists row, e. split_and!; [left|done..].
    + destruct (IH H) as (row' & e' & ? & ? & ? & ?).
      exists row', e'. split_and!; [by right|done..].
  - destruct (IH H) as (row' & e' & ? & ? & ? & ?).
    exists row', e'. split_and!; [by right|done..].
Qed.

Lemma existing_None s rows min_user_id max_user_id row e :
  existing s rows min_user_id max_user_id = None →
  row ∈ rows →
  conversation_participants s !! c_conversation_id row = Some e →
  ConversationModel.same_pair (participant_row (c_conversation_id row) e)
    min_user_id max_user_id = false.
Proof.
  induction rows as [|row' rows IH]; cbn [existing]; intros H Hin Hl.
  - by apply elem_of_nil in Hin.
  - apply elem_of_cons in Hin as [->|Hin].
    + rewrite Hl in H. by destruct (ConversationModel.same_pair _ _ _).
    + apply IH; [|done..].
      destruct (conversation_participants s !! c_conversation_id row') as [e'|];
        [|done].
      by destruct (ConversationModel.same_pair
                     (participant_row (c_conversation_id row') e') _ _).
Qed.

Lemma existing_is_Some s rows min_user_id max_user_id row e :
  row ∈ rows →
  conversation_participants s !! c_conversation_id row = Some e →
  ConversationModel.same_pair (participant_row (c_conversation_id row) e)
    min_user_id max_user_id = true →
  is_Some (existing s rows min_user_id max_user_id).
Proof.
  intros Hin Hl Hp.
  destruct (existing s rows min_user_id max_user_id) eqn:H; [done|].
  by rewrite (existing_None _ _ _ _ _ _ H Hin Hl) in Hp.
Qed.

(** The run of [create_or_get_conversation] up to the end of its scan. *)
Lemma create_or_get_scan {B} w user1_id user2_id (k : option Z → M B) :
  calm (length (scan_reads user1_id user2_id (store w))) w →
  (conversations ← execute
     (SELECT_conversations_by_user (Z.min user1_id user2_id) None);
   found ← ConversationModel.for_conversations conversations
     (Z.min user1_id user2_id) (Z.max user1_id user2_id);
   k found) w =
  k (existing_conversation (store w) user1_id user2_id)
    (after (scan_reads user1_id user2_id (store w)) (store w) w).
Proof.
  intros Hcalm. unfold scan_reads in *. cbn [length] in Hcalm.
  exec. cbn [Cql.limited]. cbv beta iota.
  rewrite run_bind, for_conversations_run
    by (cbn [store after]; unfold participants_lookups in Hcalm;
        rewrite length_fmap in Hcalm; calm_tac).
  cbn [store after]. by rewrite after_after.
Qed.

Lemma create_or_get_found w user1_id user2_id conversation_id :
  fault_free w →
  existing_conversation (store w) user1_id user2_id = Some conversation_id →
  ∃ e,
    conversation_participants (store w) !! conversation_id = Some e ∧
    ConversationModel.same_pair (participant_row conversation_id e)
      (Z.min user1_id user2_id) (Z.max user1_id user2_id) = true ∧
    ConversationModel.create_or_get_conversation user1_id user2_id w =
      (Return (Some (conversation_view (participant_row conversation_id e)
                       (head (Cql.messages_where conversation_id None (store w))))),
       after (scan_reads user1_id user2_id (store w) ++
              [SELECT_conversation_participants conversation_id;
               SELECT_messages_by_conversation conversation_id None (Some 1)])
         (store w) w).
Proof.
  intros Hfree Hfound.
  destruct (existing_Some _ _ _ _ _ Hfound) as (row & e & _ & _ & Hlookup & Hpair).
  exists e. split_and!; [done..|].
  unfold ConversationModel.create_or_get_conversation. cbv zeta.
  rewrite create_or_get_scan by (by apply fault_free_calm).
  rewrite Hfound.
  rewrite get_conversation_run by (by apply fault_free_calm, fault_free_after).
  cbn [store after]. rewrite Hlookup. by rewrite after_after.
Qed.

Lemma create_or_get_created w user1_id user2_id :
  calm (length (scan_reads user1_id user2_id (store w)) + 3) w →
  existing_conversation (store w) user1_id user2_id = None →
  ConversationModel.create_or_get_conversation user1_id user2_id w =
    (Return (Some {| Conversation.id := new_conversation_id w;
                     Conversation.user1_id := Z.min user1_id user2_id;
                     Conversation.user2_id := Z.max user1_id user2_id;
                     Conversation.last_message_at := clock w 1%nat;
                     Conversation.last_message_content := None |}),
     after (scan_reads user1_id user2_id (store w) ++
            creation_writes user1_id user2_id w)
       (replay (creation_writes user1_id user2_id w) (store w))
       (tick (tick w))).
Proof.
  intros Hcalm Hnone.
  unfold ConversationModel.create_or_get_conversation. cbv zeta.
  rewrite create_or_get_scan by (eapply calm_le; [|done]; lia).
  rewrite Hnone. rewrite !bind_datetime_now, !tick_after.
  do 3 (rewrite bind_execute by calm_tac;
        cbn [Cql.run store after tick draw]; rewrite after_after, <- ?app_assoc;
        cbn [app]).
  reflexivity.
Qed.

(** ** The store after an insert *)

Lemma elem_of_upsert_new {K V} (cmp : K → K → comparison) k v (l : list (K * V)) :
  (k, v) ∈ Clustering.upsert cmp k v l.
Proof.
  induction l as [|x l IH]; simpl; [left|].
  destruct (cmp k x.1); [left|left|by right].
Qed.

Lemma elem_of_upsert_inv {K V} (cmp : K → K → comparison) k v (l : list (K * V)) x :
  x ∈ Clustering.upsert cmp k v l → x = (k, v) ∨ x ∈ l.
Proof.
  induction l as [|y l IH]; simpl.
  - intros ->%list_elem_of_singleton. by left.
  - destruct (cmp k y.1); rewrite !elem_of_cons.
    + intros [->|?]; auto.
    + intros [->|[->|?]]; auto.
    + intros [->|?]; [auto|]. destruct IH; auto.
Qed.

Lemma summaries_where_insert user_id r s :
  Cql.summaries_where user_id (Cql.insert_summary r s) =
    if decide (c_user_id r = user_id)
    then summary_row user_id <$>
           Clustering.upsert Clustering.summary
             (c_last_message_timestamp r, c_conversation_id r)
             (c_other_user_id r, c_last_message_content r)
             (conversations_by_user s !!! user_id)
    else Cql.summaries_where user_id s.
Proof.
  unfold Cql.summaries_where, Cql.insert_summary. cbn [conversations_by_user].
  rewrite lookup_total_insert. by case_decide; subst.
Qed.

Lemma summary_row_inserted r s :
  r ∈ Cql.summaries_where (c_user_id r) (Cql.insert_summary r s).
Proof.
  rewrite summaries_where_insert, decide_True by done.
  apply list_elem_of_fmap.
  exists ((c_last_message_timestamp r, c_conversation_id r),
          (c_other_user_id r, c_last_message_content r)).
  split; [by destruct r|apply elem_of_upsert_new].
Qed.

Lemma message_row_inserted r s :
  r ∈ Cql.messages_where (m_conversation_id r) None (Cql.insert_message r s).
Proof.
  unfold Cql.messages_where, Cql.insert_message. cbn [messages_by_conversation].
  rewrite lookup_total_insert_eq. apply list_elem_of_fmap.
  exists ((m_message_timestamp r, m_message_id r),
          (m_sender_id r, m_receiver_id r, m_content r)).
  split; [by destruct r|apply elem_of_upsert_new].
Qed.

Lemma summaries_where_insert_new r s :
  ∃ row, row ∈ Cql.summaries_where (c_user_id r) (Cql.insert_summary r s)
         ∧ c_conversation_id row = c_conversation_id r.
Proof.
  rewrite summaries_where_insert, decide_True by done.
  eexists. split; [apply list_elem_of_fmap_2, elem_of_upsert_new|done].
Qed.

Lemma summaries_where_insert_inv user_id r s row :
  row ∈ Cql.summaries_where user_id (Cql.insert_summary r s) →
  c_conversation_id row = c_conversation_id r ∨ row ∈ Cql.summaries_where user_id s.
Proof.
  rewrite summaries_where_insert. case_decide; [|by right].
  intros (x & -> & [->|Hin]%elem_of_upsert_inv)%list_elem_of_fmap; [by left|].
  right. by apply list_elem_of_fmap_2.
Qed.

Lemma summaries_where_insert_keeps user_id r s :
  (∃ row, row ∈ Cql.summaries_where user_id s
          ∧ c_conversation_id row = c_conversation_id r) →
  ∃ row, row ∈ Cql.summaries_where user_id (Cql.insert_summary r s)
         ∧ c_conversation_id row = c_conversation_id r.
Proof.
  intros (row & Hin & Hid). rewrite summaries_where_insert. case_decide as Hu.
  - eexists. split; [apply list_elem_of_fmap_2, elem_of_upsert_new|done].
  - eauto.
Qed.

(** ** Calling [create_or_get_conversation] again *)

Lemma same_pair_spec participant min_user_id max_user_id :
  ConversationModel.same_pair participant min_user_id max_user_id = true ↔
    (p_user1_id participant = min_user_id ∧ p_user2_id participant = max_user_id) ∨
    (p_user1_id participant = max_user_id ∧ p_user2_id participant = min_user_id).
Proof. unfold ConversationModel.same_pair. lia. Qed.

Lemma replay_creation_writes user1_id user2_id w s :
  let min_user_id := Z.min user1_id user2_id in
  let max_user_id := Z.max user1_id user2_id in
  replay (creation_writes user1_id user2_id w) s =
    Cql.insert_summary
      (ConversationModel.user2_params min_user_id max_user_id
         (new_conversation_id w) (clock w 1%nat))
      (Cql.insert_summary
         (ConversationModel.user1_params min_user_id max_user_id
            (new_conversation_id w) (clock w 1%nat))
         (Cql.insert_participants
            (ConversationModel.create_params min_user_id max_user_id
               (new_conversation_id w) (clock w 1%nat)) s)).
Proof. reflexivity. Qed.

Lemma creation_store user1_id user2_id w s :
  let min_user_id := Z.min user1_id user2_id in
  let max_user_id := Z.max user1_id user2_id in
  let s' := replay (creation_writes user1_id user2_id w) s in
  conversation_participants s' =
    <[new_conversation_id w := (min_user_id, max_user_id, clock w 1%nat)]>
      (conversation_participants s)
  ∧ messages_by_conversation s' = messages_by_conversation s
  ∧ (∃ row, row ∈ Cql.summaries_where min_user_id s'
            ∧ c_conversation_id row = new_conversation_id w)
  ∧ (∀ row, row ∈ Cql.summaries_where min_user_id s' →
            c_conversation_id row = new_conversation_id w
            ∨ row ∈ Cql.summaries_where min_user_id s).
Proof.
  intros min_user_id max_user_id s'. split_and!; [done..| |];
    subst s'; rewrite replay_creation_writes.
  - apply (summaries_where_insert_keeps min_user_id
             (ConversationModel.user2_params _ _ _ _)).
    exact (summaries_where_insert_new (ConversationModel.user1_params _ _ _ _) _).
  - intros row [?|[?|?]%summaries_where_insert_inv]%summaries_where_insert_inv; auto.
Qed.

Lemma create_or_get_again user1_id user2_id w s :
  existing_conversation s user1_id user2_id = None →
  existing_conversation (replay (creation_writes user1_id user2_id w) s)
    user1_id user2_id = Some (new_conversation_id w).
Proof.
  intros Hnone. unfold existing_conversation in *.
  destruct (creation_store user1_id user2_id w s) as (Hp & _ & (row & Hin & Hid) & Hold).
  set (s' := replay (creation_writes user1_id user2_id w) s) in *.
  set (min_user_id := Z.min user1_id user2_id) in *.
  set (max_user_id := Z.max user1_id user2_id) in *.
  assert (is_Some (existing s' (Cql.summaries_where min_user_id s')
                     min_user_id max_user_id)) as [c Hc].
  { apply (existing_is_Some _ _ _ _ row (min_user_id, max_user_id, clock w 1%nat));
      [done| |].
    - by rewrite Hp, Hid, lookup_insert_eq.
    - apply same_pair_spec. by left. }
  rewrite Hc. f_equal.
  destruct (existing_Some _ _ _ _ _ Hc) as (row' & e & Hin' & Hid' & Hl & Hpair).
  destruct (decide (c = new_conversation_id w)) as [|Hne]; [done|].
  exfalso. destruct (Hold row' Hin') as [?|Hin0]; [congruence|].
  rewrite Hp, lookup_insert_ne in Hl by done. rewrite <- Hid' in Hl, Hpair.
  by rewrite (existing_None _ _ _ _ _ _ Hnone Hin0 Hl) in Hpair.
Qed.

Lemma scan_reads_read_only user1_id user2_id s :
  Forall (λ q, is_write q = false) (scan_reads user1_id user2_id s).
Proof.
  unfold scan_reads, participants_lookups. constructor; [done|].
  apply Forall_fmap, Forall_forall. done.
Qed.

Lemma filter_writes_of_reads qs :
  Forall (λ q, is_write q = false) qs → filter (λ q, is_write q = true) qs = [].
Proof.
  induction 1 as [|q qs Hq _ IH]; [done|].
  rewrite filter_cons, decide_False by congruence. done.
Qed.

Lemma found_writes_nothing user1_id user2_id conversation_id s w :
  filter (λ q, is_write q = true)
    (journal (after (scan_reads user1_id user2_id s ++
                     [SELECT_conversation_participants conversation_id;
                      SELECT_messages_by_conversation conversation_id None (Some 1)])
                s w)) =
  filter (λ q, is_write q = true) (journal w).
Proof.
  cbn [journal after]. rewrite filter_app.
  rewrite (filter_writes_of_reads (scan_reads _ _ _ ++ _)), app_nil_r; [done|].
  apply Forall_app. split; [apply scan_reads_read_only|by repeat constructor].
Qed.

(** Two calls in a row for the same pair: the second finds the conversation of
    the first and writes nothing. *)
Lemma create_or_get_twice w user1_id user2_id :
  fault_free w →
  ∃ c1 w1 c2 w2 e,
    ConversationModel.create_or_get_conversation user1_id user2_id w =
      (Return (Some c1), w1)
    ∧ ConversationModel.create_or_get_conversation user1_id user2_id w1 =
        (Return (Some c2), w2)
    ∧ Conversation.id c2 = Conversation.id c1
    ∧ store w2 = store w1
    ∧ filter (λ q, is_write q = true) (journal w2) =
        filter (λ q, is_write q = true) (journal w1)
    ∧ conversation_participants (store w2) !! Conversation.id c1 = Some e
    ∧ ConversationModel.same_pair (participant_row (Conversation.id c1) e)
        (Z.min user1_id user2_id) (Z.max user1_id user2_id) = true
    ∧ (conversation_participants (store w) !! Conversation.id c1 = Some e
       ∨ e.1.1 = Z.min user1_id user2_id ∧ e.1.2 = Z.max user1_id user2_id).
Proof.
  intros Hfree.
  destruct (existing_conversation (store w) user1_id user2_id) as [c|] eqn:Hex.
  - destruct (create_or_get_found _ _ _ _ Hfree Hex) as (e & Hl & Hpair & Hrun).
    eexists _, _. rewrite Hrun.
    assert (fault_free (after (scan_reads user1_id user2_id (store w) ++
              [SELECT_conversation_participants c;
               SELECT_messages_by_conversation c None (Some 1)]) (store w) w))
      as Hfree' by (by apply fault_free_after).
    destruct (create_or_get_found _ user1_id user2_id c Hfree')
      as (e' & Hl' & Hpair' & Hrun'); [done|].
    cbn [store after] in Hl', Hrun'. rewrite Hl in Hl'. injection Hl' as <-.
    eexists _, _, e. rewrite Hrun'. cbn [store after].
    split_and!; try done; [by apply found_writes_nothing|by left].
  - rewrite (create_or_get_created _ _ _ (fault_free_calm _ _ Hfree) Hex).
    eexists _, _.
    set (w1 := after _ _ _).
    assert (fault_free w1) as Hfree' by (by apply fault_free_after).
    pose proof (create_or_get_again user1_id user2_id w (store w) Hex) as Hagain.
    destruct (create_or_get_found w1 user1_id user2_id (new_conversation_id w) Hfree')
      as (e' & Hl' & Hpair' & Hrun'); [done|].
    destruct (creation_store user1_id user2_id w (store w)) as (Hp & _).
    cbn [store after w1] in Hl'. rewrite Hp, lookup_insert_eq in Hl'.
    injection Hl' as <-.
    eexists _, _, _. rewrite Hrun'. cbn [store after w1 Conversation.id].
    split_and!; try done.
    + by apply found_writes_nothing.
    + unfold w1. cbn [store after Conversation.id]. by rewrite Hp, lookup_insert_eq.
    + by right.
Qed.

(** ** Invariants of the store *)

Lemma keeps_ret P {A} (a : A) : keeps P (mret a : M A).
Proof. by intros w. Qed.

Lemma keeps_bind P {A B} (m : M A) (f : A → M B) :
  keeps P m → (∀ a, keeps P (f a)) → keeps P (m ≫= f).
Proof.
  intros Hm Hf w Hw. rewrite run_bind. specialize (Hm w Hw).
  destruct (m w) as [[a|e] w']; [by apply Hf|done].
Qed.

Lemma keeps_uuid4 P : keeps P uuid4.
Proof. by intros w. Qed.

Lemma keeps_datetime_now P : keeps P datetime_now.
Proof. by intros w. Qed.

Lemma keeps_execute (P : Store → Prop) q :
  (∀ s result s', P s → Cql.run q s = inr (result, s') → P s') →
  keeps P (execute q).
Proof.
  intros Hq w Hw. unfold execute.
  destruct (head (faults w)) as [[e|]|]; [done|..];
    (destruct (Cql.run q (store w)) as [e|[result s']] eqn:Hrun; [done|];
     by apply (Hq _ _ _ Hw Hrun)).
Qed.

Lemma run_read_only q s result s' :
  is_write q = false → Cql.run q s = inr (result, s') → s' = s.
Proof.
  destruct q as [| | |cid before limit| |uid limit|]; try done; cbn [Cql.run].
  - destruct (Cql.limited _ _); naive_solver.
  - naive_solver.
  - destruct (Cql.limited _ _); naive_solver.
  - naive_solver.
Qed.

Lemma keeps_read P q : is_write q = false → keeps P (execute q).
Proof.
  intros Hq. apply keeps_execute. intros s result s' Hs Hrun.
  by rewrite (run_read_only _ _ _ _ Hq Hrun).
Qed.

(** *** Clustering order *)

Lemma message_Lt a b :
  Clustering.message a b = Lt ↔ b.1 < a.1 ∨ (a.1 = b.1 ∧ (a.2 < b.2)%N).
Proof.
  unfold Clustering.message.
  destruct (Z.compare_spec b.1 a.1); destruct (N.compare_spec a.2 b.2);
    split; try done; try lia.
Qed.

Lemma summary_Lt a b :
  Clustering.summary a b = Lt ↔ b.1 < a.1 ∨ (a.1 = b.1 ∧ a.2 < b.2).
Proof.
  unfold Clustering.summary.
  destruct (Z.compare_spec b.1 a.1); destruct (Z.compare_spec a.2 b.2);
    split; try done; try lia.
Qed.

#[global] Instance message_order : ClusteringOrder Clustering.message.
Proof.
  split.
  - intros a b c. rewrite !message_Lt. lia.
  - intros a b H. apply message_Lt. revert H. unfold Clustering.message.
    destruct (Z.compare_spec b.1 a.1); destruct (N.compare_spec a.2 b.2);
      try done; lia.
  - intros [a1 a2] [b1 b2]. unfold Clustering.message. cbn [fst snd].
    destruct (Z.compare_spec b1 a1); destruct (N.compare_spec a2 b2);
      try done; intros _; by subst.
Qed.

#[global] Instance summary_order : ClusteringOrder Clustering.summary.
Proof.
  split.
  - intros a b c. rewrite !summary_Lt. lia.
  - intros a b H. apply summary_Lt. revert H. unfold Clustering.summary.
    destruct (Z.compare_spec b.1 a.1); destruct (Z.compare_spec a.2 b.2);
      try done; lia.
  - intros [a1 a2] [b1 b2]. unfold Clustering.summary. cbn [fst snd].
    destruct (Z.compare_spec b1 a1); destruct (Z.compare_spec a2 b2);
      try done; intros _; by subst.
Qed.

Lemma upsert_in_order {K V} (cmp : K → K → comparison) `{!ClusteringOrder cmp}
    k v (l : list (K * V)) :
  in_order cmp l → in_order cmp (Clustering.upsert cmp k v l).
Proof.
  unfold in_order. induction l as [|x l IH]; intros Hl; simpl.
  - repeat constructor.
  - apply StronglySorted_cons in Hl as [Hx Hl].
    destruct (cmp k x.1) eqn:Hk.
    + apply cmp_eq in Hk as ->. by constructor.
    + constructor; [by constructor|]. constructor; [done|].
      eapply Forall_impl; [exact Hx|]. intros y Hy. cbn [fst].
      by apply (cmp_trans _ x.1).
    + constructor; [by apply IH|].
      apply Forall_forall. intros y [->|Hy]%elem_of_upsert_inv.
      * by apply cmp_flip.
      * by apply (proj1 (Forall_forall _ _) Hx).
Qed.

Lemma well_formed_empty : well_formed empty_store.
Proof.
  split; [|split].
  - intros c e. cbn [empty_store conversation_participants]. by rewrite lookup_empty.
  - intros c. cbn [empty_store messages_by_conversation].
    rewrite lookup_total_empty. constructor.
  - intros u. cbn [empty_store conversations_by_user].
    rewrite lookup_total_empty. constructor.
Qed.

Lemma well_formed_write q :
  match q with
  | INSERT_conversation_participants r => p_user1_id r ≤ p_user2_id r
  | _ => True
  end →
  keeps well_formed (execute q).
Proof.
  intros Hq. apply keeps_execute. intros s result s' Hs Hrun.
  destruct (is_write q) eqn:Hw; [|by rewrite (run_read_only _ _ _ _ Hw Hrun)].
  destruct Hs as (Hcan & Hmsg & Hsum).
  destruct q as [r|r|r| | | |]; try done; cbn [Cql.run] in Hrun;
    injection Hrun as _ <-; (split; [|split]); try done.
  - intros c. cbn [Cql.insert_message messages_by_conversation].
    rewrite lookup_total_insert. case_decide; [subst|done].
    apply (upsert_in_order _), Hmsg.
  - intros u. cbn [Cql.insert_summary conversations_by_user].
    rewrite lookup_total_insert. case_decide; [subst|done].
    apply (upsert_in_order _), Hsum.
  - intros c e. cbn [Cql.insert_participants conversation_participants].
    rewrite lookup_insert. case_decide; [|by apply Hcan].
    by intros [= <-].
Qed.

Ltac keeps_tac :=
  repeat first
    [ progress cbv zeta
    | apply keeps_ret
    | apply keeps_uuid4
    | apply keeps_datetime_now
    | match goal with
      | |- keeps ?P (execute ?q) => exact (keeps_read P q eq_refl)
      | |- keeps well_formed (execute ?q) =>
          refine (well_formed_write q _); first [exact I | cbn; lia]
      end
    | apply keeps_bind; [|intros ?] ].

Lemma well_formed_create_message sender_id receiver_id content conversation_id :
  keeps well_formed
    (MessageModel.create_message sender_id receiver_id content conversation_id).
Proof. unfold MessageModel.create_message. keeps_tac. Qed.

Lemma well_formed_get_conversation_messages conversation_id page limit :
  keeps well_formed (MessageModel.get_conversation_messages conversation_id page limit).
Proof. unfold MessageModel.get_conversation_messages. keeps_tac. Qed.

Lemma well_formed_get_messages_before_timestamp conversation_id before page limit :
  keeps well_formed
    (MessageModel.get_messages_before_timestamp conversation_id before page limit).
Proof. unfold MessageModel.get_messages_before_timestamp. keeps_tac. Qed.

Lemma well_formed_for_rows rows conversations :
  keeps well_formed (ConversationModel.for_rows rows conversations).
Proof.
  revert conversations. induction rows as [|row rows IH]; intros conversations;
    cbn [ConversationModel.for_rows]; keeps_tac.
  destruct a; apply IH.
Qed.

Lemma well_formed_get_user_conversations user_id page limit :
  keeps well_formed (ConversationModel.get_user_conversations user_id page limit).
Proof.
  unfold ConversationModel.get_user_conversations. keeps_tac.
  apply well_formed_for_rows.
Qed.

Lemma well_formed_get_conversation conversation_id :
  keeps well_formed (ConversationModel.get_conversation conversation_id).
Proof.
  unfold ConversationModel.get_conversation. keeps_tac.
  destruct a; keeps_tac.
Qed.

Lemma well_formed_for_conversations rows min_user_id max_user_id :
  keeps well_formed
    (ConversationModel.for_conversations rows min_user_id max_user_id).
Proof.
  induction rows as [|row rows IH];
    cbn [ConversationModel.for_conversations]; keeps_tac.
  destruct a as [|participant ?];
    [|destruct (ConversationModel.same_pair participant _ _)];
    keeps_tac; apply IH.
Qed.

Lemma well_formed_create_or_get_conversation user1_id user2_id :
  keeps well_formed
    (ConversationModel.create_or_get_conversation user1_id user2_id).
Proof.
  unfold ConversationModel.create_or_get_conversation.
  cbv zeta. keeps_tac; [apply well_formed_for_conversations|].
  destruct a0; [apply well_formed_get_conversation|]. keeps_tac.
Qed.

(** ** The worlds the repositories reach *)

Lemma reachable_well_formed w : reachable w → well_formed (store w).
Proof.
  induction 1 as [|c w _ IH]; [apply well_formed_empty|].
  destruct c; cbn [perform].
  - by apply well_formed_create_message.
  - by apply well_formed_get_conversation_messages.
  - by apply well_formed_get_messages_before_timestamp.
  - by apply well_formed_get_user_conversations.
  - by apply well_formed_get_conversation.
  - by apply well_formed_create_or_get_conversation.
Qed.

(** A failure of the [k]-th write of a creation reaches the caller, and the
    world keeps the writes before it. *)
Lemma create_or_get_fault w user1_id user2_id k e rest :
  existing_conversation (store w) user1_id user2_id = None →
  (k < 3)%nat →
  faults w =
    replicate (length (scan_reads user1_id user2_id (store w)) + k) None
      ++ Some e :: rest →
  let writes := take k (creation_writes user1_id user2_id w) in
  ConversationModel.create_or_get_conversation user1_id user2_id w =
    (Raise e,
     failed e
       (after (scan_reads user1_id user2_id (store w) ++ writes)
          (replay writes (store w)) (tick (tick w)))).
Proof.
  intros Hnone Hk Hfaults writes.
  pose proof (calm_replicate _ _ _ _ Hfaults) as Hcalm.
  unfold ConversationModel.create_or_get_conversation. cbv zeta.
  rewrite create_or_get_scan by (eapply calm_le; [|done]; lia).
  rewrite Hnone. rewrite !bind_datetime_now, !tick_after.
  assert (∀ qs s, length qs = k →
            head (faults (after (scan_reads user1_id user2_id (store w) ++ qs) s
                            (tick (tick w)))) = Some (Some e)) as Hhead.
  { intros qs s Hlen. cbn [faults after tick]. rewrite Hfaults, length_app, Hlen.
    rewrite drop_app_length' by (by rewrite length_replicate). done. }
  destruct k as [|[|[|k]]]; [| | |lia].
  - rewrite (bind_execute_fault _ _ _ e)
      by (rewrite <- (app_nil_r (scan_reads _ _ _)); by apply Hhead).
    subst writes. cbn [take replay foldl]. by rewrite app_nil_r.
  - rewrite bind_execute by calm_tac.
    cbn [Cql.run store after tick draw]. rewrite after_after.
    rewrite (bind_execute_fault _ _ _ e) by (by apply Hhead).
    reflexivity.
  - do 2 (rewrite bind_execute by calm_tac;
          cbn [Cql.run store after tick draw]; rewrite after_after, <- ?app_assoc;
          cbn [app]).
    rewrite (bind_execute_fault _ _ _ e) by (by apply Hhead).
    reflexivity.
Qed.

(** * The properties of the specification *)

Lemma calm_nil n w : faults w = [] → calm n w.
Proof. intros H. by apply fault_free_nil. Qed.

(** C9. A call [create_message(sender_id, receiver_id, content,
    conversation_id)] during which no query fails executes exactly three
    statements, all inserts: one row into messages_by_conversation, one row
    into conversations_by_user keyed by the sender with the receiver as
    other user, and one keyed by the receiver with the sender as other user,
    both with the timestamp and the content of the message. It returns the
    uuid just drawn (as a string), the given conversation id, sender,
    receiver and content, and the timestamp just read. *)
Theorem create_message_writes_three_rows
    w sender_id receiver_id content conversation_id :
  calm 3 w →
  let message_id := uuids w O in
  let message_timestamp := clock w O in
  let message :=
    {| m_conversation_id := conversation_id;
       m_message_timestamp := message_timestamp;
       m_message_id := message_id;
       m_sender_id := sender_id;
       m_receiver_id := receiver_id;
       m_content := content |} in
  let of_sender :=
    {| c_user_id := sender_id;
       c_last_message_timestamp := message_timestamp;
       c_conversation_id := conversation_id;
       c_other_user_id := receiver_id;
       c_last_message_content := Some content |} in
  let of_receiver :=
    {| c_user_id := receiver_id;
       c_last_message_timestamp := message_timestamp;
       c_conversation_id := conversation_id;
       c_other_user_id := sender_id;
       c_last_message_content := Some content |} in
  ∃ w',
    MessageModel.create_message sender_id receiver_id content conversation_id w =
      (Return {| Message.id := Py.str_uuid message_id;
                 Message.conversation_id := conversation_id;
                 Message.sender_id := sender_id;
                 Message.receiver_id := receiver_id;
                 Message.content := content;
                 Message.created_at := message_timestamp |}, w')
    ∧ journal w' =
        journal w ++
        [INSERT_messages_by_conversation message;
         INSERT_conversations_by_user of_sender;
         INSERT_conversations_by_user of_receiver]
    ∧ store w' =
        Cql.insert_summary of_receiver
          (Cql.insert_summary of_sender (Cql.insert_message message (store w)))
    ∧ message ∈ Cql.messages_where conversation_id None (store w')
    ∧ of_sender ∈ Cql.summaries_where sender_id (store w')
    ∧ of_receiver ∈ Cql.summaries_where receiver_id (store w').
Proof.
  intros Hcalm message_id message_timestamp message of_sender of_receiver.
  rewrite create_message_run by done.
  eexists. split; [reflexivity|]. cbn [journal store after].
  split; [done|]. split; [done|].
  change (replay _ (store w)) with
    (Cql.insert_summary of_receiver
       (Cql.insert_summary of_sender (Cql.insert_message message (store w)))).
  split_and!.
  - exact (message_row_inserted message (store w)).
  - destruct (decide (receiver_id = sender_id)) as [Heq|Hne].
    + subst receiver_id. exact (summary_row_inserted of_sender _).
    + rewrite summaries_where_insert, decide_False by done.
      exact (summary_row_inserted of_sender _).
  - exact (summary_row_inserted of_receiver _).
Qed.

Lemma create_message_writes_three_rows_witness :
  calm 3 Example.opened
  ∧ ∃ w',
      MessageModel.create_message 5 9 "hi" 1700000000 Example.opened =
        (Return {| Message.id := "00000000-0000-0000-0000-0000000003e8";
                   Message.conversation_id := 1700000000;
                   Message.sender_id := 5;
                   Message.receiver_id := 9;
                   Message.content := "hi";
                   Message.created_at := 1700000003000000 |}, w')
      ∧ length (journal w') = (length (journal Example.opened) + 3)%nat.
Proof.
  assert (calm 3 Example.opened) as Hcalm by (by apply calm_nil).
  split; [done|].
  destruct (create_message_writes_three_rows Example.opened 5 9 "hi" 1700000000 Hcalm)
    as (w' & Hrun & Hjournal & _).
  exists w'. split; [exact Hrun|]. rewrite Hjournal, length_app. reflexivity.
Defined.

(** C7. Neither [create_message] nor [create_or_get_conversation] catches a
    failure of a query. When the write number [k] (counted from 0) of
    [create_message], or of the creation in [create_or_get_conversation],
    raises [e], the call raises that same [e]; the store is the one left by
    the [k] writes before it, replayed in order on the store of the call,
    and the journal holds those [k] writes and no other: nothing is undone.
    The error was passed once to the log. (A creation comes after the reads
    of the scan: one of the summary rows of the smaller id, and one of the
    participants of each of these rows.) *)
Theorem write_failure_keeps_earlier_writes
    w k e rest sender_id receiver_id content conversation_id user1_id user2_id :
  (k < 3)%nat →
  (faults w = replicate k None ++ Some e :: rest →
   let writes :=
     take k (create_message_writes sender_id receiver_id content conversation_id w) in
   ∃ w',
     MessageModel.create_message sender_id receiver_id content conversation_id w =
       (Raise e, w')
     ∧ store w' = replay writes (store w)
     ∧ journal w' = journal w ++ writes
     ∧ logged w' = logged w ++ [e])
  ∧ (existing_conversation (store w) user1_id user2_id = None →
     let reads :=
       S (length (Cql.summaries_where (Z.min user1_id user2_id) (store w))) in
     faults w = replicate (reads + k) None ++ Some e :: rest →
     let writes := take k (creation_writes user1_id user2_id w) in
     ∃ w',
       ConversationModel.create_or_get_conversation user1_id user2_id w =
         (Raise e, w')
       ∧ store w' = replay writes (store w)
       ∧ filter (λ q, is_write q = true) (journal w') =
           filter (λ q, is_write q = true) (journal w) ++ writes
       ∧ logged w' = logged w ++ [e]).
Proof.
  intros Hk. split.
  - intros Hfaults writes. eexists.
    split; [by apply (create_message_fault _ _ _ _ _ k e rest)|done].
  - intros Hnone reads Hfaults writes.
    assert (length (scan_reads user1_id user2_id (store w)) = reads) as Hreads.
    { unfold scan_reads, participants_lookups.
      rewrite (visited_all _ _ _ _ Hnone). cbn [length]. by rewrite length_fmap. }
    rewrite <- Hreads in Hfaults. eexists.
    split; [by apply (create_or_get_fault _ _ _ k e rest)|].
    cbn [store journal logged failed after]. split_and!; try done.
    rewrite !filter_app.
    rewrite (filter_writes_of_reads (scan_reads _ _ _))
      by apply scan_reads_read_only.
    cbn [app]. f_equal. subst writes. unfold creation_writes.
    destruct k as [|[|[|k]]]; [reflexivity..|lia].
Qed.

Lemma write_failure_keeps_earlier_writes_witness :
  ∃ w1 w2,
    MessageModel.create_message 5 9 "hi" 1700000000 (Example.failing 1) =
      (Raise (DriverError 7), w1)
    ∧ Cql.messages_where 1700000000 None (store w1) =
        [{| m_conversation_id := 1700000000;
            m_message_timestamp := 1700000000000000;
            m_message_id := 1000;
            m_sender_id := 5;
            m_receiver_id := 9;
            m_content := "hi" |}]
    ∧ Cql.summaries_where 5 (store w1) = []
    ∧ ConversationModel.create_or_get_conversation 5 9 (Example.failing 2) =
        (Raise (DriverError 7), w2)
    ∧ Cql.participants_where 1700000000 (store w2) =
        [{| p_conversation_id := 1700000000;
            p_user1_id := 5;
            p_user2_id := 9;
            p_created_at := 1700000001500000 |}]
    ∧ Cql.summaries_where 5 (store w2) = [] ∧ Cql.summaries_where 9 (store w2) = [].
Proof.
  destruct (write_failure_keeps_earlier_writes (Example.failing 1) 1
              (DriverError 7) [] 5 9 "hi" 1700000000 5 9) as [Hmessage _]; [lia|].
  destruct (write_failure_keeps_earlier_writes (Example.failing 2) 1
              (DriverError 7) [] 5 9 "hi" 1700000000 5 9) as [_ Hcreate]; [lia|].
  destruct (Hmessage eq_refl) as (w1 & Hrun1 & Hstore1 & _).
  destruct (Hcreate eq_refl eq_refl) as (w2 & Hrun2 & Hstore2 & _).
  exists w1, w2. rewrite Hstore1, Hstore2. split_and!; done.
Defined.

(** ** Paged reads *)

Lemma StronglySorted_take {A} (R : relation A) n l :
  StronglySorted R l → StronglySorted R (take n l).
Proof. rewrite <- (take_drop n l) at 1. apply StronglySorted_app_1_l. Qed.

Lemma StronglySorted_drop {A} (R : relation A) n l :
  StronglySorted R l → StronglySorted R (drop n l).
Proof. rewrite <- (take_drop n l) at 1. apply StronglySorted_app_1_r. Qed.

Lemma StronglySorted_window {A} (R : relation A) l lo hi :
  StronglySorted R l → StronglySorted R (window l lo hi).
Proof. intros H. by apply StronglySorted_take, StronglySorted_drop. Qed.

(** In a well-formed store a partition is read newest first. *)
Lemma messages_where_newest_first s conversation_id :
  clustered s →
  StronglySorted newest_first (Cql.messages_where conversation_id None s).
Proof.
  intros [Hmsg _]. unfold Cql.messages_where.
  eapply StronglySorted_fmap; [|apply Hmsg].
  intros x y H. by apply message_Lt in H.
Qed.






(** C6. With no query failing and a positive fetch limit,
    [get_user_conversations] reads at most [page * limit] summary rows of
    the user; a summary row is kept exactly when the participants of its
    conversation are stored, and then gives one entry, so the entries are as
    many as the fetched rows with participants; the total is the number of
    those entries, at most [page * limit]; the data are the entries at
    offsets [(page-1)*limit <= i < page*limit]. *)
Theorem get_user_conversations_resolved w user_id page limit :
  fault_free w →
  0 < page * limit →
  let fetched :=
    take (Z.to_nat (page * limit)) (Cql.summaries_where user_id (store w)) in
  let resolved := omap (resolve (store w)) fetched in
  ∃ r w',
    ConversationModel.get_user_conversations user_id page limit w = (Return r, w')
    ∧ store w' = store w
    ∧ Z.of_nat (length fetched) ≤ page * limit
    ∧ (∀ c, c ∈ resolved ↔
            ∃ row e,
              row ∈ fetched
              ∧ conversation_participants (store w) !! c_conversation_id row = Some e
              ∧ c = {| Conversation.id := c_conversation_id row;
                       Conversation.user1_id := e.1.1;
                       Conversation.user2_id := e.1.2;
                       Conversation.last_message_at := c_last_message_timestamp row;
                       Conversation.last_message_content :=
                         c_last_message_content row |})
    ∧ length resolved =
        length (filter (λ row, is_Some (conversation_participants (store w)
                                          !! c_conversation_id row)) fetched)
    ∧ Page.total r = Z.of_nat (length resolved)
    ∧ Page.total r ≤ page * limit
    ∧ Page.data r = window resolved ((page - 1) * limit) (page * limit).
Proof.
  intros Hfree Hpos fetched resolved.
  rewrite get_user_conversations_run by done.
  eexists _, _. split; [reflexivity|]. cbn [Page.data Page.total store after].
  fold fetched. fold resolved.
  assert (Z.of_nat (length fetched) ≤ page * limit) as Hfetched
    by (unfold fetched; rewrite length_take; lia).
  assert (length resolved =
            length (filter (λ row, is_Some (conversation_participants (store w)
                                              !! c_conversation_id row)) fetched))
    as Hcount.
  { unfold resolved. generalize fetched. intros l.
    induction l as [|row l IH]; [done|].
    rewrite filter_cons. cbn [omap list_omap]. unfold resolve at 1.
    destruct (conversation_participants (store w) !! c_conversation_id row) as [e|].
    - rewrite decide_True by done. cbn [length]. by f_equal.
    - rewrite decide_False by (by intros [? ?]). done. }
  split_and!; try done.
  - intros c. unfold resolved. rewrite list_elem_of_omap. split.
    + intros (row & Hin & Hres). unfold resolve in Hres.
      destruct (conversation_participants (store w) !! c_conversation_id row)
        as [e|] eqn:Hl; [|done].
      injection Hres as <-. by exists row, e.
    + intros (row & e & Hin & Hl & ->). exists row. split; [done|].
      unfold resolve. by rewrite Hl.
  - rewrite Hcount. pose proof (length_filter
      (λ row, is_Some (conversation_participants (store w) !! c_conversation_id row))
      fetched). lia.
Qed.

Lemma get_user_conversations_resolved_witness :
  fault_free Example.chatted
  ∧ ∃ r w',
      ConversationModel.get_user_conversations 5 1 2 Example.chatted = (Return r, w')
      ∧ Conversation.last_message_content <$> Page.data r = [Some "yo"; Some "hi"]
      ∧ Page.total r = 2.
Proof.
  assert (fault_free Example.chatted) as Hfree by (by apply fault_free_nil).
  split; [done|].
  destruct (get_user_conversations_resolved Example.chatted 5 1 2 Hfree eq_refl)
    as (r & w' & Hrun & _ & _ & _ & _ & Htotal & _ & Hdata).
  exists r, w'. split; [exact Hrun|]. by rewrite Hdata, Htotal.
Defined.

(** C8. [get_conversation], with no query failing: without a participants
    row for the id it returns [None] and does not raise; with a participants
    row and no message in the conversation, [last_message_at] is the
    [created_at] of the row and [last_message_content] is null; with
    messages, both come from the first message of the partition in
    clustering order, which in a partition kept in that order is a message
    of the latest timestamp. *)
Theorem get_conversation_cases w conversation_id :
  calm 2 w →
  (conversation_participants (store w) !! conversation_id = None →
   ∃ w', ConversationModel.get_conversation conversation_id w = (Return None, w'))
  ∧ (∀ e,
       conversation_participants (store w) !! conversation_id = Some e →
       Cql.messages_where conversation_id None (store w) = [] →
       ∃ c w',
         ConversationModel.get_conversation conversation_id w = (Return (Some c), w')
         ∧ Conversation.id c = conversation_id
         ∧ Conversation.user1_id c = e.1.1
         ∧ Conversation.user2_id c = e.1.2
         ∧ Conversation.last_message_at c = e.2
         ∧ Conversation.last_message_content c = None)
  ∧ (∀ e newest older,
       conversation_participants (store w) !! conversation_id = Some e →
       Cql.messages_where conversation_id None (store w) = newest :: older →
       ∃ c w',
         ConversationModel.get_conversation conversation_id w = (Return (Some c), w')
         ∧ Conversation.id c = conversation_id
         ∧ Conversation.user1_id c = e.1.1
         ∧ Conversation.user2_id c = e.1.2
         ∧ Conversation.last_message_at c = m_message_timestamp newest
         ∧ Conversation.last_message_content c = Some (m_content newest)
         ∧ (clustered (store w) →
            Forall (λ m, m_message_timestamp m ≤ m_message_timestamp newest) older)).
Proof.
  intros Hcalm. split_and!.
  - intros Hnone. rewrite get_conversation_run, Hnone by done. eauto.
  - intros e Hsome Hempty. rewrite get_conversation_run, Hsome, Hempty by done.
    eexists _, _. split; [reflexivity|]. done.
  - intros e newest older Hsome Hrows.
    rewrite get_conversation_run, Hsome, Hrows by done.
    eexists _, _. split; [reflexivity|]. split_and!; try done.
    intros Hclustered.
    pose proof (messages_where_newest_first _ conversation_id Hclustered) as Hsorted.
    rewrite Hrows in Hsorted. apply StronglySorted_cons in Hsorted as [Hall _].
    eapply Forall_impl; [exact Hall|]. intros m [?|[? _]]; lia.
Qed.

Lemma get_conversation_cases_witness :
  calm 2 Example.chatted
  ∧ (∃ w', ConversationModel.get_conversation 999 Example.chatted = (Return None, w'))
  ∧ (∃ c w',
       ConversationModel.get_conversation 1700000000 Example.opened =
         (Return (Some c), w')
       ∧ Conversation.last_message_at c = 1700000001500000
       ∧ Conversation.last_message_content c = None)
  ∧ (∃ c w',
       ConversationModel.get_conversation 1700000000 Example.chatted =
         (Return (Some c), w')
       ∧ Conversation.last_message_at c = 1700000004500000
       ∧ Conversation.last_message_content c = Some "yo").
Proof.
  assert (calm 2 Example.chatted) as Hchatted by (by apply calm_nil).
  assert (calm 2 Example.opened) as Hopened by (by apply calm_nil).
  split; [done|]. split_and!.
  - destruct (get_conversation_cases Example.chatted 999 Hchatted) as (H & _ & _).
    exact (H eq_refl).
  - destruct (get_conversation_cases Example.opened 1700000000 Hopened)
      as (_ & H & _).
    destruct (H (5, 9, 1700000001500000) eq_refl eq_refl)
      as (c & w' & Hrun & _ & _ & _ & Hat & Hcontent).
    by exists c, w'.
  - destruct (get_conversation_cases Example.chatted 1700000000 Hchatted)
      as (_ & _ & H).
    destruct (H (5, 9, 1700000001500000) _ _ eq_refl eq_refl)
      as (c & w' & Hrun & _ & _ & _ & Hat & Hcontent & _).
    by exists c, w'.
Defined.

(** ** Creation of a conversation *)

(** C3, as stated, fails: the two summary rows written at the creation of
    the conversation of users 5 and 9 in empty tables have a null
    [last_message_content], but their [last_message_timestamp] is the
    creation time, not null. *)
Lemma creation_summary_timestamp_not_null :
  existing_conversation (store Example.fresh) 5 9 = None
  ∧ ∃ c w' of_user1 of_user2,
      ConversationModel.create_or_get_conversation 5 9 Example.fresh =
        (Return (Some c), w')
      ∧ filter (λ q, is_write q = true) (journal w') =
          [INSERT_conversation_participants
             {| p_conversation_id := 1700000000;
                p_user1_id := 5;
                p_user2_id := 9;
                p_created_at := 1700000001500000 |};
           INSERT_conversations_by_user of_user1;
           INSERT_conversations_by_user of_user2]
      ∧ summary_dict of_user1 !! "last_message_timestamp" =
          Some (Timestamp 1700000001500000)
      ∧ summary_dict of_user2 !! "last_message_timestamp" =
          Some (Timestamp 1700000001500000)
      ∧ ¬ last_message_fields_null of_user1
      ∧ ¬ last_message_fields_null of_user2.
Proof.
  split; [reflexivity|].
  assert (calm (length (scan_reads 5 9 (store Example.fresh)) + 3) Example.fresh)
    as Hcalm by (by apply calm_nil).
  rewrite (create_or_get_created Example.fresh 5 9 Hcalm eq_refl).
  eexists _, _,
    {| c_user_id := 5;
       c_last_message_timestamp := 1700000001500000;
       c_conversation_id := 1700000000;
       c_other_user_id := 9;
       c_last_message_content := None |},
    {| c_user_id := 9;
       c_last_message_timestamp := 1700000001500000;
       c_conversation_id := 1700000000;
       c_other_user_id := 5;
       c_last_message_content := None |}.
  split; [reflexivity|]. cbn [journal after].
  split; [vm_compute; reflexivity|].
  split; [vm_compute; reflexivity|]. split; [vm_compute; reflexivity|].
  split; intros [H _]; vm_compute in H; discriminate H.
Qed.

(** C3, amended. When [create_or_get_conversation] finds no conversation for
    the pair and no query fails, it takes the new conversation id from the
    whole seconds of the clock, reads the clock again for [created_at], and
    after the reads of its scan (the summary rows of the smaller id, and the
    participants of each) executes exactly three inserts: the
    participants row with the smaller id first, then one summary row keyed
    by the smaller id and one keyed by the larger id, each with the other
    user, a null [last_message_content] and [created_at] as
    [last_message_timestamp]. It returns the new conversation with
    [last_message_at = created_at] and a null content. *)
Theorem create_or_get_conversation_creates w user1_id user2_id :
  fault_free w →
  existing_conversation (store w) user1_id user2_id = None →
  let min_user_id := Z.min user1_id user2_id in
  let max_user_id := Z.max user1_id user2_id in
  let conversation_id := Py.int_timestamp (clock w O) in
  let created_at := clock w 1%nat in
  let participants :=
    {| p_conversation_id := conversation_id;
       p_user1_id := min_user_id;
       p_user2_id := max_user_id;
       p_created_at := created_at |} in
  let of_user1 :=
    {| c_user_id := min_user_id;
       c_last_message_timestamp := created_at;
       c_conversation_id := conversation_id;
       c_other_user_id := max_user_id;
       c_last_message_content := None |} in
  let of_user2 :=
    {| c_user_id := max_user_id;
       c_last_message_timestamp := created_at;
       c_conversation_id := conversation_id;
       c_other_user_id := min_user_id;
       c_last_message_content := None |} in
  ∃ w',
    ConversationModel.create_or_get_conversation user1_id user2_id w =
      (Return (Some {| Conversation.id := conversation_id;
                       Conversation.user1_id := min_user_id;
                       Conversation.user2_id := max_user_id;
                       Conversation.last_message_at := created_at;
                       Conversation.last_message_content := None |}), w')
    ∧ journal w' =
        journal w ++
        SELECT_conversations_by_user min_user_id None ::
        ((λ row, SELECT_conversation_participants (c_conversation_id row)) <$>
           Cql.summaries_where min_user_id (store w)) ++
        [INSERT_conversation_participants participants;
         INSERT_conversations_by_user of_user1;
         INSERT_conversations_by_user of_user2]
    ∧ store w' =
        Cql.insert_summary of_user2
          (Cql.insert_summary of_user1
             (Cql.insert_participants participants (store w)))
    ∧ summary_dict of_user1 !! "last_message_content" = Some Null
    ∧ summary_dict of_user2 !! "last_message_content" = Some Null
    ∧ summary_dict of_user1 !! "last_message_timestamp" = Some (Timestamp created_at)
    ∧ summary_dict of_user2 !! "last_message_timestamp" = Some (Timestamp created_at).
Proof.
  intros Hfree Hnone min_user_id max_user_id conversation_id created_at
    participants of_user1 of_user2.
  rewrite create_or_get_created by (done || by apply fault_free_calm).
  eexists. split; [reflexivity|]. cbn [journal store after].
  split_and!; try done.
  unfold scan_reads. by rewrite (visited_all _ _ _ _ Hnone).
Qed.

Lemma create_or_get_conversation_creates_witness :
  fault_free Example.fresh
  ∧ existing_conversation (store Example.fresh) 5 9 = None
  ∧ ∃ w',
      ConversationModel.create_or_get_conversation 5 9 Example.fresh =
        (Return (Some {| Conversation.id := 1700000000;
                         Conversation.user1_id := 5;
                         Conversation.user2_id := 9;
                         Conversation.last_message_at := 1700000001500000;
                         Conversation.last_message_content := None |}), w')
      ∧ Cql.summaries_where 9 (store w') =
          [{| c_user_id := 9;
              c_last_message_timestamp := 1700000001500000;
              c_conversation_id := 1700000000;
              c_other_user_id := 5;
              c_last_message_content := None |}].
Proof.
  assert (fault_free Example.fresh) as Hfree by (by apply fault_free_nil).
  split; [done|]. split; [reflexivity|].
  destruct (create_or_get_conversation_creates Example.fresh 5 9 Hfree eq_refl)
    as (w' & Hrun & _ & Hstore & _).
  exists w'. split; [exact Hrun|]. by rewrite Hstore.
Defined.

(** C10. [create_or_get_conversation(a, a)] is not rejected: when no
    conversation of the pair (a, a) is found and no query fails, the call
    returns a new conversation, and the participants row stored for it has
    [user1_id = user2_id = a], which satisfies [user1_id <= user2_id] and
    not [user1_id < user2_id]. *)
Theorem create_or_get_conversation_with_oneself w a :
  fault_free w →
  existing_conversation (store w) a a = None →
  ∃ c w',
    ConversationModel.create_or_get_conversation a a w = (Return (Some c), w')
    ∧ Conversation.id c = Py.int_timestamp (clock w O)
    ∧ Conversation.user1_id c = a
    ∧ Conversation.user2_id c = a
    ∧ Cql.participants_where (Conversation.id c) (store w') =
        [{| p_conversation_id := Conversation.id c;
            p_user1_id := a;
            p_user2_id := a;
            p_created_at := clock w 1%nat |}]
    ∧ ∀ row, row ∈ Cql.participants_where (Conversation.id c) (store w') →
             p_user1_id row ≤ p_user2_id row ∧ ¬ p_user1_id row < p_user2_id row.
Proof.
  intros Hfree Hnone.
  rewrite create_or_get_created by (done || by apply fault_free_calm).
  eexists _, _. split; [reflexivity|]. cbn [Conversation.id Conversation.user1_id
    Conversation.user2_id store after].
  destruct (creation_store a a w (store w)) as (Hp & _).
  assert (Cql.participants_where (new_conversation_id w)
            (replay (creation_writes a a w) (store w)) =
          [{| p_conversation_id := new_conversation_id w;
              p_user1_id := a;
              p_user2_id := a;
              p_created_at := clock w 1%nat |}]) as Hrows.
  { unfold Cql.participants_where. rewrite Hp, lookup_insert_eq.
    unfold participant_row. cbn [fst snd]. by rewrite Z.min_id, Z.max_id. }
  split_and!; [done|apply Z.min_id|apply Z.max_id|done|].
  intros row. rewrite Hrows. intros ->%list_elem_of_singleton. cbn. lia.
Qed.

Lemma create_or_get_conversation_with_oneself_witness :
  fault_free Example.chatted
  ∧ existing_conversation (store Example.chatted) 5 5 = None
  ∧ ∃ c w',
      ConversationModel.create_or_get_conversation 5 5 Example.chatted =
        (Return (Some c), w')
      ∧ Conversation.user1_id c = 5
      ∧ Conversation.user2_id c = 5
      ∧ p_user1_id <$> Cql.participants_where (Conversation.id c) (store w') = [5]
      ∧ p_user2_id <$> Cql.participants_where (Conversation.id c) (store w') = [5].
Proof.
  assert (fault_free Example.chatted) as Hfree by (by apply fault_free_nil).
  split; [done|]. split; [reflexivity|].
  destruct (create_or_get_conversation_with_oneself Example.chatted 5 Hfree eq_refl)
    as (c & w' & Hrun & _ & H1 & H2 & Hrows & _).
  exists c, w'. split; [exact Hrun|]. by rewrite Hrows.
Defined.

Lemma create_or_get_conversation_comm user1_id user2_id :
  ConversationModel.create_or_get_conversation user2_id user1_id =
  ConversationModel.create_or_get_conversation user1_id user2_id.
Proof.
  unfold ConversationModel.create_or_get_conversation.
  by rewrite (Z.min_comm user2_id), (Z.max_comm user2_id).
Qed.

(** C5. From any store, for any two user ids, equal or not, two calls of
    [create_or_get_conversation] for the pair, one after the other and with
    no query failing, both return a conversation, with the same id. The
    first call returns the conversation its scan finds for the pair and
    writes nothing, or, when the scan finds none, creates one under the whole
    second of the clock with its three writes. Either way the id it returns
    has, in the store it leaves, a participants row of the pair, and it is
    the conversation the scan of the second call finds: the second call
    returns the view of that row, runs only the reads of its scan and of
    [get_conversation], creates nothing and leaves the store as the first
    left it. *)
Theorem create_or_get_conversation_idempotent w user1_id user2_id :
  fault_free w →
  ∃ c1 w1 c2 w2 e,
    ConversationModel.create_or_get_conversation user1_id user2_id w =
      (Return (Some c1), w1)
    ∧ ConversationModel.create_or_get_conversation user1_id user2_id w1 =
        (Return (Some c2), w2)
    ∧ Conversation.id c2 = Conversation.id c1
    ∧ store w2 = store w1
    ∧ filter (λ q, is_write q = true) (journal w2) =
        filter (λ q, is_write q = true) (journal w1)
    ∧ conversation_participants (store w1) !! Conversation.id c1 = Some e
    ∧ ConversationModel.same_pair (participant_row (Conversation.id c1) e)
        (Z.min user1_id user2_id) (Z.max user1_id user2_id) = true
    ∧ existing_conversation (store w1) user1_id user2_id = Some (Conversation.id c1)
    ∧ Conversation.user1_id c2 = e.1.1
    ∧ Conversation.user2_id c2 = e.1.2
    ∧ journal w2 =
        journal w1 ++
        scan_reads user1_id user2_id (store w1) ++
        [SELECT_conversation_participants (Conversation.id c1);
         SELECT_messages_by_conversation (Conversation.id c1) None (Some 1)]
    ∧ match existing_conversation (store w) user1_id user2_id with
      | Some conversation_id =>
          Conversation.id c1 = conversation_id
          ∧ store w1 = store w
      | None =>
          Conversation.id c1 = new_conversation_id w
          ∧ store w1 = replay (creation_writes user1_id user2_id w) (store w)
          ∧ e = (Z.min user1_id user2_id, Z.max user1_id user2_id, clock w 1%nat)
      end.
Proof.
  intros Hfree.
  destruct (existing_conversation (store w) user1_id user2_id) as [c|] eqn:Hex.
  - destruct (create_or_get_found _ _ _ _ Hfree Hex) as (e & Hl & Hpair & Hrun).
    eexists _, _. rewrite Hrun.
    assert (fault_free (after (scan_reads user1_id user2_id (store w) ++
              [SELECT_conversation_participants c;
               SELECT_messages_by_conversation c None (Some 1)]) (store w) w))
      as Hfree' by (by apply fault_free_after).
    destruct (create_or_get_found _ user1_id user2_id c Hfree')
      as (e' & Hl' & Hpair' & Hrun'); [done|].
    cbn [store after] in Hl', Hrun'. rewrite Hl in Hl'. injection Hl' as <-.
    eexists _, _, e. rewrite Hrun'. cbn [store after journal].
    split_and!; try done.
    by apply found_writes_nothing.
  - rewrite (create_or_get_created _ _ _ (fault_free_calm _ _ Hfree) Hex).
    eexists _, _.
    set (w1 := after _ _ _).
    assert (fault_free w1) as Hfree' by (by apply fault_free_after).
    pose proof (create_or_get_again user1_id user2_id w (store w) Hex) as Hagain.
    destruct (create_or_get_found w1 user1_id user2_id (new_conversation_id w) Hfree')
      as (e' & Hl' & Hpair' & Hrun'); [done|].
    destruct (creation_store user1_id user2_id w (store w)) as (Hp & _).
    cbn [store after w1] in Hl'. rewrite Hp, lookup_insert_eq in Hl'.
    injection Hl' as <-.
    eexists _, _, _. rewrite Hrun'. cbn [store after w1 Conversation.id journal].
    split_and!; try done.
    + by apply found_writes_nothing.
    + unfold w1. cbn [store after Conversation.id]. by rewrite Hp, lookup_insert_eq.
Qed.

Lemma create_or_get_conversation_idempotent_witness :
  fault_free Example.fresh
  ∧ ∃ c1 w1 c2 w2,
      ConversationModel.create_or_get_conversation 5 5 Example.fresh =
        (Return (Some c1), w1)
      ∧ ConversationModel.create_or_get_conversation 5 5 w1 = (Return (Some c2), w2)
      ∧ Conversation.id c2 = Conversation.id c1
      ∧ store w2 = store w1
      ∧ conversation_participants (store w1) !! Conversation.id c1 =
          Some (5, 5, 1700000001500000)
      ∧ existing_conversation (store w1) 5 5 = Some (Conversation.id c1).
Proof.
  assert (fault_free Example.fresh) as Hfree by (by apply fault_free_nil).
  split; [done|].
  destruct (create_or_get_conversation_idempotent Example.fresh 5 5 Hfree)
    as (c1 & w1 & c2 & w2 & e & Hrun1 & Hrun2 & Hid & Hstore & _ & Hstored & _
        & Hexisting & _ & _ & _ & Hfirst).
  change (existing_conversation (store Example.fresh) 5 5) with (@None Z) in Hfirst.
  destruct Hfirst as (_ & _ & ->).
  exists c1, w1, c2, w2. split; [exact Hrun1|]. split; [exact Hrun2|].
  split; [exact Hid|]. split; [exact Hstore|]. split; [exact Hstored|exact Hexisting].
Defined.

(** C1. In a store where every stored pair of participants has the smaller id
    first, as in every store the repositories reach, and with no query
    failing: for distinct user ids [a] and [b], the call
    [create_or_get_conversation(a, b)] followed by
    [create_or_get_conversation(b, a)] returns the same conversation id
    twice, and the participants row stored for that id holds the pair with
    [user1_id < user2_id]: [user1_id = min(a, b)], [user2_id = max(a, b)]. *)
Theorem create_or_get_conversation_symmetric w a b :
  canonical (store w) →
  fault_free w →
  a ≠ b →
  ∃ c1 w1 c2 w2 row,
    ConversationModel.create_or_get_conversation a b w = (Return (Some c1), w1)
    ∧ ConversationModel.create_or_get_conversation b a w1 = (Return (Some c2), w2)
    ∧ Conversation.id c1 = Conversation.id c2
    ∧ Cql.participants_where (Conversation.id c1) (store w2) = [row]
    ∧ p_user1_id row = Z.min a b
    ∧ p_user2_id row = Z.max a b
    ∧ p_user1_id row < p_user2_id row.
Proof.
  intros Hcan Hfree Hab.
  destruct (create_or_get_twice w a b Hfree)
    as (c1 & w1 & c2 & w2 & e & Hrun1 & Hrun2 & Hid & Hstore & _ & Hl & Hpair & Hwhere).
  exists c1, w1, c2, w2, (participant_row (Conversation.id c1) e).
  rewrite (create_or_get_conversation_comm a b).
  split_and!; [done|done|done|..].
  - unfold Cql.participants_where. by rewrite Hl.
  - apply same_pair_spec in Hpair. cbn [participant_row p_user1_id p_user2_id] in *.
    destruct Hwhere as [Hold|[? ?]]; [|done].
    specialize (Hcan _ _ Hold). lia.
  - apply same_pair_spec in Hpair. cbn [participant_row p_user1_id p_user2_id] in *.
    destruct Hwhere as [Hold|[? ?]]; [|done].
    specialize (Hcan _ _ Hold). lia.
  - apply same_pair_spec in Hpair. cbn [participant_row p_user1_id p_user2_id] in *.
    destruct Hwhere as [Hold|[? ?]]; [|lia].
    specialize (Hcan _ _ Hold). lia.
Qed.

Lemma create_or_get_conversation_symmetric_witness :
  canonical (store Example.chatted)
  ∧ fault_free Example.chatted
  ∧ ∃ c1 w1 c2 w2,
      ConversationModel.create_or_get_conversation 9 5 Example.chatted =
        (Return (Some c1), w1)
      ∧ ConversationModel.create_or_get_conversation 5 9 w1 = (Return (Some c2), w2)
      ∧ Conversation.id c1 = Conversation.id c2
      ∧ p_user1_id <$> Cql.participants_where (Conversation.id c1) (store w2) = [5]
      ∧ p_user2_id <$> Cql.participants_where (Conversation.id c1) (store w2) = [9].
Proof.
  assert (canonical (store Example.chatted)) as Hcan.
  { apply reachable_well_formed. repeat constructor. }
  assert (fault_free Example.chatted) as Hfree by (by apply fault_free_nil).
  split; [done|]. split; [done|].
  assert ((9 : Z) ≠ 5) as Hne by done.
  destruct (create_or_get_conversation_symmetric Example.chatted 9 5 Hcan Hfree Hne)
    as (c1 & w1 & c2 & w2 & row & Hrun1 & Hrun2 & Hid & Hrows & H1 & H2 & _).
  exists c1, w1, c2, w2. rewrite Hrows. cbn [fmap list_fmap]. rewrite H1, H2.
  by split_and!.
Defined.

(** * Further properties of the repositories *)

(** ** The readers write nothing *)

Lemma keeps_message_readers P conversation_id before_timestamp page limit :
  keeps P (MessageModel.get_conversation_messages conversation_id page limit)
  ∧ keeps P (MessageModel.get_messages_before_timestamp conversation_id
               before_timestamp page limit).
Proof.
  split.
  - unfold MessageModel.get_conversation_messages. keeps_tac.
  - unfold MessageModel.get_messages_before_timestamp. keeps_tac.
Qed.

Lemma keeps_for_rows P rows conversations :
  keeps P (ConversationModel.for_rows rows conversations).
Proof.
  revert conversations. induction rows as [|row rows IH]; intros conversations;
    cbn [ConversationModel.for_rows]; keeps_tac.
  destruct a; apply IH.
Qed.

Lemma keeps_get_user_conversations P user_id page limit :
  keeps P (ConversationModel.get_user_conversations user_id page limit).
Proof.
  unfold ConversationModel.get_user_conversations. keeps_tac.
  apply keeps_for_rows.
Qed.

Lemma keeps_get_conversation P conversation_id :
  keeps P (ConversationModel.get_conversation conversation_id).
Proof.
  unfold ConversationModel.get_conversation. keeps_tac.
  destruct a; keeps_tac.
Qed.

(** X1. The four readers leave the store as it is, whether they return or
    raise and whatever queries fail: [get_conversation_messages],
    [get_messages_before_timestamp], [get_user_conversations] and
    [get_conversation] only execute SELECT statements. *)
Theorem readers_leave_the_store w conversation_id before_timestamp user_id page limit :
  store (MessageModel.get_conversation_messages conversation_id page limit w).2
    = store w
  ∧ store (MessageModel.get_messages_before_timestamp conversation_id
             before_timestamp page limit w).2 = store w
  ∧ store (ConversationModel.get_user_conversations user_id page limit w).2
      = store w
  ∧ store (ConversationModel.get_conversation conversation_id w).2 = store w.
Proof.
  split_and!.
  - by apply (proj1 (keeps_message_readers (λ s, s = store w) conversation_id
                       before_timestamp page limit)).
  - by apply (proj2 (keeps_message_readers (λ s, s = store w) conversation_id
                       before_timestamp page limit)).
  - by apply (keeps_get_user_conversations (λ s, s = store w)).
  - by apply (keeps_get_conversation (λ s, s = store w)).
Qed.

(** ** Pages of messages *)

Lemma window_take {A} (l : list A) (lo hi : Z) :
  0 ≤ lo → window (take (Z.to_nat hi) l) lo hi = window l lo hi.
Proof.
  intros Hlo. apply list_eq. intros i. rewrite !window_lookup by done.
  case_decide; [|done]. rewrite lookup_take_lt by lia. done.
Qed.

Lemma window_app {A} (l : list A) (lo mid hi : Z) :
  0 ≤ lo → lo ≤ mid → mid ≤ hi →
  window l lo mid ++ window l mid hi = window l lo hi.
Proof.
  intros Hlo Hmid Hhi. unfold window.
  replace (Z.to_nat (hi - lo)) with (Z.to_nat (mid - lo) + Z.to_nat (hi - mid))%nat
    by lia.
  rewrite <- take_take_drop, drop_drop. do 3 f_equal. lia.
Qed.

(** X2. With a positive fetch limit, the data of
    [get_conversation_messages] are the rows of the whole partition at the
    offsets [(page-1)*limit <= i < page*limit]: fetching only the first
    [page * limit] rows loses nothing of the page. A page holds at most
    [limit] messages, and none when the partition ends before it. *)
Theorem message_page_is_window_of_partition w conversation_id page limit :
  calm 1 w →
  0 < page * limit →
  let partition := Cql.messages_where conversation_id None (store w) in
  ∃ r w',
    MessageModel.get_conversation_messages conversation_id page limit w =
      (Return r, w')
    ∧ Page.data r =
        MessageModel.of_row <$> window partition ((page - 1) * limit) (page * limit)
    ∧ Z.of_nat (length (Page.data r)) ≤ Z.max 0 limit
    ∧ (Z.of_nat (length partition) ≤ (page - 1) * limit → Page.data r = []).
Proof.
  intros Hcalm Hpos partition.
  rewrite get_conversation_messages_run by done.
  destruct (page_bounds _ _ Hpos) as [Hlo Hhi].
  eexists _, _. split; [reflexivity|]. cbn [Page.data].
  fold partition. rewrite window_take by done.
  split_and!; [done| |].
  - rewrite length_fmap, window_length by done. lia.
  - intros Hshort. apply nil_length_inv.
    apply Nat2Z.inj. rewrite length_fmap, window_length by done. lia.
Qed.

Lemma message_page_is_window_of_partition_witness :
  calm 1 Example.chatted
  ∧ ∃ r w',
      MessageModel.get_conversation_messages 1700000000 2 1 Example.chatted =
        (Return r, w')
      ∧ Message.content <$> Page.data r = ["hi"].
Proof.
  assert (calm 1 Example.chatted) as Hcalm by (by apply calm_nil).
  split; [done|].
  destruct (message_page_is_window_of_partition Example.chatted 1700000000 2 1
              Hcalm eq_refl) as (r & w' & Hrun & Hdata & _).
  exists r, w'. split; [exact Hrun|]. by rewrite Hdata.
Defined.

(** X3. Two consecutive pages of [get_conversation_messages] with the same
    positive limit, read one after the other with no query failing, neither
    skip nor repeat a message: their data, put end to end, are the rows of
    the partition at the offsets [(page-1)*limit <= i < (page+1)*limit]. *)
Theorem consecutive_message_pages w conversation_id page limit :
  calm 2 w →
  1 ≤ page →
  1 ≤ limit →
  let partition := Cql.messages_where conversation_id None (store w) in
  ∃ r1 w1 r2 w2,
    MessageModel.get_conversation_messages conversation_id page limit w =
      (Return r1, w1)
    ∧ MessageModel.get_conversation_messages conversation_id (page + 1) limit w1 =
        (Return r2, w2)
    ∧ Page.data r1 ++ Page.data r2 =
        MessageModel.of_row <$>
          window partition ((page - 1) * limit) ((page + 1) * limit)
    ∧ Page.total r1 ≤ Page.total r2.
Proof.
  intros Hcalm Hpage Hlimit partition.
  set (w1 := after [SELECT_messages_by_conversation conversation_id None
                      (Some (page * limit))] (store w) w).
  assert (calm 1 w) as Hcalm0 by (eapply calm_le; [|done]; lia).
  assert (calm 1 w1) as Hcalm1 by (subst w1; calm_tac).
  assert (0 < page * limit) as Hpos by nia.
  assert (0 < (page + 1) * limit) as Hpos1 by nia.
  pose proof (get_conversation_messages_run w conversation_id page limit
                Hcalm0 Hpos) as Hrun1.
  pose proof (get_conversation_messages_run w1 conversation_id (page + 1) limit
                Hcalm1 Hpos1) as Hrun2.
  cbv zeta in Hrun1, Hrun2. fold w1 in Hrun1.
  eexists _, w1, _, _. split; [exact Hrun1|]. split; [exact Hrun2|].
  cbn [Page.data Page.total store after w1]. fold partition.
  rewrite !window_take by nia.
  replace (page + 1 - 1) with page by lia.
  split.
  - rewrite <- fmap_app. f_equal. apply window_app; nia.
  - rewrite !length_take. nia.
Qed.

Lemma consecutive_message_pages_witness :
  calm 2 Example.chatted
  ∧ ∃ r1 w1 r2 w2,
      MessageModel.get_conversation_messages 1700000000 1 1 Example.chatted =
        (Return r1, w1)
      ∧ MessageModel.get_conversation_messages 1700000000 2 1 w1 = (Return r2, w2)
      ∧ Message.content <$> (Page.data r1 ++ Page.data r2) = ["yo"; "hi"].
Proof.
  assert (calm 2 Example.chatted) as Hcalm by (by apply calm_nil).
  split; [done|].
  assert ((1 : Z) ≤ 1) as H1 by done.
  destruct (consecutive_message_pages Example.chatted 1700000000 1 1 Hcalm H1 H1)
    as (r1 & w1 & r2 & w2 & Hrun1 & Hrun2 & Hdata & _).
  exists r1, w1, r2, w2. split; [exact Hrun1|]. split; [exact Hrun2|].
  by rewrite Hdata.
Defined.

(** ** Writing a message and reading it back *)

Lemma upsert_first {K V} (cmp : K → K → comparison) k v (l : list (K * V)) :
  (∀ x, x ∈ l → cmp k x.1 = Lt) → Clustering.upsert cmp k v l = (k, v) :: l.
Proof.
  destruct l as [|x l]; [done|]. intros H. simpl.
  by rewrite (H x) by left.
Qed.

Lemma upsert_keeps {K V} (cmp : K → K → comparison) `{!ClusteringOrder cmp}
    k v (l : list (K * V)) x :
  x ∈ l → x.1 ≠ k → x ∈ Clustering.upsert cmp k v l.
Proof.
  intros Hin Hne. induction l as [|y l IH]; [by apply elem_of_nil in Hin|].
  simpl. destruct (cmp k y.1) eqn:Hk.
  - apply cmp_eq in Hk. apply elem_of_cons in Hin as [->|Hin]; [done|by right].
  - by right.
  - apply elem_of_cons in Hin as [->|Hin]; [left|right; by apply IH].
Qed.

Lemma messages_where_insert_message conversation_id r s :
  Cql.messages_where conversation_id None (Cql.insert_message r s) =
    if decide (m_conversation_id r = conversation_id)
    then message_row conversation_id <$>
           Clustering.upsert Clustering.message
             (m_message_timestamp r, m_message_id r)
             (m_sender_id r, m_receiver_id r, m_content r)
             (messages_by_conversation s !!! conversation_id)
    else Cql.messages_where conversation_id None s.
Proof.
  unfold Cql.messages_where, Cql.insert_message. cbn [messages_by_conversation].
  rewrite lookup_total_insert. by case_decide; subst.
Qed.

Lemma replay_create_message_writes sender_id receiver_id content conversation_id w s :
  replay (create_message_writes sender_id receiver_id content conversation_id w) s =
    Cql.insert_summary
      (MessageModel.receiver_params sender_id receiver_id content conversation_id
         (clock w O))
      (Cql.insert_summary
         (MessageModel.sender_params sender_id receiver_id content conversation_id
            (clock w O))
         (Cql.insert_message
            (MessageModel.params sender_id receiver_id content conversation_id
               (uuids w O) (clock w O)) s)).
Proof. reflexivity. Qed.

Lemma millisecond_lt a b : millisecond a < millisecond b → a < b.
Proof.
  unfold millisecond. intros Hlt.
  destruct (Z.lt_ge_cases a b) as [|Hge]; [done|].
  pose proof (Z.quot_le_mono b a 1000 ltac:(lia) Hge). lia.
Qed.

(** X4. A message written by [create_message] at a millisecond later than
    those of all messages of the conversation is the first one read back:
    page 1 with limit 1 of [get_conversation_messages] holds one record, with
    the id, the conversation, the sender, the receiver and the content of the
    record [create_message] returned, and with its [created_at] up to the
    millisecond; and [get_conversation], when the conversation has a
    participants row, reports its content, and its timestamp up to the
    millisecond, as the last message. *)
Theorem create_message_then_read w sender_id receiver_id content conversation_id :
  fault_free w →
  (∀ row, row ∈ Cql.messages_where conversation_id None (store w) →
          millisecond (m_message_timestamp row) < millisecond (clock w O)) →
  ∃ m w1 r w2 m',
    MessageModel.create_message sender_id receiver_id content conversation_id w =
      (Return m, w1)
    ∧ MessageModel.get_conversation_messages conversation_id 1 1 w1 = (Return r, w2)
    ∧ Page.data r = [m']
    ∧ Message.id m' = Message.id m
    ∧ Message.conversation_id m' = Message.conversation_id m
    ∧ Message.sender_id m' = Message.sender_id m
    ∧ Message.receiver_id m' = Message.receiver_id m
    ∧ Message.content m' = Message.content m
    ∧ millisecond (Message.created_at m') = millisecond (Message.created_at m)
    ∧ (Message.id m, Message.conversation_id m, Message.sender_id m,
       Message.receiver_id m, Message.content m, Message.created_at m) =
        (Py.str_uuid (uuids w O), conversation_id, sender_id, receiver_id, content,
         clock w O)
    ∧ ∀ e, conversation_participants (store w) !! conversation_id = Some e →
           ∃ c w3,
             ConversationModel.get_conversation conversation_id w1 =
               (Return (Some c), w3)
             ∧ millisecond (Conversation.last_message_at c) =
                 millisecond (clock w O)
             ∧ Conversation.last_message_content c = Some content.
Proof.
  intros Hfree Hnewer.
  rewrite create_message_run by (by apply fault_free_calm).
  set (w1 := after _ _ _).
  assert (fault_free w1) as Hfree1 by (by apply fault_free_after).
  assert (Cql.messages_where conversation_id None (store w1) =
          MessageModel.params sender_id receiver_id content conversation_id
            (uuids w O) (clock w O)
          :: Cql.messages_where conversation_id None (store w)) as Hrows.
  { unfold w1. cbn [store after]. rewrite replay_create_message_writes.
    change (Cql.messages_where conversation_id None
              (Cql.insert_summary ?r1 (Cql.insert_summary ?r2 ?s)))
      with (Cql.messages_where conversation_id None s).
    rewrite messages_where_insert_message, decide_True by done.
    rewrite upsert_first; [done|].
    intros x Hx. apply message_Lt. left. cbn [fst].
    apply millisecond_lt.
    apply (Hnewer (message_row conversation_id x)).
    by apply list_elem_of_fmap_2. }
  pose proof (get_conversation_messages_run w1 conversation_id 1 1
                (fault_free_calm _ _ Hfree1) eq_refl) as Hrun.
  cbv zeta in Hrun. rewrite Hrows in Hrun.
  eexists _, w1, _, _, _. split; [reflexivity|]. split; [exact Hrun|].
  split; [reflexivity|]. split_and!; try reflexivity.
  intros e He.
  rewrite get_conversation_run by (by apply fault_free_calm).
  assert (conversation_participants (store w1) !! conversation_id = Some e) as ->
    by done.
  rewrite Hrows. eexists _, _. split; [reflexivity|]. done.
Qed.

Lemma create_message_then_read_witness :
  fault_free Example.chatted
  ∧ ∃ m w1 r w2 m' c w3,
      MessageModel.create_message 5 9 "ok" 1700000000 Example.chatted = (Return m, w1)
      ∧ MessageModel.get_conversation_messages 1700000000 1 1 w1 = (Return r, w2)
      ∧ Page.data r = [m']
      ∧ Message.id m' = Message.id m
      ∧ Message.content m' = "ok"
      ∧ ConversationModel.get_conversation 1700000000 w1 = (Return (Some c), w3)
      ∧ Conversation.last_message_content c = Some "ok".
Proof.
  assert (fault_free Example.chatted) as Hfree by (by apply fault_free_nil).
  split; [done|].
  assert (∀ row, row ∈ Cql.messages_where 1700000000 None (store Example.chatted) →
                 millisecond (m_message_timestamp row) <
                   millisecond (clock Example.chatted O)) as Hnewer.
  { intros row Hrow. vm_compute in Hrow.
    apply elem_of_cons in Hrow as [->|Hrow]; [reflexivity|].
    apply elem_of_cons in Hrow as [->|Hrow]; [reflexivity|].
    by apply elem_of_nil in Hrow. }
  destruct (create_message_then_read Example.chatted 5 9 "ok" 1700000000 Hfree Hnewer)
    as (m & w1 & r & w2 & m' & Hrun1 & Hrun2 & Hdata & Hid & _ & _ & _ & Hcontent
        & _ & Hm & Hlast).
  destruct (Hlast (5, 9, 1700000001500000) eq_refl) as (c & w3 & Hrun3 & _ & Hlastc).
  injection Hm as _ _ _ _ Hmcontent _.
  exists m, w1, r, w2, m', c, w3.
  split; [exact Hrun1|]. split; [exact Hrun2|]. split; [exact Hdata|].
  split; [exact Hid|]. split; [by rewrite Hcontent|]. split; [exact Hrun3|exact Hlastc].
Defined.

(** ** The inbox of a user *)

Lemma summaries_where_insert_keeps_row user_id r s row :
  row ∈ Cql.summaries_where user_id s →
  (c_last_message_timestamp row, c_conversation_id row) ≠
    (c_last_message_timestamp r, c_conversation_id r) →
  row ∈ Cql.summaries_where user_id (Cql.insert_summary r s).
Proof.
  intros Hin Hne. rewrite summaries_where_insert. case_decide; [|done].
  apply list_elem_of_fmap in Hin as (x & -> & Hx).
  apply list_elem_of_fmap_2, (upsert_keeps _); [done|].
  destruct x as [[t c] v]. exact Hne.
Qed.

Lemma two_elements {A} (l : list A) x y : x ∈ l → y ∈ l → x ≠ y → (2 ≤ length l)%nat.
Proof.
  intros Hx Hy Hne. apply list_elem_of_split in Hx as (l1 & l2 & ->).
  rewrite length_app. cbn [length].
  apply elem_of_app in Hy as [Hy|Hy].
  - destruct l1; [by apply elem_of_nil in Hy|]. cbn [length]. lia.
  - apply elem_of_cons in Hy as [->|Hy]; [done|].
    destruct l2; [by apply elem_of_nil in Hy|]. cbn [length]. lia.
Qed.

Lemma create_message_writes_three_rows_aux
    w sender_id receiver_id content conversation_id :
  calm 3 w →
  ∃ w',
    MessageModel.create_message sender_id receiver_id content conversation_id w =
      (Return {| Message.id := Py.str_uuid (uuids w O);
                 Message.conversation_id := conversation_id;
                 Message.sender_id := sender_id;
                 Message.receiver_id := receiver_id;
                 Message.content := content;
                 Message.created_at := clock w O |}, w')
    ∧ store w' =
        Cql.insert_summary
          (MessageModel.receiver_params sender_id receiver_id content
             conversation_id (clock w O))
          (Cql.insert_summary
             (MessageModel.sender_params sender_id receiver_id content
                conversation_id (clock w O))
             (Cql.insert_message
                (MessageModel.params sender_id receiver_id content conversation_id
                   (uuids w O) (clock w O)) (store w)))
    ∧ MessageModel.sender_params sender_id receiver_id content conversation_id
        (clock w O) ∈ Cql.summaries_where sender_id (store w').
Proof.
  intros Hcalm. rewrite create_message_run by done.
  eexists. split; [reflexivity|]. cbn [store after].
  rewrite replay_create_message_writes. split; [done|].
  destruct (decide (receiver_id = sender_id)) as [Heq|Hne].
  - subst receiver_id.
    exact (summary_row_inserted (MessageModel.sender_params _ _ _ _ _) _).
  - rewrite summaries_where_insert, decide_False by done.
    exact (summary_row_inserted (MessageModel.sender_params _ _ _ _ _) _).
Qed.

(** X5. [create_message] adds summary rows and never replaces one of another
    millisecond: every summary row of any user whose millisecond or
    conversation differs from the new message's is still in that user's inbox
    afterwards, beside the new row. So a sender who already had a summary row
    of the conversation, of another millisecond, has at least two rows of
    that conversation afterwards. *)
Theorem create_message_keeps_older_summaries
    w sender_id receiver_id content conversation_id :
  calm 3 w →
  ∃ m w',
    MessageModel.create_message sender_id receiver_id content conversation_id w =
      (Return m, w')
    ∧ (∀ user_id row,
         row ∈ Cql.summaries_where user_id (store w) →
         (millisecond (c_last_message_timestamp row), c_conversation_id row) ≠
           (millisecond (clock w O), conversation_id) →
         row ∈ Cql.summaries_where user_id (store w'))
    ∧ (∀ row,
         row ∈ Cql.summaries_where sender_id (store w) →
         c_conversation_id row = conversation_id →
         millisecond (c_last_message_timestamp row) ≠ millisecond (clock w O) →
         (2 ≤ length (filter (λ r, c_conversation_id r = conversation_id)
                        (Cql.summaries_where sender_id (store w'))))%nat).
Proof.
  intros Hcalm.
  destruct (create_message_writes_three_rows_aux w sender_id receiver_id content
              conversation_id Hcalm) as (w' & Hrun & Hstore & Hsender).
  rewrite Hrun. eexists _, _. split; [reflexivity|].
  assert (∀ user_id row,
            row ∈ Cql.summaries_where user_id (store w) →
            (millisecond (c_last_message_timestamp row), c_conversation_id row) ≠
              (millisecond (clock w O), conversation_id) →
            row ∈ Cql.summaries_where user_id (store w')) as Hkept.
  { intros user_id row Hin Hne. rewrite Hstore.
    assert ((c_last_message_timestamp row, c_conversation_id row) ≠
            (clock w O, conversation_id)) as Hne'
      by (intros [= Hts Hid]; apply Hne; by rewrite Hts, Hid).
    by do 2 (apply summaries_where_insert_keeps_row; [|done]). }
  split; [done|].
  intros row Hin Hid Hts.
  apply (two_elements _ row
           (MessageModel.sender_params sender_id receiver_id content conversation_id
              (clock w O))).
  - apply list_elem_of_filter. split; [done|]. apply Hkept; [done|]. congruence.
  - apply list_elem_of_filter. split; [done|]. exact Hsender.
  - intros ->. by apply Hts.
Qed.

Lemma create_message_keeps_older_summaries_witness :
  calm 3 Example.opened
  ∧ ∃ m w',
      MessageModel.create_message 5 9 "hi" 1700000000 Example.opened = (Return m, w')
      ∧ (2 ≤ length (filter (λ r, c_conversation_id r = 1700000000%Z)
                       (Cql.summaries_where 5%Z (store w'))))%nat.
Proof.
  assert (calm 3 Example.opened) as Hcalm by (by apply calm_nil).
  split; [done|].
  destruct (create_message_keeps_older_summaries Example.opened 5 9 "hi" 1700000000
              Hcalm) as (m & w' & Hrun & _ & Htwo).
  exists m, w'. split; [exact Hrun|].
  apply (Htwo {| c_user_id := 5;
                 c_last_message_timestamp := 1700000001500000;
                 c_conversation_id := 1700000000;
                 c_other_user_id := 9;
                 c_last_message_content := None |}).
  - vm_compute. left.
  - reflexivity.
  - vm_compute. discriminate.
Defined.

Lemma StronglySorted_omap {A B} (R : relation A) (R' : relation B)
    (f : A → option B) l :
  (∀ x y x' y', R x y → f x = Some x' → f y = Some y' → R' x' y') →
  StronglySorted R l → StronglySorted R' (omap f l).
Proof.
  intros Hf. induction 1 as [|x l Hl IH Hx]; [constructor|].
  cbn [omap list_omap]. destruct (f x) as [x'|] eqn:Hfx; [|done].
  constructor; [done|].
  apply Forall_forall. intros y' (y & Hy & Hfy)%list_elem_of_omap.
  eapply Hf; [|done..]. by apply (proj1 (Forall_forall _ _) Hx).
Qed.

(** The clustering order of conversations_by_user on the entries of an
    inbox: latest message first, at equal timestamps smaller conversation id
    first. *)
Lemma summaries_where_in_order s user_id :
  clustered s →
  StronglySorted
    (λ a b, c_last_message_timestamp b < c_last_message_timestamp a
            ∨ (c_last_message_timestamp a = c_last_message_timestamp b
               ∧ c_conversation_id a < c_conversation_id b))
    (Cql.summaries_where user_id s).
Proof.
  intros [_ Hsum]. unfold Cql.summaries_where.
  eapply StronglySorted_fmap; [|apply Hsum].
  intros x y H. by apply summary_Lt in H.
Qed.

(** X6. In a store whose partitions are in clustering order, as in every
    store the repositories reach, the data of [get_user_conversations] are
    in inbox order: strictly by [last_message_at] descending, and at equal
    [last_message_at] by conversation id ascending; dropping the rows
    without participants does not disturb the order. *)
Theorem get_user_conversations_newest_first w user_id page limit :
  fault_free w →
  0 < page * limit →
  clustered (store w) →
  ∃ r w',
    ConversationModel.get_user_conversations user_id page limit w = (Return r, w')
    ∧ StronglySorted
        (λ a b, Conversation.last_message_at b < Conversation.last_message_at a
                ∨ (Conversation.last_message_at a = Conversation.last_message_at b
                   ∧ Conversation.id a < Conversation.id b))
        (Page.data r).
Proof.
  intros Hfree Hpos Hclustered.
  rewrite get_user_conversations_run by done.
  eexists _, _. split; [reflexivity|]. cbn [Page.data].
  apply StronglySorted_window.
  eapply StronglySorted_omap;
    [|apply StronglySorted_take, summaries_where_in_order, Hclustered].
  intros x y x' y' Hxy Hx Hy. unfold resolve in Hx, Hy.
  destruct (conversation_participants (store w) !! c_conversation_id x); [|done].
  destruct (conversation_participants (store w) !! c_conversation_id y); [|done].
  injection Hx as <-. injection Hy as <-. exact Hxy.
Qed.

Lemma get_user_conversations_newest_first_witness :
  fault_free Example.chatted
  ∧ clustered (store Example.chatted)
  ∧ ∃ r w',
      ConversationModel.get_user_conversations 5 1 20 Example.chatted = (Return r, w')
      ∧ StronglySorted
          (λ a b, Conversation.last_message_at b < Conversation.last_message_at a
                  ∨ (Conversation.last_message_at a = Conversation.last_message_at b
                     ∧ Conversation.id a < Conversation.id b))
          (Page.data r).
Proof.
  assert (fault_free Example.chatted) as Hfree by (by apply fault_free_nil).
  assert (clustered (store Example.chatted)) as Hclustered.
  { apply reachable_well_formed. repeat constructor. }
  split; [done|]. split; [done|].
  exact (get_user_conversations_newest_first Example.chatted 5 1 20 Hfree eq_refl
           Hclustered).
Defined.

(** ** Creation of a conversation under a taken id, and after a failure *)

Lemma existing_after_insert s s' min_user_id max_user_id conversation_id t :
  existing s (Cql.summaries_where min_user_id s) min_user_id max_user_id = None →
  conversation_participants s' =
    <[conversation_id := (min_user_id, max_user_id, t)]> (conversation_participants s) →
  (∃ row, row ∈ Cql.summaries_where min_user_id s'
          ∧ c_conversation_id row = conversation_id) →
  (∀ row, row ∈ Cql.summaries_where min_user_id s' →
          c_conversation_id row = conversation_id
          ∨ row ∈ Cql.summaries_where min_user_id s) →
  existing s' (Cql.summaries_where min_user_id s') min_user_id max_user_id =
    Some conversation_id.
Proof.
  intros Hnone Hp (row & Hin & Hid) Hold.
  assert (is_Some (existing s' (Cql.summaries_where min_user_id s')
                     min_user_id max_user_id)) as [c Hc].
  { apply (existing_is_Some _ _ _ _ row (min_user_id, max_user_id, t)); [done| |].
    - by rewrite Hp, Hid, lookup_insert_eq.
    - apply same_pair_spec. by left. }
  rewrite Hc. f_equal.
  destruct (existing_Some _ _ _ _ _ Hc) as (row' & e & Hin' & Hid' & Hl & Hpair).
  destruct (decide (c = conversation_id)) as [|Hne]; [done|].
  exfalso. destruct (Hold row' Hin') as [?|Hin0]; [congruence|].
  rewrite Hp, lookup_insert_ne in Hl by done. rewrite <- Hid' in Hl, Hpair.
  by rewrite (existing_None _ _ _ _ _ _ Hnone Hin0 Hl) in Hpair.
Qed.

(** X7. A creation does not check that the id it takes from the clock is
    free. When a conversation is already stored under the whole second of the
    clock, a creation for another pair replaces its participants and leaves
    its messages: the call returns the new conversation with a null last
    message, while [get_conversation] on the same id then reports the new
    pair together with the newest message of the conversation that was
    there. *)
Theorem creation_takes_over_a_stored_id w user1_id user2_id old :
  fault_free w →
  existing_conversation (store w) user1_id user2_id = None →
  conversation_participants (store w) !! Py.int_timestamp (clock w O) = Some old →
  ∃ c w1 c' w2,
    ConversationModel.create_or_get_conversation user1_id user2_id w =
      (Return (Some c), w1)
    ∧ Conversation.id c = Py.int_timestamp (clock w O)
    ∧ Conversation.last_message_content c = None
    ∧ Cql.participants_where (Conversation.id c) (store w1) =
        [{| p_conversation_id := Conversation.id c;
            p_user1_id := Z.min user1_id user2_id;
            p_user2_id := Z.max user1_id user2_id;
            p_created_at := clock w 1%nat |}]
    ∧ Cql.messages_where (Conversation.id c) None (store w1) =
        Cql.messages_where (Conversation.id c) None (store w)
    ∧ ConversationModel.get_conversation (Conversation.id c) w1 =
        (Return (Some c'), w2)
    ∧ Conversation.user1_id c' = Z.min user1_id user2_id
    ∧ Conversation.user2_id c' = Z.max user1_id user2_id
    ∧ Conversation.last_message_content c' =
        m_content <$> head (Cql.messages_where (Conversation.id c) None (store w)).
Proof.
  intros Hfree Hnone Hold.
  rewrite create_or_get_created by (done || by apply fault_free_calm).
  set (w1 := after _ _ _).
  assert (fault_free w1) as Hfree1 by (by apply fault_free_after).
  destruct (creation_store user1_id user2_id w (store w)) as (Hp & Hm & _).
  assert (conversation_participants (store w1) !! new_conversation_id w =
          Some (Z.min user1_id user2_id, Z.max user1_id user2_id, clock w 1%nat))
    as Hnew by (unfold w1; cbn [store after]; by rewrite Hp, lookup_insert_eq).
  assert (Cql.messages_where (new_conversation_id w) None (store w1) =
          Cql.messages_where (new_conversation_id w) None (store w)) as Hmsgs
    by (unfold Cql.messages_where, w1; cbn [store after]; by rewrite Hm).
  eexists _, w1, _, _. split; [reflexivity|]. cbn [Conversation.id
    Conversation.last_message_content].
  rewrite get_conversation_run by (by apply fault_free_calm).
  fold (new_conversation_id w). rewrite Hnew, Hmsgs.
  split_and!; try done.
  unfold Cql.participants_where. by rewrite Hnew.
Qed.

Lemma creation_takes_over_a_stored_id_witness :
  fault_free SameSecond.chatted
  ∧ existing_conversation (store SameSecond.chatted) 5 7 = None
  ∧ Cql.participants_where 1700000000 (store SameSecond.chatted) =
      [{| p_conversation_id := 1700000000;
          p_user1_id := 5;
          p_user2_id := 9;
          p_created_at := 1700000000000001 |}]
  ∧ ∃ c w1 c' w2,
      ConversationModel.create_or_get_conversation 5 7 SameSecond.chatted =
        (Return (Some c), w1)
      ∧ Conversation.id c = 1700000000
      ∧ ConversationModel.get_conversation 1700000000 w1 = (Return (Some c'), w2)
      ∧ Conversation.user2_id c' = 7
      ∧ Conversation.last_message_content c' = Some "hi".
Proof.
  assert (fault_free SameSecond.chatted) as Hfree by (by apply fault_free_nil).
  split; [done|]. split; [reflexivity|]. split; [reflexivity|].
  destruct (creation_takes_over_a_stored_id SameSecond.chatted 5 7
              (5, 9, 1700000000000001) Hfree eq_refl eq_refl)
    as (c & w1 & c' & w2 & Hrun & Hid & _ & _ & _ & Hget & _ & Huser2 & Hlast).
  exists c, w1, c', w2. rewrite Hid in Hget, Hlast.
  split; [exact Hrun|]. by split_and!.
Defined.

(** X8. A creation whose last write fails is not repaired by a retry. When
    the insert of the summary row of the larger id raises, the participants
    row and the summary row of the smaller id stay; the next call for the
    pair, with no query failing, finds that conversation, returns its id and
    writes nothing, so for distinct users the inbox of the user with the
    larger id is left without a row of the conversation. *)
Theorem retry_after_failed_creation w user1_id user2_id e :
  existing_conversation (store w) user1_id user2_id = None →
  user1_id ≠ user2_id →
  let reads :=
    S (length (Cql.summaries_where (Z.min user1_id user2_id) (store w))) in
  faults w = replicate (reads + 2) None ++ [Some e] →
  ∃ w1 c w2,
    ConversationModel.create_or_get_conversation user1_id user2_id w = (Raise e, w1)
    ∧ ConversationModel.create_or_get_conversation user1_id user2_id w1 =
        (Return (Some c), w2)
    ∧ Conversation.id c = Py.int_timestamp (clock w O)
    ∧ store w2 = store w1
    ∧ Cql.summaries_where (Z.max user1_id user2_id) (store w2) =
        Cql.summaries_where (Z.max user1_id user2_id) (store w).
Proof.
  intros Hnone Hne reads Hfaults.
  assert (length (scan_reads user1_id user2_id (store w)) = reads) as Hreads.
  { unfold scan_reads, participants_lookups.
    rewrite (visited_all _ _ _ _ Hnone). cbn [length]. by rewrite length_fmap. }
  rewrite <- Hreads in Hfaults.
  rewrite (create_or_get_fault w user1_id user2_id 2 e [] Hnone) by (lia || done).
  set (min_user_id := Z.min user1_id user2_id) in *.
  set (max_user_id := Z.max user1_id user2_id) in *.
  set (s1 := replay (take 2 (creation_writes user1_id user2_id w)) (store w)).
  set (w1 := failed e _).
  assert (s1 =
          Cql.insert_summary
            (ConversationModel.user1_params min_user_id max_user_id
               (new_conversation_id w) (clock w 1%nat))
            (Cql.insert_participants
               (ConversationModel.create_params min_user_id max_user_id
                  (new_conversation_id w) (clock w 1%nat)) (store w))) as Hs1
    by reflexivity.
  assert (store w1 = s1) as Hstore1 by reflexivity.
  assert (fault_free w1) as Hfree1.
  { apply fault_free_nil. unfold w1. cbn [faults failed after tick].
    rewrite Hfaults, length_app.
    rewrite drop_app_length' by (by rewrite length_replicate).
    done. }
  assert (existing_conversation (store w1) user1_id user2_id =
          Some (new_conversation_id w)) as Hfound.
  { rewrite Hstore1. unfold existing_conversation. fold min_user_id max_user_id.
    apply (existing_after_insert (store w) s1 _ _ _ (clock w 1%nat)); [done|..].
    - by rewrite Hs1.
    - rewrite Hs1.
      exact (summaries_where_insert_new
               (ConversationModel.user1_params min_user_id max_user_id _ _) _).
    - rewrite Hs1. intros row [?|?]%summaries_where_insert_inv; auto. }
  destruct (create_or_get_found w1 user1_id user2_id _ Hfree1 Hfound)
    as (e' & Hl & _ & Hrun).
  eexists w1, _, _. split; [reflexivity|]. split; [exact Hrun|].
  cbn [store after]. split_and!; try done.
  rewrite Hstore1, Hs1, summaries_where_insert, decide_False; [done|].
  cbn [c_user_id ConversationModel.user1_params]. subst min_user_id max_user_id. lia.
Qed.

Lemma retry_after_failed_creation_witness :
  existing_conversation (store SameSecond.failing) 5 9 = None
  ∧ ∃ w1 c w2,
      ConversationModel.create_or_get_conversation 5 9 SameSecond.failing =
        (Raise (DriverError 7), w1)
      ∧ ConversationModel.create_or_get_conversation 5 9 w1 = (Return (Some c), w2)
      ∧ Conversation.id c = 1700000000
      ∧ Cql.summaries_where 9 (store w2) = [].
Proof.
  split; [reflexivity|].
  assert ((5 : Z) ≠ 9) as Hne by done.
  destruct (retry_after_failed_creation SameSecond.failing 5 9 (DriverError 7)
              eq_refl Hne eq_refl)
    as (w1 & c & w2 & Hrun1 & Hrun2 & Hid & _ & Hinbox).
  exists w1, c, w2. split_and!; [exact Hrun1|exact Hrun2|exact Hid|exact Hinbox].
Defined.

(** ** The integer id of a message *)

Lemma string_app_cons x (a b : string) : String x a +:+ b = String x (a +:+ b).
Proof. reflexivity. Qed.

Lemma string_app_assoc (a b c : string) : (a +:+ b) +:+ c = a +:+ b +:+ c.
Proof.
  induction a as [|x a IH]; [done|]. rewrite !string_app_cons. by f_equal.
Qed.

Lemma string_app_nil_r (a : string) : a +:+ "" = a.
Proof. induction a as [|x a IH]; [done|]. rewrite string_app_cons. by f_equal. Qed.

Lemma string_app_length (a b : string) :
  String.length (a +:+ b) = (String.length a + String.length b)%nat.
Proof.
  induction a as [|x a IH]; [done|].
  rewrite string_app_cons. cbn [String.length]. by rewrite IH.
Qed.

Lemma hex_fixed_length width n : String.length (Py.hex_fixed width n) = width.
Proof.
  revert n. induction width as [|w IH]; intros n; [done|].
  cbn [Py.hex_fixed]. rewrite string_app_length, IH. cbn [String.length]. lia.
Qed.

Lemma hex_fixed_add a b n :
  Py.hex_fixed (a + b) n =
    Py.hex_fixed a (n / 16 ^ N.of_nat b)%N +:+ Py.hex_fixed b n.
Proof.
  revert n. induction b as [|b IH]; intros n.
  - rewrite Nat.add_0_r. cbn [Py.hex_fixed N.of_nat].
    by rewrite N.pow_0_r, N.div_1_r, string_app_nil_r.
  - rewrite Nat.add_succ_r. cbn [Py.hex_fixed]. rewrite IH, string_app_assoc.
    do 2 f_equal. rewrite Nat2N.inj_succ, N.pow_succ_r', N.Div0.div_div. done.
Qed.

Lemma substring_prefix (a b : string) :
  String.substring 0 (String.length a) (a +:+ b) = a.
Proof.
  induction a as [|x a IH]; [by destruct b|].
  rewrite string_app_cons. cbn [String.length String.substring]. by f_equal.
Qed.

Lemma hex_digit_value d : (d < 16)%N → PyStr.hex_value (Py.hex_digit d) = Some d.
Proof.
  intros Hd.
  assert (d = 0 ∨ d = 1 ∨ d = 2 ∨ d = 3 ∨ d = 4 ∨ d = 5 ∨ d = 6 ∨ d = 7 ∨ d = 8
          ∨ d = 9 ∨ d = 10 ∨ d = 11 ∨ d = 12 ∨ d = 13 ∨ d = 14 ∨ d = 15)%N
    as H by lia.
  repeat destruct H as [->|H]; try reflexivity. by subst.
Qed.

Lemma hex_digit_not_dash d : Ascii.eqb (Py.hex_digit d) "-" = false.
Proof.
  unfold Py.hex_digit.
  destruct d as [|p]; [reflexivity|].
  destruct p as [p|p|]; try reflexivity;
    (destruct p as [p|p|]; try reflexivity;
     (destruct p as [p|p|]; try reflexivity;
      (destruct p as [p|p|]; reflexivity))).
Qed.

Lemma before_dash_hex_fixed width n (t : string) :
  PyStr.before_dash (Py.hex_fixed width n +:+ t) =
    Py.hex_fixed width n +:+ PyStr.before_dash t.
Proof.
  revert n t. induction width as [|w IH]; intros n t; [done|].
  cbn [Py.hex_fixed]. rewrite !string_app_assoc, IH. f_equal.
  rewrite !string_app_cons. cbn [PyStr.before_dash].
  by rewrite hex_digit_not_dash.
Qed.

Lemma digits16_app acc (a b : string) :
  PyStr.digits16 acc (a +:+ b) =
    match PyStr.digits16 acc a with
    | Some x => PyStr.digits16 x b
    | None => None
    end.
Proof.
  revert acc. induction a as [|c a IH]; intros acc; [done|].
  rewrite string_app_cons. cbn [PyStr.digits16].
  destruct (PyStr.hex_value c); [apply IH|done].
Qed.

Lemma digits16_hex_fixed acc width n :
  PyStr.digits16 acc (Py.hex_fixed width n) =
    Some (acc * 16 ^ N.of_nat width + n mod 16 ^ N.of_nat width)%N.
Proof.
  revert acc n. induction width as [|w IH]; intros acc n.
  - cbn [Py.hex_fixed PyStr.digits16 N.of_nat]. f_equal.
    rewrite N.pow_0_r, N.mod_1_r. lia.
  - cbn [Py.hex_fixed]. rewrite digits16_app, IH. cbn [PyStr.digits16].
    rewrite hex_digit_value by (apply N.mod_lt; lia).
    cbn [PyStr.digits16]. f_equal.
    rewrite Nat2N.inj_succ, N.pow_succ_r'.
    rewrite (N.Div0.mod_mul_r n 16 (16 ^ N.of_nat w)). lia.
Qed.

Lemma int16_str_uuid u :
  PyStr.int16 (PyStr.before_dash (Py.str_uuid u)) =
    Some (Z.of_N ((u / 2 ^ 96) mod 2 ^ 32)).
Proof.
  unfold Py.str_uuid. cbv zeta.
  change (Py.hex_fixed 32 u) with (Py.hex_fixed (8 + 24) u).
  rewrite (hex_fixed_add 8 24 u).
  pose proof (substring_prefix (Py.hex_fixed 8 (u / 16 ^ N.of_nat 24))
                (Py.hex_fixed 24 u)) as Hprefix.
  rewrite hex_fixed_length in Hprefix. rewrite Hprefix.
  rewrite before_dash_hex_fixed. rewrite string_app_cons.
  cbn [PyStr.before_dash]. change (Ascii.eqb "-" "-") with true. cbv iota.
  rewrite string_app_nil_r.
  unfold PyStr.int16.
  destruct (Py.hex_fixed 8 (u / 16 ^ N.of_nat 24)) as [|c s] eqn:Hs.
  { apply (f_equal String.length) in Hs. by rewrite hex_fixed_length in Hs. }
  rewrite <- Hs, digits16_hex_fixed. cbn [fmap option_fmap option_map].
  change (16 ^ N.of_nat 24)%N with (2 ^ 96)%N.
  change (16 ^ N.of_nat 8)%N with (2 ^ 32)%N.
  by rewrite N.mul_0_l, N.add_0_l.
Qed.

(** X9. The integer id the handlers give a message is the number of the
    first eight hex digits of its uuid: [int(str(u).split("-")[0], 16)]
    never raises and is the top 32 bits of the 128-bit uuid, so the id is
    below 2^32, and two messages whose uuids agree on these bits get the
    same id. *)
Theorem message_id_is_top_32_bits row :
  ∃ id,
    PyStr.int16 (PyStr.before_dash (Message.id (MessageModel.of_row row))) = Some id
    ∧ id = Z.of_N ((m_message_id row / 2 ^ 96) mod 2 ^ 32)
    ∧ 0 ≤ id < 2 ^ 32
    ∧ ∀ row',
        ((m_message_id row' / 2 ^ 96) mod 2 ^ 32 =
         (m_message_id row / 2 ^ 96) mod 2 ^ 32)%N →
        PyStr.int16 (PyStr.before_dash (Message.id (MessageModel.of_row row'))) =
          Some id.
Proof.
  eexists. split; [apply int16_str_uuid|].
  split; [done|split].
  - split; [apply N2Z.is_nonneg|]. change (2 ^ 32) with (Z.of_N (2 ^ 32)).
    by apply N2Z.inj_lt, N.mod_upper_bound.
  - intros row' Hsame. cbn [MessageModel.of_row Message.id].
    rewrite int16_str_uuid. by rewrite Hsame.
Qed.

(** * The connection *)

Lemma connect_loop_fails remaining i p :
  (∀ k, (k < remaining)%nat → CassandraClient.outcomes p k ≠ CassandraClient.Connects) →
  ∃ p',
    CassandraClient.connect_loop remaining i p =
      (Some (CassandraClient.Exception
               "Failed to connect to Cassandra after multiple retries."), p')
    ∧ CassandraClient.instance p' = CassandraClient.instance p
    ∧ CassandraClient.cassandra_client p' = CassandraClient.cassandra_client p
    ∧ CassandraClient.slept p' = CassandraClient.slept p + 3 * Z.of_nat remaining
    ∧ length (CassandraClient.log p') =
        (length (CassandraClient.log p) + remaining)%nat
    ∧ ∀ k, CassandraClient.outcomes p' k = CassandraClient.outcomes p (remaining + k).
Proof.
  revert i p. induction remaining as [|remaining IH]; intros i p Hfail.
  - eexists. split; [reflexivity|]. split_and!; try done; lia.
  - cbn [CassandraClient.connect_loop].
    pose proof (Hfail O ltac:(lia)) as H0.
    destruct (CassandraClient.outcomes p O) eqn:Hout; [done|..].
    + edestruct (IH (S i)) as (p' & -> & Hinst & Hclient & Hslept & Hlog & Hout').
      { intros k Hk. cbn. apply Hfail. lia. }
      eexists. split; [reflexivity|]. rewrite Hinst, Hclient, Hslept, Hlog.
      cbn. rewrite length_app. cbn.
      split_and!; try done; try lia;
        (intros k; rewrite Hout'; cbn; f_equal; lia).
    + edestruct (IH (S i)) as (p' & -> & Hinst & Hclient & Hslept & Hlog & Hout').
      { intros k Hk. cbn. apply Hfail. lia. }
      eexists. split; [reflexivity|]. rewrite Hinst, Hclient, Hslept, Hlog.
      cbn. rewrite length_app. cbn.
      split_and!; try done; try lia;
        (intros k; rewrite Hout'; cbn; f_equal; lia).
Qed.

Lemma connect_loop_succeeds remaining i p c n :
  CassandraClient.instance p = Some c →
  (n < remaining)%nat →
  (∀ k, (k < n)%nat → CassandraClient.outcomes p k ≠ CassandraClient.Connects) →
  CassandraClient.outcomes p n = CassandraClient.Connects →
  ∃ p',
    CassandraClient.connect_loop remaining i p = (None, p')
    ∧ CassandraClient.instance p' =
        Some {| CassandraClient.initialized := CassandraClient.initialized c;
                CassandraClient.session := true |}
    ∧ CassandraClient.cassandra_client p' = CassandraClient.cassandra_client p
    ∧ CassandraClient.slept p' = CassandraClient.slept p + 3 * Z.of_nat n
    ∧ length (CassandraClient.log p') = (length (CassandraClient.log p) + n + 1)%nat
    ∧ ∀ k, CassandraClient.outcomes p' k = CassandraClient.outcomes p (S n + k).
Proof.
  revert remaining i p. induction n as [|n IH]; intros remaining i p Hc Hn Hfail Hup.
  - destruct remaining as [|remaining]; [lia|].
    cbn [CassandraClient.connect_loop]. rewrite Hup.
    eexists. split; [reflexivity|].
    unfold CassandraClient.set_session. cbn. rewrite Hc. cbn. rewrite length_app. cbn.
    split_and!; try done; lia.
  - destruct remaining as [|remaining]; [lia|].
    cbn [CassandraClient.connect_loop].
    pose proof (Hfail O ltac:(lia)) as H0.
    destruct (CassandraClient.outcomes p O) eqn:Hout; [done|..].
    + edestruct (IH remaining (S i)) as (p' & -> & Hinst & Hclient & Hslept & Hlog & Hout');
        [done|lia|intros k Hk; cbn; apply Hfail; lia|exact Hup|].
      eexists. split; [reflexivity|]. rewrite Hinst, Hclient, Hslept, Hlog.
      cbn. rewrite length_app. cbn.
      split_and!; try done; try lia.
    + edestruct (IH remaining (S i)) as (p' & -> & Hinst & Hclient & Hslept & Hlog & Hout');
        [done|lia|intros k Hk; cbn; apply Hfail; lia|exact Hup|].
      eexists. split; [reflexivity|]. rewrite Hinst, Hclient, Hslept, Hlog.
      cbn. rewrite length_app. cbn.
      split_and!; try done; try lia.
Qed.

(** X10. [connect] tries at most ten times, three seconds apart. If the
    first attempt that gives a session is attempt number [n] (from 0) with
    [n < 10], it returns with the session set after [3 * n] seconds of sleep
    and [n + 1] attempts; if none of ten attempts gives a session, it raises
    after ten attempts and thirty seconds of sleep (it sleeps after the last
    failure too) and leaves the session as it was. *)
Theorem connect_retries_ten_times p c :
  CassandraClient.instance p = Some c →
  (∀ n,
     (n < 10)%nat →
     (∀ k, (k < n)%nat → CassandraClient.outcomes p k ≠ CassandraClient.Connects) →
     CassandraClient.outcomes p n = CassandraClient.Connects →
     ∃ p',
       CassandraClient.connect p = (None, p')
       ∧ CassandraClient.has_session p' = true
       ∧ CassandraClient.slept p' = CassandraClient.slept p + 3 * Z.of_nat n
       ∧ ∀ k, CassandraClient.outcomes p' k = CassandraClient.outcomes p (S n + k))
  ∧ ((∀ k, (k < 10)%nat → CassandraClient.outcomes p k ≠ CassandraClient.Connects) →
     ∃ p',
       CassandraClient.connect p =
         (Some (CassandraClient.Exception
                  "Failed to connect to Cassandra after multiple retries."), p')
       ∧ CassandraClient.has_session p' = CassandraClient.has_session p
       ∧ CassandraClient.slept p' = CassandraClient.slept p + 30
       ∧ ∀ k, CassandraClient.outcomes p' k = CassandraClient.outcomes p (10 + k)).
Proof.
  intros Hc. split.
  - intros n Hn Hfail Hup.
    destruct (connect_loop_succeeds 10 O p c n Hc Hn Hfail Hup)
      as (p' & Hrun & Hinst & _ & Hslept & _ & Hout).
    exists p'. split; [exact Hrun|].
    unfold CassandraClient.has_session. by rewrite Hinst.
  - intros Hfail.
    destruct (connect_loop_fails 10 O p Hfail)
      as (p' & Hrun & Hinst & _ & Hslept & _ & Hout).
    exists p'. split; [exact Hrun|].
    unfold CassandraClient.has_session. by rewrite Hinst.
Qed.

Lemma connect_retries_ten_times_witness :
  ∃ p',
    CassandraClient.connect
      (CassandraClient.new (CassandraClient.fresh (Cluster.up_at 3))) = (None, p')
    ∧ CassandraClient.has_session p' = true
    ∧ CassandraClient.slept p' = 9.
Proof.
  destruct (connect_retries_ten_times
              (CassandraClient.new (CassandraClient.fresh (Cluster.up_at 3)))
              {| CassandraClient.initialized := false;
                 CassandraClient.session := false |} eq_refl) as [Hup _].
  destruct (Hup 3%nat) as (p' & Hrun & Hsession & Hslept & _); [lia| |done|].
  - intros k Hk. cbn. unfold Cluster.up_at.
    by destruct (Nat.ltb_spec k 3); [|lia].
  - by exists p'.
Defined.

Lemma get_cassandra_client_fails p :
  unstarted p →
  (∀ k, (k < 10)%nat → CassandraClient.outcomes p k ≠ CassandraClient.Connects) →
  ∃ e p',
    CassandraClient.get_cassandra_client p = (Some e, p')
    ∧ unstarted p'
    ∧ CassandraClient.slept p' = CassandraClient.slept p + 30
    ∧ ∀ k, CassandraClient.outcomes p' k = CassandraClient.outcomes p (10 + k).
Proof.
  intros [Hclient Hinit] Hfail.
  unfold CassandraClient.get_cassandra_client. rewrite Hclient.
  unfold CassandraClient.construct, CassandraClient.new, CassandraClient.init.
  destruct (CassandraClient.instance p) as [c|] eqn:Hinst.
  - rewrite Hinst, (Hinit c eq_refl).
    unfold CassandraClient.connect, CassandraClient.retries.
    destruct (connect_loop_fails 10 O (CassandraClient.set_session false p))
      as (p' & -> & Hinst' & Hclient' & Hslept & _ & Hout).
    { intros k Hk. unfold CassandraClient.set_session. rewrite Hinst. by apply Hfail. }
    eexists _, p'. split; [reflexivity|].
    unfold CassandraClient.set_session in *. rewrite Hinst in *.
    cbn in Hinst', Hclient', Hslept, Hout.
    split_and!; [split|done|done].
    + by rewrite Hclient'.
    + intros c'. rewrite Hinst'. intros [= <-]. cbn. by apply Hinit.
  - cbn [CassandraClient.set_client CassandraClient.instance
         CassandraClient.initialized].
    unfold CassandraClient.connect, CassandraClient.retries.
    edestruct (connect_loop_fails 10 O) as (p' & -> & Hinst' & Hclient' & Hslept & _ & Hout).
    { intros k Hk. cbn. by apply Hfail. }
    eexists _, p'. split; [reflexivity|].
    cbn in Hinst', Hclient', Hslept, Hout.
    split_and!; [split|done|done].
    + by rewrite Hclient'.
    + intros c'. rewrite Hinst'. by intros [= <-].
Qed.

Lemma get_cassandra_client_succeeds p n :
  unstarted p →
  (n < 10)%nat →
  (∀ k, (k < n)%nat → CassandraClient.outcomes p k ≠ CassandraClient.Connects) →
  CassandraClient.outcomes p n = CassandraClient.Connects →
  ∃ p',
    CassandraClient.get_cassandra_client p = (None, p')
    ∧ CassandraClient.cassandra_client p' = true
    ∧ CassandraClient.has_session p' = true
    ∧ CassandraClient.slept p' = CassandraClient.slept p + 3 * Z.of_nat n
    ∧ ∀ k, CassandraClient.outcomes p' k = CassandraClient.outcomes p (S n + k).
Proof.
  intros [Hclient Hinit] Hn Hfail Hup.
  unfold CassandraClient.get_cassandra_client. rewrite Hclient.
  unfold CassandraClient.construct, CassandraClient.new, CassandraClient.init.
  destruct (CassandraClient.instance p) as [c|] eqn:Hinst.
  - rewrite Hinst, (Hinit c eq_refl).
    unfold CassandraClient.connect, CassandraClient.retries.
    destruct (connect_loop_succeeds 10 O (CassandraClient.set_session false p)
                {| CassandraClient.initialized := CassandraClient.initialized c;
                   CassandraClient.session := false |} n)
      as (p' & -> & Hinst' & Hclient' & Hslept & _ & Hout);
      [by unfold CassandraClient.set_session; rewrite Hinst|done
      |by unfold CassandraClient.set_session; rewrite Hinst
      |by unfold CassandraClient.set_session; rewrite Hinst|].
    eexists. split; [reflexivity|].
    unfold CassandraClient.set_session in Hslept, Hout. rewrite Hinst in Hslept, Hout.
    unfold CassandraClient.has_session, CassandraClient.set_initialized.
    rewrite Hinst'. cbn. split_and!; done.
  - cbn [CassandraClient.set_client CassandraClient.instance
         CassandraClient.initialized].
    unfold CassandraClient.connect, CassandraClient.retries.
    edestruct (connect_loop_succeeds 10 O) as (p' & -> & Hinst' & Hclient' & Hslept & _ & Hout);
      [reflexivity|exact Hn|exact Hfail|exact Hup|].
    eexists. split; [reflexivity|].
    unfold CassandraClient.has_session, CassandraClient.set_initialized.
    rewrite Hinst'. cbn. split_and!; done.
Qed.

Lemma unstarted_sleep_logger seconds r p :
  unstarted p → unstarted (CassandraClient.sleep seconds (CassandraClient.logger r p)).
Proof. by intros [? ?]. Qed.

Lemma startup_loop_gives_up remaining i p :
  unstarted p →
  (∀ k, (k < 10 * remaining)%nat →
        CassandraClient.outcomes p k ≠ CassandraClient.Connects) →
  ∃ p',
    CassandraClient.startup_loop remaining i p = (Some (CassandraClient.SystemExit 1), p')
    ∧ CassandraClient.slept p' = CassandraClient.slept p + 33 * Z.of_nat remaining
    ∧ ∀ k, CassandraClient.outcomes p' k = CassandraClient.outcomes p (10 * remaining + k).
Proof.
  revert i p. induction remaining as [|remaining IH]; intros i p Hp Hfail.
  - eexists. split; [reflexivity|]. cbn. split; [lia|done].
  - cbn [CassandraClient.startup_loop].
    destruct (get_cassandra_client_fails p Hp) as (e & p1 & -> & Hp1 & Hslept & Hout).
    { intros k Hk. apply Hfail. lia. }
    edestruct (IH (S i)) as (p' & -> & Hslept' & Hout').
    { apply unstarted_sleep_logger, Hp1. }
    { intros k Hk. cbn. rewrite Hout. apply Hfail. lia. }
    eexists. split; [reflexivity|]. rewrite Hslept'. cbn. rewrite Hslept.
    split; [lia|]. intros k. rewrite Hout'. cbn. rewrite Hout. f_equal. lia.
Qed.

Lemma startup_loop_connects remaining i p n :
  unstarted p →
  (n < 10 * remaining)%nat →
  (∀ k, (k < n)%nat → CassandraClient.outcomes p k ≠ CassandraClient.Connects) →
  CassandraClient.outcomes p n = CassandraClient.Connects →
  ∃ p',
    CassandraClient.startup_loop remaining i p = (None, p')
    ∧ CassandraClient.has_session p' = true
    ∧ CassandraClient.slept p' =
        CassandraClient.slept p + 3 * Z.of_nat n + 3 * (Z.of_nat n / 10)
    ∧ ∀ k, CassandraClient.outcomes p' k = CassandraClient.outcomes p (S n + k).
Proof.
  revert i p n. induction remaining as [|remaining IH]; intros i p n Hp Hn Hfail Hup;
    [lia|].
  cbn [CassandraClient.startup_loop].
  destruct (decide (n < 10)%nat) as [Hlt|Hge].
  - destruct (get_cassandra_client_succeeds p n Hp Hlt Hfail Hup)
      as (p1 & -> & _ & Hsession & Hslept & Hout).
    unfold CassandraClient.get_session. rewrite Hsession.
    eexists. split; [reflexivity|]. cbn.
    split; [exact Hsession|]. split; [|exact Hout].
    rewrite Hslept, Z.div_small by lia. lia.
  - destruct (get_cassandra_client_fails p Hp) as (e & p1 & -> & Hp1 & Hslept & Hout).
    { intros k Hk. apply Hfail. lia. }
    edestruct (IH (S i)
                 (CassandraClient.sleep 3
                    (CassandraClient.logger
                       (CassandraClient.NotReadyYet (i + 1) CassandraClient.max_retries)
                       p1))
                 (n - 10)%nat) as (p' & -> & Hsession & Hslept' & Hout').
    { apply unstarted_sleep_logger, Hp1. }
    { lia. }
    { intros k Hk. cbn. rewrite Hout. apply Hfail. lia. }
    { cbn. rewrite Hout. by replace (10 + (n - 10))%nat with n by lia. }
    eexists. split; [reflexivity|]. split; [exact Hsession|].
    rewrite Hslept'. cbn. rewrite Hslept. split.
    + rewrite Nat2Z.inj_sub by lia.
      assert ((Z.of_nat n - Z.of_nat 10) / 10 = Z.of_nat n / 10 - 1) as ->.
      { replace (Z.of_nat n - Z.of_nat 10) with (Z.of_nat n + (-1) * 10) by lia.
        rewrite Z.div_add by lia. lia. }
      lia.
    + intros k. rewrite Hout'. cbn. rewrite Hout. f_equal. lia.
Qed.

(** X11. [startup_event] in a process that has no client yet: the
    application tries up to twenty times to get its client, and each try
    makes up to ten attempts to connect. If the first attempt that gives a
    session is attempt number [n < 200], the application starts with a
    session after [n + 1] attempts and [3 * n + 3 * (n / 10)] seconds of
    sleep; if none of 200 attempts gives a session, it exits with code 1
    after 200 attempts and 660 seconds of sleep. *)
Theorem startup_event_from_scratch outcomes :
  (∀ n,
     (n < 200)%nat →
     (∀ k, (k < n)%nat → outcomes k ≠ CassandraClient.Connects) →
     outcomes n = CassandraClient.Connects →
     ∃ p',
       CassandraClient.startup_event (CassandraClient.fresh outcomes) = (None, p')
       ∧ CassandraClient.has_session p' = true
       ∧ CassandraClient.slept p' = 3 * Z.of_nat n + 3 * (Z.of_nat n / 10)
       ∧ ∀ k, CassandraClient.outcomes p' k = outcomes (S n + k)%nat)
  ∧ ((∀ k, (k < 200)%nat → outcomes k ≠ CassandraClient.Connects) →
     ∃ p',
       CassandraClient.startup_event (CassandraClient.fresh outcomes) =
         (Some (CassandraClient.SystemExit 1), p')
       ∧ CassandraClient.slept p' = 660
       ∧ ∀ k, CassandraClient.outcomes p' k = outcomes (200 + k)%nat).
Proof.
  assert (unstarted (CassandraClient.logger CassandraClient.Initializing
                       (CassandraClient.fresh outcomes))) as Hp by (by split).
  split.
  - intros n Hn Hfail Hup.
    destruct (startup_loop_connects 20 O _ n Hp) as (p' & Hrun & Hsession & Hslept & Hout);
      [lia|exact Hfail|exact Hup|].
    exists p'. split; [exact Hrun|]. split; [exact Hsession|].
    split; [|exact Hout]. rewrite Hslept. cbn. lia.
  - intros Hfail.
    destruct (startup_loop_gives_up 20 O _ Hp) as (p' & Hrun & Hslept & Hout).
    { intros k Hk. apply Hfail. lia. }
    exists p'. split; [exact Hrun|]. split; [|exact Hout]. rewrite Hslept. cbn. lia.
Qed.

Lemma startup_event_from_scratch_witness :
  (∃ p',
     CassandraClient.startup_event (CassandraClient.fresh (Cluster.up_at 25)) =
       (None, p')
     ∧ CassandraClient.slept p' = 81)
  ∧ ∃ p',
      CassandraClient.startup_event (CassandraClient.fresh Cluster.down) =
        (Some (CassandraClient.SystemExit 1), p')
      ∧ CassandraClient.slept p' = 660.
Proof.
  split.
  - destruct (startup_event_from_scratch (Cluster.up_at 25)) as [Hup _].
    destruct (Hup 25%nat) as (p' & Hrun & _ & Hslept & _); [lia| |done|].
    + intros k Hk. unfold Cluster.up_at. by destruct (Nat.ltb_spec k 25); [|lia].
    + exists p'. split; [exact Hrun|exact Hslept].
  - destruct (startup_event_from_scratch Cluster.down) as [_ Hdown].
    destruct Hdown as (p' & Hrun & Hslept & _); [done|].
    exists p'. split; [exact Hrun|exact Hslept].
Defined.

Lemma connect_loop_returns remaining i p p' c :
  CassandraClient.instance p = Some c →
  CassandraClient.connect_loop remaining i p = (None, p') →
  CassandraClient.has_session p' = true.
Proof.
  revert i p c. induction remaining as [|remaining IH]; intros i p c Hc Hrun; [done|].
  cbn [CassandraClient.connect_loop] in Hrun.
  destruct (CassandraClient.outcomes p O).
  - injection Hrun as <-.
    unfold CassandraClient.has_session, CassandraClient.set_session. cbn.
    by rewrite Hc.
  - by eapply IH; [|exact Hrun].
  - by eapply IH; [|exact Hrun].
Qed.

(** X12. Once [get_cassandra_client()] has returned in a process that had
    no client yet, as it must have for the import of the repositories to
    succeed, [startup_event] starts the application at once: no attempt to
    connect, no sleep, and two records in the log. The twenty tries of
    [startup_event] are then never used, and a cluster that is down at the
    import gets the ten attempts of one [connect] only. *)
Theorem startup_event_after_import p p1 :
  unstarted p →
  CassandraClient.get_cassandra_client p = (None, p1) →
  ∃ p2,
    CassandraClient.startup_event p1 = (None, p2)
    ∧ CassandraClient.has_session p2 = true
    ∧ CassandraClient.slept p2 = CassandraClient.slept p1
    ∧ CassandraClient.outcomes p2 = CassandraClient.outcomes p1
    ∧ CassandraClient.log p2 =
        CassandraClient.log p1 ++
        [CassandraClient.Initializing; CassandraClient.ConnectionEstablished].
Proof.
  intros [Hclient Hinit] Hrun.
  assert (CassandraClient.cassandra_client p1 = true
          ∧ CassandraClient.has_session p1 = true) as [Hclient1 Hsession].
  { unfold CassandraClient.get_cassandra_client in Hrun. rewrite Hclient in Hrun.
    destruct (CassandraClient.construct p) as [[e|] p'] eqn:Hconstruct;
      cbv beta iota in Hrun; [done|].
    injection Hrun as <-. split; [done|].
    assert (∀ q c, CassandraClient.instance q = Some c →
                   CassandraClient.initialized c = false →
                   CassandraClient.init q = (None, p') →
                   CassandraClient.has_session p' = true) as Hinit'.
    { intros q c Hq Hc. unfold CassandraClient.init. rewrite Hq, Hc.
      destruct (CassandraClient.connect _) as [[e|] p''] eqn:Hloop;
        cbv beta iota; [done|].
      intros [= <-].
      eapply connect_loop_returns in Hloop;
        [|by unfold CassandraClient.set_session; rewrite Hq].
      unfold CassandraClient.has_session, CassandraClient.set_initialized in *.
      by destruct (CassandraClient.instance p''). }
    unfold CassandraClient.construct, CassandraClient.new in Hconstruct.
    destruct (CassandraClient.instance p) as [c|] eqn:Hinst.
    - by eapply (Hinit' p c); [|apply Hinit|].
    - by eapply Hinit'; [| |exact Hconstruct]. }
  unfold CassandraClient.startup_event, CassandraClient.max_retries.
  cbn [CassandraClient.startup_loop].
  unfold CassandraClient.get_cassandra_client.
  assert (CassandraClient.cassandra_client
            (CassandraClient.logger CassandraClient.Initializing p1) = true) as ->
    by exact Hclient1.
  unfold CassandraClient.get_session.
  assert (CassandraClient.has_session
            (CassandraClient.logger CassandraClient.Initializing p1) = true) as ->
    by exact Hsession.
  eexists. split; [reflexivity|]. split_and!.
  - exact Hsession.
  - reflexivity.
  - reflexivity.
  - cbn. by rewrite <- app_assoc.
Qed.

Lemma startup_event_after_import_witness :
  ∃ p1 p2,
    CassandraClient.get_cassandra_client (CassandraClient.fresh (Cluster.up_at 3)) =
      (None, p1)
    ∧ CassandraClient.startup_event p1 = (None, p2)
    ∧ CassandraClient.slept p2 = 9.
Proof.
  assert (unstarted (CassandraClient.fresh (Cluster.up_at 3))) as Hp by (by split).
  destruct (get_cassandra_client_succeeds _ 3 Hp) as (p1 & Hrun1 & _ & _ & Hslept1 & _);
    [lia| |done|].
  { intros k Hk. cbn. unfold Cluster.up_at. by destruct (Nat.ltb_spec k 3); [|lia]. }
  destruct (startup_event_after_import _ p1 Hp Hrun1) as (p2 & Hrun2 & _ & Hslept2 & _).
  exists p1, p2. split; [exact Hrun1|]. split; [exact Hrun2|].
  rewrite Hslept2. exact Hslept1.
Defined.

(** X13. [CassandraClient.execute] connects when the client has no session.
    With a session it runs the statement at once and uses no attempt. Without
    one it first goes through [connect]: when ten attempts fail it raises the
    exception of [connect] after thirty seconds, and the statement is not
    run, nothing is passed to [logger.error] of [execute], and the store is
    as before; when attempt number [n < 10] gives the session, the statement
    runs after [3 * n] seconds as it would have with a session. *)
Theorem execute_connects_when_without_session p c q w :
  CassandraClient.instance p = Some c →
  (CassandraClient.session c = true →
     CassandraClient.execute q (p, w) = (inr (execute q w).1, (p, (execute q w).2)))
  ∧ (CassandraClient.session c = false →
     (∀ k, (k < 10)%nat → CassandraClient.outcomes p k ≠ CassandraClient.Connects) →
     ∃ p',
       CassandraClient.execute q (p, w) =
         (inl (CassandraClient.Exception
                 "Failed to connect to Cassandra after multiple retries."), (p', w))
       ∧ CassandraClient.has_session p' = false
       ∧ CassandraClient.slept p' = CassandraClient.slept p + 30)
  ∧ (CassandraClient.session c = false →
     ∀ n,
       (n < 10)%nat →
       (∀ k, (k < n)%nat → CassandraClient.outcomes p k ≠ CassandraClient.Connects) →
       CassandraClient.outcomes p n = CassandraClient.Connects →
       ∃ p',
         CassandraClient.execute q (p, w) =
           (inr (execute q w).1, (p', (execute q w).2))
         ∧ CassandraClient.has_session p' = true
         ∧ CassandraClient.slept p' = CassandraClient.slept p + 3 * Z.of_nat n).
Proof.
  intros Hc.
  assert (CassandraClient.has_session p = CassandraClient.session c) as Hsession
    by (unfold CassandraClient.has_session; by rewrite Hc).
  unfold CassandraClient.execute. rewrite Hsession. split_and!.
  - intros ->. by destruct (execute q w).
  - intros Hs Hfail. rewrite Hs.
    unfold CassandraClient.connect, CassandraClient.retries.
    destruct (connect_loop_fails 10 O p Hfail)
      as (p' & -> & Hinst & _ & Hslept & _).
    exists p'. split; [done|]. split; [|done].
    unfold CassandraClient.has_session. by rewrite Hinst, Hc.
  - intros Hs n Hn Hfail Hup. rewrite Hs.
    unfold CassandraClient.connect, CassandraClient.retries.
    destruct (connect_loop_succeeds 10 O p c n Hc Hn Hfail Hup)
      as (p' & -> & Hinst & _ & Hslept & _).
    exists p'. split; [by destruct (execute q w)|]. split; [|done].
    unfold CassandraClient.has_session. by rewrite Hinst.
Qed.

Lemma execute_connects_when_without_session_witness :
  ∃ p',
    CassandraClient.execute (SELECT_conversation_participants 7)
      (CassandraClient.new (CassandraClient.fresh Cluster.down), Example.fresh) =
      (inl (CassandraClient.Exception
              "Failed to connect to Cassandra after multiple retries."),
       (p', Example.fresh))
    ∧ CassandraClient.slept p' = 30.
Proof.
  destruct (execute_connects_when_without_session
              (CassandraClient.new (CassandraClient.fresh Cluster.down))
              {| CassandraClient.initialized := false;
                 CassandraClient.session := false |}
              (SELECT_conversation_participants 7) Example.fresh eq_refl)
    as (_ & Hdown & _).
  destruct (Hdown eq_refl) as (p' & Hrun & _ & Hslept); [done|].
  exists p'. split; [exact Hrun|exact Hslept].
Defined.

(** * The request handlers *)

Lemma get_conversation_absent w conversation_id :
  calm 1 w →
  conversation_participants (store w) !! conversation_id = None →
  ConversationModel.get_conversation conversation_id w =
    (Return None, after [SELECT_conversation_participants conversation_id] (store w) w).
Proof.
  intros Hcalm Habsent. unfold ConversationModel.get_conversation.
  exec. cbv beta iota. unfold Cql.participants_where. by rewrite Habsent.
Qed.

Lemma bind_await_return `{schemas : Controller.Schemas} {A B} (m : M A)
    (f : A → Controller.Body B) w a w' :
  m w = (Return a, w') → Controller.bind (Controller.await m) f w = f a w'.
Proof. intros Hrun. unfold Controller.bind, Controller.await. by rewrite Hrun. Qed.

Lemma bind_pure `{schemas : Controller.Schemas} {A B} (a : A)
    (f : A → Controller.Body B) w :
  Controller.bind (Controller.pure a) f w = f a w.
Proof. reflexivity. Qed.

Lemma bind_await_raise `{schemas : Controller.Schemas} {A B} (m : M A)
    (f : A → Controller.Body B) w e w' :
  m w = (Raise e, w') →
  Controller.bind (Controller.await m) f w = (inl (Controller.Driver e), w').
Proof. intros Hrun. unfold Controller.bind, Controller.await. by rewrite Hrun. Qed.

(** X14. The three handlers that look a conversation up answer 404 with the
    detail "Conversation not found" when it has no participants row, before
    anything else: they run the one query for the participants and not the
    query for the messages, so the answer is 404 for every page and limit,
    also for those the store would reject, and whatever the response models
    and the next queries would do. *)
Theorem unknown_conversation_is_not_found `{schemas : Controller.Schemas}
    (str : Controller.Raised → string) w conversation_id before_timestamp page limit :
  calm 1 w →
  conversation_participants (store w) !! conversation_id = None →
  let not_found :=
    {| Controller.status_code := 404;
       Controller.detail := "Conversation not found" |} in
  let w' := after [SELECT_conversation_participants conversation_id] (store w) w in
  Controller.get_conversation_messages str conversation_id page limit w =
    (inl not_found, w')
  ∧ Controller.get_messages_before_timestamp str conversation_id before_timestamp
      page limit w = (inl not_found, w')
  ∧ Controller.get_conversation str conversation_id w = (inl not_found, w').
Proof.
  intros Hcalm Habsent not_found w'.
  pose proof (get_conversation_absent w conversation_id Hcalm Habsent) as Hrun.
  unfold Controller.get_conversation_messages,
    Controller.get_messages_before_timestamp, Controller.get_conversation,
    Controller.except_HTTPException_raise.
  by rewrite !(bind_await_return _ _ _ _ _ Hrun).
Qed.

Lemma unknown_conversation_is_not_found_witness :
  let not_found :=
    {| Controller.status_code := 404;
       Controller.detail := "Conversation not found" |} in
  ∃ w',
    Controller.get_conversation_messages (schemas := Plain.schemas) Plain.str
      42 0 (-3) Example.chatted = (inl not_found, w')
    ∧ Controller.get_conversation (schemas := Plain.schemas) Plain.str
        42 Example.chatted = (inl not_found, w')
    ∧ store w' = store Example.chatted.
Proof.
  intros not_found.
  assert (calm 1 Example.chatted) as Hcalm by (by apply calm_nil).
  destruct (unknown_conversation_is_not_found (schemas := Plain.schemas) Plain.str
              Example.chatted 42 0 0 (-3) Hcalm eq_refl) as (Hmessages & _ & Hget).
  eexists. split; [exact Hmessages|]. split; [exact Hget|reflexivity].
Defined.

Lemma int_id_of_row `{schemas : Controller.Schemas} row w :
  Controller.int_id (Message.id (MessageModel.of_row row)) w =
    (inr (response_id row), w).
Proof.
  unfold Controller.int_id. cbn [MessageModel.of_row Message.id].
  by rewrite int16_str_uuid.
Qed.

Lemma message_response_of_row `{schemas : Controller.Schemas} row w :
  Controller.message_response (MessageModel.of_row row) w =
    (match row_response row with
     | inl x => inl (Controller.Refused x)
     | inr a => inr a
     end, w).
Proof.
  unfold Controller.message_response, Controller.bind.
  rewrite int_id_of_row. unfold row_response, Controller.model.
  cbn [MessageModel.of_row Message.conversation_id Message.sender_id
       Message.receiver_id Message.content Message.created_at].
  by destruct (Controller.MessageResponse _ _ _ _ _ _).
Qed.

Lemma comprehension_message_response `{schemas : Controller.Schemas} rows w :
  Controller.comprehension Controller.message_response (MessageModel.of_row <$> rows) w =
    (match instances (row_response <$> rows) with
     | inl x => inl (Controller.Refused x)
     | inr l => inr l
     end, w).
Proof.
  induction rows as [|row rows IH]; [done|].
  cbn [fmap list_fmap Controller.comprehension instances].
  unfold Controller.bind at 1. rewrite message_response_of_row.
  destruct (row_response row) as [x|a]; [done|].
  unfold Controller.bind. rewrite IH.
  by destruct (instances (row_response <$> rows)).
Qed.

Lemma get_conversation_messages_invalid w conversation_id page limit :
  calm 1 w →
  page * limit ≤ 0 →
  MessageModel.get_conversation_messages conversation_id page limit w =
    (Raise (InvalidRequest "LIMIT must be strictly positive"),
     failed (InvalidRequest "LIMIT must be strictly positive") w).
Proof.
  intros Hcalm Hpos. unfold MessageModel.get_conversation_messages.
  cbv zeta. exec. unfold Cql.limited.
  by destruct (Z.ltb_spec 0 (page * limit)); [lia|].
Qed.

(** X15. [get_conversation_messages] of the message handlers, for a
    conversation that has a participants row and with no query failing. It
    runs three queries: the participants, the newest message (read by
    [get_conversation] and not used) and the page. With a positive fetch
    limit every message of the page window gets its response model, with the
    top 32 bits of its uuid as id, in the order of the partition, and the
    answer is the paginated model with the number of fetched rows as total;
    the first refusal of a response model gives the status 500. With a fetch
    limit that is not positive the store rejects the third query and the
    answer is the status 500 with the text of that error. *)
Theorem messages_of_a_known_conversation `{schemas : Controller.Schemas}
    (str : Controller.Raised → string) w conversation_id page limit e :
  calm 3 w →
  conversation_participants (store w) !! conversation_id = Some e →
  let prefix := "Failed to get conversation messages: " in
  let checks :=
    [SELECT_conversation_participants conversation_id;
     SELECT_messages_by_conversation conversation_id None (Some 1)] in
  (0 < page * limit →
   let fetched :=
     take (Z.to_nat (page * limit)) (Cql.messages_where conversation_id None (store w)) in
   let rows := window fetched ((page - 1) * limit) (page * limit) in
   Controller.get_conversation_messages str conversation_id page limit w =
     (answer str prefix
        (match instances (row_response <$> rows) with
         | inl x => inl x
         | inr data =>
             Controller.PaginatedMessageResponse (Z.of_nat (length fetched))
               page limit data
         end),
      after (checks ++
             [SELECT_messages_by_conversation conversation_id None
                (Some (page * limit))]) (store w) w))
  ∧ (page * limit ≤ 0 →
     Controller.get_conversation_messages str conversation_id page limit w =
       (inl {| Controller.status_code := 500;
               Controller.detail :=
                 prefix +:+
                 str (Controller.Driver
                        (InvalidRequest "LIMIT must be strictly positive")) |},
        failed (InvalidRequest "LIMIT must be strictly positive")
          (after checks (store w) w))).
Proof.
  intros Hcalm Hstored prefix checks.
  assert (calm 2 w) as Hcalm2 by (eapply calm_le; [|done]; lia).
  pose proof (get_conversation_run w conversation_id Hcalm2) as Hget.
  rewrite Hstored in Hget. fold checks in Hget.
  assert (calm 1 (after checks (store w) w)) as Hcalm1 by (unfold checks; calm_tac).
  split.
  - intros Hpos fetched rows.
    unfold Controller.get_conversation_messages, Controller.except_HTTPException_raise.
    rewrite (bind_await_return _ _ _ _ _ Hget).
    cbn [Controller.found]. rewrite bind_pure.
    pose proof (get_conversation_messages_run _ conversation_id page limit Hcalm1 Hpos)
      as Hpage.
    cbv zeta in Hpage. cbn [store after] in Hpage. rewrite after_after in Hpage.
    fold fetched in Hpage. fold rows in Hpage.
    rewrite (bind_await_return _ _ _ _ _ Hpage).
    unfold Controller.paginated_messages, Controller.bind.
    cbn [Page.data Page.total Page.page Page.limit].
    rewrite comprehension_message_response.
    destruct (instances (row_response <$> rows)) as [x|data]; [done|].
    unfold Controller.model, answer.
    by destruct (Controller.PaginatedMessageResponse _ _ _ _).
  - intros Hpos.
    unfold Controller.get_conversation_messages, Controller.except_HTTPException_raise.
    rewrite (bind_await_return _ _ _ _ _ Hget).
    cbn [Controller.found]. rewrite bind_pure.
    by rewrite (bind_await_raise _ _ _ _ _
                  (get_conversation_messages_invalid _ conversation_id page limit
                     Hcalm1 Hpos)).
Qed.

Lemma messages_of_a_known_conversation_witness :
  (∃ w',
     Controller.get_conversation_messages (schemas := Plain.schemas) Plain.str
       1700000000 2 1 Example.chatted =
       (inr (2, 2, 1, [(0, 1700000000, 5, 9, "hi", 1700000003000000)]), w'))
  ∧ ∃ w',
      Controller.get_conversation_messages (schemas := Plain.schemas) Plain.str
        1700000000 0 20 Example.chatted =
        (inl {| Controller.status_code := 500;
                Controller.detail :=
                  "Failed to get conversation messages: LIMIT must be strictly positive" |},
         w').
Proof.
  assert (calm 3 Example.chatted) as Hcalm by (by apply calm_nil).
  destruct (messages_of_a_known_conversation (schemas := Plain.schemas) Plain.str
              Example.chatted 1700000000 2 1 (5, 9, 1700000001500000) Hcalm eq_refl)
    as [Hpage _]; [].
  destruct (messages_of_a_known_conversation (schemas := Plain.schemas) Plain.str
              Example.chatted 1700000000 0 20 (5, 9, 1700000001500000) Hcalm eq_refl)
    as [_ Hinvalid].
  split.
  - eexists. rewrite (Hpage eq_refl). reflexivity.
  - eexists. rewrite (Hinvalid ltac:(done)). reflexivity.
Defined.

(** ** Sending a message *)

Lemma existing_participants s s' rows min_user_id max_user_id :
  conversation_participants s' = conversation_participants s →
  existing s' rows min_user_id max_user_id = existing s rows min_user_id max_user_id.
Proof.
  intros Hp. induction rows as [|row rows IH]; [done|].
  cbn [existing]. by rewrite Hp, IH.
Qed.

Lemma existing_upsert s user_id k v l min_user_id max_user_id :
  existing s (summary_row user_id <$> l) min_user_id max_user_id = Some k.2 →
  existing s (summary_row user_id <$> Clustering.upsert Clustering.summary k v l)
    min_user_id max_user_id = Some k.2.
Proof.
  intros Hfound.
  destruct (existing_Some _ _ _ _ _ Hfound) as (_ & e & _ & _ & Hl & Hpair).
  revert Hfound. induction l as [|x l IH]; intros Hfound; [done|].
  cbn [Clustering.upsert]. destruct (Clustering.summary k x.1).
  - cbn [fmap list_fmap existing summary_row c_conversation_id fst snd].
    by rewrite Hl, Hpair.
  - cbn [fmap list_fmap existing summary_row c_conversation_id fst snd].
    by rewrite Hl, Hpair.
  - cbn [fmap list_fmap existing] in Hfound |- *.
    destruct (conversation_participants s !! c_conversation_id (summary_row user_id x))
      as [e'|]; [|by apply IH].
    destruct (ConversationModel.same_pair
                (participant_row (c_conversation_id (summary_row user_id x)) e')
                min_user_id max_user_id); [done|by apply IH].
Qed.

Lemma existing_insert_summary s0 s r user_id min_user_id max_user_id :
  existing s0 (Cql.summaries_where user_id s) min_user_id max_user_id =
    Some (c_conversation_id r) →
  existing s0 (Cql.summaries_where user_id (Cql.insert_summary r s))
    min_user_id max_user_id = Some (c_conversation_id r).
Proof.
  intros Hfound. rewrite summaries_where_insert. case_decide; [|done].
  by apply (existing_upsert s0 user_id
              (c_last_message_timestamp r, c_conversation_id r)).
Qed.

Lemma existing_conversation_after_message
    s user1_id user2_id sender_id receiver_id content conversation_id w :
  existing_conversation s user1_id user2_id = Some conversation_id →
  existing_conversation
    (replay (create_message_writes sender_id receiver_id content conversation_id w) s)
    user1_id user2_id = Some conversation_id.
Proof.
  intros Hfound. rewrite replay_create_message_writes.
  unfold existing_conversation in *.
  rewrite (existing_participants s) by done.
  apply (existing_insert_summary s _
           (MessageModel.receiver_params sender_id receiver_id content
              conversation_id (clock w O))).
  apply (existing_insert_summary s _
           (MessageModel.sender_params sender_id receiver_id content
              conversation_id (clock w O))).
  exact Hfound.
Qed.

Lemma messages_where_after_message
    s sender_id receiver_id content conversation_id w conversation_id' r :
  r ∈ Cql.messages_where conversation_id' None s →
  m_message_id r ≠ uuids w O →
  r ∈ Cql.messages_where conversation_id' None
        (replay (create_message_writes sender_id receiver_id content conversation_id w) s).
Proof.
  intros Hin Hne. rewrite replay_create_message_writes.
  change (r ∈ Cql.messages_where conversation_id' None
                (Cql.insert_message
                   (MessageModel.params sender_id receiver_id content conversation_id
                      (uuids w O) (clock w O)) s)).
  rewrite messages_where_insert_message. case_decide as Hc; [|done].
  unfold Cql.messages_where in Hin.
  apply list_elem_of_fmap in Hin as (x & -> & Hx).
  apply list_elem_of_fmap. exists x. split; [done|].
  apply (upsert_keeps _); [done|].
  intros Hk. apply Hne. cbn [message_row m_message_id]. by rewrite Hk.
Qed.

Lemma fault_free_tick w : fault_free w → fault_free (tick w).
Proof. by intros H. Qed.

Lemma fault_free_draw w : fault_free w → fault_free (draw w).
Proof. by intros H. Qed.

Lemma send_message_run `{schemas : Controller.Schemas}
    (str : Controller.Raised → string) w sender_id receiver_id content :
  fault_free w →
  let found := existing_conversation (store w) sender_id receiver_id in
  let conversation_id := default (new_conversation_id w) found in
  let created_at := clock w (match found with Some _ => 0 | None => 2 end)%nat in
  let row :=
    MessageModel.params sender_id receiver_id content conversation_id
      (uuids w O) created_at in
  ∃ w',
    Controller.send_message str sender_id receiver_id content w =
      (answer str "Failed to send message: " (row_response row), w')
    ∧ fault_free w'
    ∧ uuids w' O = uuids w 1%nat
    ∧ row ∈ Cql.messages_where conversation_id None (store w')
    ∧ existing_conversation (store w') sender_id receiver_id = Some conversation_id
    ∧ ∀ conversation_id' r,
        r ∈ Cql.messages_where conversation_id' None (store w) →
        m_message_id r ≠ uuids w O →
        r ∈ Cql.messages_where conversation_id' None (store w').
Proof.
  intros Hfree found conversation_id created_at row.
  assert (∀ w1 : World,
            fault_free w1 →
            uuids w1 = uuids w →
            clock w1 O = created_at →
            existing_conversation (store w1) sender_id receiver_id =
              Some conversation_id →
            (∀ conversation_id' r,
               r ∈ Cql.messages_where conversation_id' None (store w) →
               r ∈ Cql.messages_where conversation_id' None (store w1)) →
            ∀ c, Conversation.id c = conversation_id →
            ConversationModel.create_or_get_conversation sender_id receiver_id w =
              (Return (Some c), w1) →
            ∃ w',
              Controller.send_message str sender_id receiver_id content w =
                (answer str "Failed to send message: " (row_response row), w')
              ∧ fault_free w'
              ∧ uuids w' O = uuids w 1%nat
              ∧ row ∈ Cql.messages_where conversation_id None (store w')
              ∧ existing_conversation (store w') sender_id receiver_id =
                  Some conversation_id
              ∧ ∀ conversation_id' r,
                  r ∈ Cql.messages_where conversation_id' None (store w) →
                  m_message_id r ≠ uuids w O →
                  r ∈ Cql.messages_where conversation_id' None (store w')) as Hsend.
  { intros w1 Hfree1 Huuids Hclock Hexisting Hkept c Hid Hrun1.
    pose proof (create_message_run w1 sender_id receiver_id content conversation_id
                  (fault_free_calm 3 w1 Hfree1)) as Hrun2.
    cbv zeta in Hrun2. rewrite Huuids, Hclock in Hrun2.
    eexists. split; [|split_and!].
    - unfold Controller.send_message, Controller.except_Exception.
      rewrite (bind_await_return _ _ _ _ _ Hrun1).
      cbn [Controller.subscript_id]. rewrite bind_pure, Hid.
      rewrite (bind_await_return _ _ _ _ _ Hrun2).
      change {| Message.id := Py.str_uuid (uuids w O);
                Message.conversation_id := conversation_id;
                Message.sender_id := sender_id;
                Message.receiver_id := receiver_id;
                Message.content := content;
                Message.created_at := created_at |}
        with (MessageModel.of_row row).
      rewrite message_response_of_row. unfold answer.
      by destruct (row_response row).
    - by apply fault_free_after, fault_free_tick, fault_free_draw.
    - cbn [uuids after tick draw]. by rewrite Huuids.
    - cbn [store after]. rewrite replay_create_message_writes.
      rewrite Huuids, Hclock. apply message_row_inserted.
    - cbn [store after]. by apply existing_conversation_after_message.
    - intros conversation_id' r Hin Hne. cbn [store after].
      apply messages_where_after_message; [by apply Hkept|by rewrite Huuids]. }
  destruct found as [cid|] eqn:Hfound; unfold found in Hfound.
  - destruct (create_or_get_found w sender_id receiver_id cid Hfree Hfound)
      as (e & Hl & Hpair & Hrun1).
    eapply Hsend; [| | | | | |exact Hrun1]; try done.
    by apply fault_free_after.
  - pose proof (create_or_get_created w sender_id receiver_id
                  (fault_free_calm _ w Hfree) Hfound) as Hrun1.
    eapply Hsend; [| | | | | |exact Hrun1]; try done.
    + by apply fault_free_after, fault_free_tick, fault_free_tick.
    + cbn [store after]. by apply create_or_get_again.
Qed.

(** X16. [send_message] with no query failing. The message is stored in the
    conversation that [create_or_get_conversation] finds for the two users,
    or, when it finds none, in the one it creates under the whole second of
    the clock, and this conversation is the one found for the two users
    afterwards. The response model is called with the top 32 bits of the
    uuid as id; the answer is its instance, or the status 500 when it
    refuses, in which case the message is stored all the same. *)
Theorem send_message_stores_the_message `{schemas : Controller.Schemas}
    (str : Controller.Raised → string) w sender_id receiver_id content :
  fault_free w →
  let found := existing_conversation (store w) sender_id receiver_id in
  let conversation_id := default (new_conversation_id w) found in
  let created_at := clock w (match found with Some _ => 0 | None => 2 end)%nat in
  let row :=
    MessageModel.params sender_id receiver_id content conversation_id
      (uuids w O) created_at in
  ∃ w',
    Controller.send_message str sender_id receiver_id content w =
      (answer str "Failed to send message: " (row_response row), w')
    ∧ row ∈ Cql.messages_where conversation_id None (store w')
    ∧ existing_conversation (store w') sender_id receiver_id = Some conversation_id.
Proof.
  intros Hfree found conversation_id created_at row.
  destruct (send_message_run str w sender_id receiver_id content Hfree)
    as (w' & Hrun & _ & _ & Hrow & Hexisting & _).
  by exists w'.
Qed.

Lemma send_message_stores_the_message_witness :
  fault_free Example.fresh
  ∧ ∃ w' row,
      Controller.send_message (schemas := Plain.schemas) Plain.str 5 9 "hi"
        Example.fresh =
        (inr (0, 1700000000, 5, 9, "hi", 1700000003000000), w')
      ∧ row ∈ Cql.messages_where 1700000000 None (store w')
      ∧ m_content row = "hi"
      ∧ existing_conversation (store w') 5 9 = Some 1700000000.
Proof.
  assert (fault_free Example.fresh) as Hfree by (by apply fault_free_nil).
  split; [done|].
  destruct (send_message_stores_the_message (schemas := Plain.schemas) Plain.str
              Example.fresh 5 9 "hi" Hfree) as (w' & Hrun & Hrow & Hexisting).
  exists w', (MessageModel.params 5 9 "hi" 1700000000 1000 1700000003000000).
  split; [exact Hrun|]. split; [exact Hrow|]. split; [reflexivity|exact Hexisting].
Defined.

Lemma existing_conversation_comm s user1_id user2_id :
  existing_conversation s user2_id user1_id = existing_conversation s user1_id user2_id.
Proof. unfold existing_conversation. by rewrite Z.min_comm, Z.max_comm. Qed.

(** X17. A message and its reply share the conversation. With no query
    failing and two different uuids drawn, after [send_message] from one
    user to another and then [send_message] back, both messages are in the
    partition of one conversation, the one found for the two users, whatever
    the store held before and whatever the response models answered. *)
Theorem reply_goes_to_the_same_conversation `{schemas : Controller.Schemas}
    (str : Controller.Raised → string) w user1_id user2_id content reply :
  fault_free w →
  uuids w 1%nat ≠ uuids w O →
  ∃ conversation_id r1 w1 r2 w2 row1 row2,
    Controller.send_message str user1_id user2_id content w = (r1, w1)
    ∧ Controller.send_message str user2_id user1_id reply w1 = (r2, w2)
    ∧ row1 ∈ Cql.messages_where conversation_id None (store w2)
    ∧ row2 ∈ Cql.messages_where conversation_id None (store w2)
    ∧ (m_sender_id row1, m_receiver_id row1, m_content row1, m_message_id row1) =
        (user1_id, user2_id, content, uuids w O)
    ∧ (m_sender_id row2, m_receiver_id row2, m_content row2, m_message_id row2) =
        (user2_id, user1_id, reply, uuids w 1%nat)
    ∧ existing_conversation (store w2) user1_id user2_id = Some conversation_id.
Proof.
  intros Hfree Huuids.
  destruct (send_message_run str w user1_id user2_id content Hfree)
    as (w1 & Hrun1 & Hfree1 & Huuids1 & Hrow1 & Hexisting1 & _).
  destruct (send_message_run str w1 user2_id user1_id reply Hfree1)
    as (w2 & Hrun2 & _ & _ & Hrow2 & Hexisting2 & Hkept).
  rewrite (existing_conversation_comm (store w1) user1_id user2_id), Hexisting1
    in Hrun2, Hrow2, Hexisting2.
  cbn [default] in Hrun2, Hrow2, Hexisting2.
  eexists _, _, w1, _, w2, _, _.
  split; [exact Hrun1|]. split; [exact Hrun2|].
  split; [apply Hkept; [exact Hrow1|by rewrite Huuids1]|].
  split; [exact Hrow2|].
  split; [reflexivity|]. split; [by rewrite Huuids1|].
  by rewrite <- existing_conversation_comm.
Qed.

Lemma reply_goes_to_the_same_conversation_witness :
  fault_free Example.fresh
  ∧ ∃ conversation_id r1 w1 r2 w2 row1 row2,
      Controller.send_message (schemas := Plain.schemas) Plain.str 9 5 "hi"
        Example.fresh = (r1, w1)
      ∧ Controller.send_message (schemas := Plain.schemas) Plain.str 5 9 "yo" w1 =
          (r2, w2)
      ∧ row1 ∈ Cql.messages_where conversation_id None (store w2)
      ∧ row2 ∈ Cql.messages_where conversation_id None (store w2)
      ∧ m_content row1 = "hi"
      ∧ m_content row2 = "yo".
Proof.
  assert (fault_free Example.fresh) as Hfree by (by apply fault_free_nil).
  split; [done|].
  destruct (reply_goes_to_the_same_conversation (schemas := Plain.schemas) Plain.str
              Example.fresh 9 5 "hi" "yo" Hfree ltac:(done))
    as (c & r1 & w1 & r2 & w2 & row1 & row2
        & Hrun1 & Hrun2 & Hrow1 & Hrow2 & Hfields1 & Hfields2 & _).
  exists c, r1, w1, r2, w2, row1, row2.
  injection Hfields1 as _ _ Hcontent1 _. injection Hfields2 as _ _ Hcontent2 _.
  split; [exact Hrun1|]. split; [exact Hrun2|].
  split; [exact Hrow1|]. split; [exact Hrow2|].
  split; [exact Hcontent1|exact Hcontent2].
Defined.

(** ** The stores the handlers reach *)

Lemma triple_ret P {A} (a : A) (Q : A → Store → Prop) E :
  (∀ s, P s → Q a s) → triple P (mret a : M A) Q E.
Proof. intros H w Hw. by apply H. Qed.

Lemma triple_bind P {A B} (m : M A) (f : A → M B) R Q E :
  triple P m R E → (∀ a, triple (R a) (f a) Q E) → triple P (m ≫= f) Q E.
Proof.
  intros Hm Hf w Hw. rewrite run_bind. specialize (Hm w Hw).
  destruct (m w) as [[a|e] w']; [by apply Hf|done].
Qed.

Lemma triple_datetime_now P (Q : datetime → Store → Prop) E :
  (∀ s t, P s → Q t s) → triple P datetime_now Q E.
Proof. intros H w Hw. by apply H. Qed.

Lemma triple_uuid4 P (Q : uuid → Store → Prop) E :
  (∀ s u, P s → Q u s) → triple P uuid4 Q E.
Proof. intros H w Hw. by apply H. Qed.

Lemma triple_execute P q (Q : list (rows_of q) → Store → Prop) (E : Store → Prop) :
  (∀ s, P s → E s) →
  (∀ s result s', P s → Cql.run q s = inr (result, s') → Q result s') →
  triple P (execute q) Q E.
Proof.
  intros HE HQ w Hw. unfold execute.
  destruct (head (faults w)) as [[e|]|]; [by apply HE|..];
    (destruct (Cql.run q (store w)) as [e|[result s']] eqn:Hrun;
     [by apply HE|by apply (HQ _ _ _ Hw Hrun)]).
Qed.

Lemma triple_keeps P {A} (m : M A) : keeps P m → triple P m (λ _, P) P.
Proof.
  intros H w Hw. specialize (H w Hw). by destruct (m w) as [[a|e] w'].
Qed.

Lemma triple_weaken (P P' : Store → Prop) {A} (m : M A)
    (Q Q' : A → Store → Prop) (E E' : Store → Prop) :
  triple P m Q E →
  (∀ s, P' s → P s) → (∀ a s, Q a s → Q' a s) → (∀ s, E s → E' s) →
  triple P' m Q' E'.
Proof.
  intros H HP HQ HE w Hw. specialize (H w (HP _ Hw)).
  destruct (m w) as [[a|e] w']; auto.
Qed.

Lemma referential_insert_participants r s :
  referential s →
  referential (Cql.insert_participants r s)
  ∧ is_Some (conversation_participants (Cql.insert_participants r s)
               !! p_conversation_id r).
Proof.
  intros [Hsum Hmsg].
  assert (∀ c, is_Some (conversation_participants s !! c) →
               is_Some (conversation_participants (Cql.insert_participants r s) !! c))
    as Hkept.
  { intros c Hc. cbn [Cql.insert_participants conversation_participants].
    rewrite lookup_insert_is_Some.
    destruct (decide (p_conversation_id r = c)); [by left|by right]. }
  split; [split|].
  - intros user_id row Hin. by apply Hkept, (Hsum user_id).
  - intros conversation_id row Hin. by apply Hkept, (Hmsg conversation_id row).
  - cbn [Cql.insert_participants conversation_participants].
    by rewrite lookup_insert_eq.
Qed.

Lemma referential_insert_summary r s :
  referential s →
  is_Some (conversation_participants s !! c_conversation_id r) →
  referential (Cql.insert_summary r s).
Proof.
  intros [Hsum Hmsg] Hr. split.
  - intros user_id row [->|Hin]%summaries_where_insert_inv; [done|].
    by apply (Hsum user_id).
  - exact Hmsg.
Qed.

Lemma referential_insert_message r s :
  referential s →
  is_Some (conversation_participants s !! m_conversation_id r) →
  referential (Cql.insert_message r s).
Proof.
  intros [Hsum Hmsg] Hr. split; [exact Hsum|].
  intros conversation_id row. rewrite messages_where_insert_message.
  case_decide as Hc; [|by apply Hmsg].
  intros _. by rewrite <- Hc.
Qed.

Lemma referential_empty : referential empty_store.
Proof.
  split.
  - intros user_id row. unfold Cql.summaries_where.
    cbn [empty_store conversations_by_user]. rewrite lookup_total_empty.
    by intros ?%elem_of_nil.
  - intros conversation_id row. unfold Cql.messages_where.
    cbn [empty_store messages_by_conversation]. rewrite lookup_total_empty.
    by intros ?%elem_of_nil.
Qed.

Ltac triple_exec :=
  match goal with
  | |- triple ?P (execute ?q) ?Q ?E => refine (triple_execute P q Q E _ _)
  end.

Lemma triple_for_conversations (P : Store → Prop) rows min_user_id max_user_id :
  triple P (ConversationModel.for_conversations rows min_user_id max_user_id)
    (λ found s,
       P s ∧ ∀ conversation_id,
               found = Some conversation_id →
               is_Some (conversation_participants s !! conversation_id))
    P.
Proof.
  induction rows as [|row rows IH]; cbn [ConversationModel.for_conversations].
  - apply triple_ret. by intros s Hs.
  - cbv zeta.
    apply (triple_bind _ _ _
             (λ result s,
                P s ∧ (result ≠ [] →
                       is_Some (conversation_participants s
                                  !! c_conversation_id row)))).
    + triple_exec; [done|].
      intros s result s' Hs Hrun. cbn [Cql.run] in Hrun.
      injection Hrun as <- <-. split; [done|].
      unfold Cql.participants_where.
      by destruct (conversation_participants s !! c_conversation_id row).
    + intros [|participant result].
      * eapply triple_weaken; [exact IH|by intros s [Hs _]|done|done].
      * destruct (ConversationModel.same_pair participant _ _).
        -- apply triple_ret. intros s [Hs Hrow]. split; [done|].
           intros c [= <-]. by apply Hrow.
        -- eapply triple_weaken; [exact IH|by intros s [Hs _]|done|done].
Qed.

Lemma triple_get_conversation (P : Store → Prop) conversation_id :
  triple P (ConversationModel.get_conversation conversation_id)
    (λ found s,
       P s ∧ ∀ c, found = Some c →
                  is_Some (conversation_participants s !! Conversation.id c))
    P.
Proof.
  unfold ConversationModel.get_conversation.
  apply (triple_bind _ _ _
           (λ result s,
              P s ∧ ∀ row, row ∈ result →
                           is_Some (conversation_participants s
                                      !! p_conversation_id row))).
  - triple_exec; [done|].
    intros s result s' Hs Hrun. cbn [Cql.run] in Hrun.
    injection Hrun as <- <-. split; [done|].
    unfold Cql.participants_where. intros row.
    destruct (conversation_participants s !! conversation_id) eqn:Hl;
      [|by intros ?%elem_of_nil].
    intros ->%list_elem_of_singleton. cbn [participant_row p_conversation_id].
    by rewrite Hl.
  - intros [|conversation rows].
    + apply triple_ret. by intros s [Hs _].
    + apply (triple_bind _ _ _
               (λ _ s,
                  P s ∧ is_Some (conversation_participants s
                                   !! p_conversation_id conversation))).
      * triple_exec; [by intros s [Hs _]|].
        intros s result s' [Hs Hrow] Hrun.
        rewrite (run_read_only
                   (SELECT_messages_by_conversation conversation_id None (Some 1))
                   _ _ _ eq_refl Hrun).
        split; [done|]. apply Hrow. by left.
      * intros last_message_results. apply triple_ret.
        intros s [Hs Hrow]. split; [done|]. by intros c [= <-].
Qed.

Lemma triple_create_or_get_conversation user1_id user2_id :
  triple referential
    (ConversationModel.create_or_get_conversation user1_id user2_id)
    (λ found s,
       referential s
       ∧ ∀ c, found = Some c →
              is_Some (conversation_participants s !! Conversation.id c))
    referential.
Proof.
  unfold ConversationModel.create_or_get_conversation. cbv zeta.
  apply (triple_bind _ _ _ (λ _, referential)).
  { apply triple_keeps.
    exact (keeps_read referential
             (SELECT_conversations_by_user (Z.min user1_id user2_id) None) eq_refl). }
  intros conversations.
  eapply triple_bind; [apply triple_for_conversations|].
  intros [conversation_id|].
  { eapply triple_weaken;
      [apply (triple_get_conversation referential)|by intros s [Hs _]|done|done]. }
  apply (triple_bind _ _ _ (λ _, referential));
    [apply triple_datetime_now; by intros s t [Hs _]|].
  intros now.
  apply (triple_bind _ _ _ (λ _, referential)); [by apply triple_datetime_now|].
  intros created_at.
  set (J := λ s, referential s
                 ∧ is_Some (conversation_participants s !! Py.int_timestamp now)).
  apply (triple_bind _ _ _ (λ _, J)).
  { triple_exec; [done|].
    intros s result s' Hs Hrun. cbn [Cql.run] in Hrun. injection Hrun as _ <-.
    by apply (referential_insert_participants
                (ConversationModel.create_params _ _ _ _)). }
  intros _.
  apply (triple_bind _ _ _ (λ _, J)).
  { triple_exec; [by intros s [Hs _]|].
    intros s result s' [Hs Hc] Hrun. cbn [Cql.run] in Hrun. injection Hrun as _ <-.
    split; [by apply referential_insert_summary|done]. }
  intros _.
  apply (triple_bind _ _ _ (λ _, J)).
  { triple_exec; [by intros s [Hs _]|].
    intros s result s' [Hs Hc] Hrun. cbn [Cql.run] in Hrun. injection Hrun as _ <-.
    split; [by apply referential_insert_summary|done]. }
  intros _. apply triple_ret. intros s [Hs Hc]. split; [done|]. by intros c [= <-].
Qed.

Lemma triple_create_message sender_id receiver_id content conversation_id :
  triple
    (λ s, referential s ∧ is_Some (conversation_participants s !! conversation_id))
    (MessageModel.create_message sender_id receiver_id content conversation_id)
    (λ _, referential) referential.
Proof.
  set (J := λ s, referential s
                 ∧ is_Some (conversation_participants s !! conversation_id)).
  unfold MessageModel.create_message.
  apply (triple_bind _ _ _ (λ _, J)); [by apply triple_uuid4|]. intros message_id.
  apply (triple_bind _ _ _ (λ _, J)); [by apply triple_datetime_now|].
  intros message_timestamp.
  apply (triple_bind _ _ _ (λ _, J)).
  { triple_exec; [by intros s [Hs _]|].
    intros s result s' [Hs Hc] Hrun. cbn [Cql.run] in Hrun. injection Hrun as _ <-.
    split; [by apply referential_insert_message|done]. }
  intros _.
  apply (triple_bind _ _ _ (λ _, J)).
  { triple_exec; [by intros s [Hs _]|].
    intros s result s' [Hs Hc] Hrun. cbn [Cql.run] in Hrun. injection Hrun as _ <-.
    split; [by apply referential_insert_summary|done]. }
  intros _.
  apply (triple_bind _ _ _ (λ _, J)).
  { triple_exec; [by intros s [Hs _]|].
    intros s result s' [Hs Hc] Hrun. cbn [Cql.run] in Hrun. injection Hrun as _ <-.
    split; [by apply referential_insert_summary|done]. }
  intros _. apply triple_ret. by intros s [Hs _].
Qed.

Lemma body_triple_await `{schemas : Controller.Schemas} P {A} (m : M A)
    (Q : A → Store → Prop) E :
  triple P m Q E → body_triple P (Controller.await m) Q E.
Proof.
  intros H w Hw. specialize (H w Hw). unfold Controller.await.
  by destruct (m w) as [[a|e] w'].
Qed.

Lemma body_triple_bind `{schemas : Controller.Schemas} P {A B}
    (b : Controller.Body A) (f : A → Controller.Body B) R Q E :
  body_triple P b R E → (∀ a, body_triple (R a) (f a) Q E) →
  body_triple P (Controller.bind b f) Q E.
Proof.
  intros Hb Hf w Hw. specialize (Hb w Hw). unfold Controller.bind.
  destruct (b w) as [[r|a] w']; [done|by apply Hf].
Qed.

Lemma body_triple_pure `{schemas : Controller.Schemas} P {A} (a : A)
    (Q : A → Store → Prop) E :
  (∀ s, P s → Q a s) → body_triple P (Controller.pure a) Q E.
Proof. intros H w Hw. by apply H. Qed.

Lemma body_triple_raise `{schemas : Controller.Schemas} P {A} r
    (Q : A → Store → Prop) (E : Store → Prop) :
  (∀ s, P s → E s) → body_triple P (Controller.raise r : Controller.Body A) Q E.
Proof. intros H w Hw. by apply H. Qed.

(** A body that leaves the world as it is. *)
Lemma body_triple_still `{schemas : Controller.Schemas} (P : Store → Prop) {A}
    (b : Controller.Body A) :
  (∀ w, (b w).2 = w) → body_triple P b (λ _, P) P.
Proof.
  intros H w Hw. specialize (H w).
  destruct (b w) as [[r|a] w']; cbn [snd] in H; by subst.
Qed.

Lemma model_still `{schemas : Controller.Schemas} {A}
    (r : Controller.Refusal + A) w :
  (Controller.model r w).2 = w.
Proof. by destruct r. Qed.

Lemma message_response_still `{schemas : Controller.Schemas} message w :
  (Controller.message_response message w).2 = w.
Proof.
  unfold Controller.message_response, Controller.bind, Controller.int_id.
  destruct (PyStr.int16 _); [apply model_still|done].
Qed.

Lemma conversation_response_still `{schemas : Controller.Schemas} conversation w :
  (Controller.conversation_response conversation w).2 = w.
Proof. apply model_still. Qed.

Lemma comprehension_still `{schemas : Controller.Schemas} {A B}
    (f : A → Controller.Body B) l :
  (∀ x w, (f x w).2 = w) → ∀ w, (Controller.comprehension f l w).2 = w.
Proof.
  intros Hf. induction l as [|x l IH]; intros w; [done|].
  cbn [Controller.comprehension]. unfold Controller.bind.
  specialize (Hf x w). destruct (f x w) as [[r|y] w1]; cbn [snd] in Hf; subst w1;
    [done|].
  specialize (IH w). by destruct (Controller.comprehension f l w) as [[r|ys] w1].
Qed.

Lemma paginated_messages_still `{schemas : Controller.Schemas} result w :
  (Controller.paginated_messages result w).2 = w.
Proof.
  unfold Controller.paginated_messages, Controller.bind.
  pose proof (comprehension_still Controller.message_response (Page.data result)
                message_response_still w) as H.
  destruct (Controller.comprehension _ _ w) as [[r|messages] w1]; cbn [snd] in H;
    subst w1; [done|apply model_still].
Qed.

Lemma paginated_conversations_still `{schemas : Controller.Schemas}
    (result : Page.t Conversation.t) w :
  (Controller.bind
     (Controller.comprehension Controller.conversation_response (Page.data result))
     (λ conversations,
        Controller.model
          (Controller.PaginatedConversationResponse (Page.total result)
             (Page.page result) (Page.limit result) conversations)) w).2 = w.
Proof.
  unfold Controller.bind.
  pose proof (comprehension_still Controller.conversation_response (Page.data result)
                conversation_response_still w) as H.
  destruct (Controller.comprehension _ _ w) as [[r|conversations] w1]; cbn [snd] in H;
    subst w1; [done|apply model_still].
Qed.

(** The [except] clauses leave the world of the body. *)
Lemma except_Exception_world `{schemas : Controller.Schemas}
    (str : Controller.Raised → string) {A} prefix (body : Controller.Body A)
    (P : Store → Prop) w :
  body_triple P body (λ _, P) P → P (store w) →
  P (store (Controller.except_Exception str prefix body w).2).
Proof.
  intros H Hw. specialize (H w Hw). unfold Controller.except_Exception.
  by destruct (body w) as [[r|a] w'].
Qed.

Lemma except_HTTPException_raise_world `{schemas : Controller.Schemas}
    (str : Controller.Raised → string) {A} prefix (body : Controller.Body A)
    (P : Store → Prop) w :
  body_triple P body (λ _, P) P → P (store w) →
  P (store (Controller.except_HTTPException_raise str prefix body w).2).
Proof.
  intros H Hw. specialize (H w Hw). unfold Controller.except_HTTPException_raise.
  by destruct (body w) as [[[]|a] w'].
Qed.

(** The four reading handlers keep every property of the store. *)
Lemma reading_handlers_keep `{schemas : Controller.Schemas}
    (str : Controller.Raised → string) (P : Store → Prop) w
    conversation_id before_timestamp user_id page limit :
  P (store w) →
  P (store (Controller.get_conversation_messages str conversation_id page limit w).2)
  ∧ P (store (Controller.get_messages_before_timestamp str conversation_id
                before_timestamp page limit w).2)
  ∧ P (store (Controller.get_user_conversations str user_id page limit w).2)
  ∧ P (store (Controller.get_conversation str conversation_id w).2).
Proof.
  intros Hw.
  assert (∀ {A} (k : Conversation.t → Controller.Body A),
            (∀ c, body_triple P (k c) (λ _, P) P) →
            body_triple P
              (Controller.bind
                 (Controller.await (ConversationModel.get_conversation conversation_id))
                 (λ conversation, Controller.bind (Controller.found conversation) k))
              (λ _, P) P) as Hfound.
  { intros A k Hk.
    apply (body_triple_bind _ _ _ (λ _, P));
      [apply body_triple_await, triple_keeps, keeps_get_conversation|].
    intros [c|]; cbn [Controller.found].
    - apply (body_triple_bind _ _ _ (λ _, P)); [by apply body_triple_pure|done].
    - apply (body_triple_bind _ _ _ (λ _, P)); [by apply body_triple_raise|done]. }
  unfold Controller.get_conversation_messages,
    Controller.get_messages_before_timestamp, Controller.get_user_conversations,
    Controller.get_conversation.
  split_and!.
  - apply (except_HTTPException_raise_world str _ _ P); [|done]. apply Hfound. intros _.
    apply (body_triple_bind _ _ _ (λ _, P)).
    + apply body_triple_await, triple_keeps.
      apply (keeps_message_readers P conversation_id 0 page limit).
    + intros result. apply body_triple_still, paginated_messages_still.
  - apply (except_HTTPException_raise_world str _ _ P); [|done]. apply Hfound. intros _.
    apply (body_triple_bind _ _ _ (λ _, P)).
    + apply body_triple_await, triple_keeps.
      apply (keeps_message_readers P conversation_id before_timestamp page limit).
    + intros result. apply body_triple_still, paginated_messages_still.
  - apply (except_Exception_world str _ _ P); [|done].
    apply (body_triple_bind _ _ _ (λ _, P)).
    + apply body_triple_await, triple_keeps, keeps_get_user_conversations.
    + intros result. apply body_triple_still, paginated_conversations_still.
  - apply (except_HTTPException_raise_world str _ _ P); [|done]. apply Hfound. intros c.
    apply body_triple_still, conversation_response_still.
Qed.

Lemma send_message_keeps_referential `{schemas : Controller.Schemas}
    (str : Controller.Raised → string) w sender_id receiver_id content :
  referential (store w) →
  referential (store (Controller.send_message str sender_id receiver_id content w).2).
Proof.
  intros Hw. unfold Controller.send_message.
  apply (except_Exception_world str _ _ referential); [|done].
  eapply body_triple_bind;
    [apply body_triple_await, triple_create_or_get_conversation|].
  intros [c|]; cbn [Controller.subscript_id].
  - apply (body_triple_bind _ _ _
             (λ conversation_id s,
                referential s
                ∧ is_Some (conversation_participants s !! conversation_id))).
    + apply body_triple_pure. intros s [Hs Hc]. split; [done|by apply Hc].
    + intros conversation_id.
      apply (body_triple_bind _ _ _ (λ _, referential)).
      * apply body_triple_await, triple_create_message.
      * intros message. apply body_triple_still, message_response_still.
  - apply (body_triple_bind _ _ _ (λ _ _, False)); [|by intros a w' []].
    apply body_triple_raise. by intros s [Hs _].
Qed.

Lemma send_message_keeps_well_formed `{schemas : Controller.Schemas}
    (str : Controller.Raised → string) w sender_id receiver_id content :
  well_formed (store w) →
  well_formed (store (Controller.send_message str sender_id receiver_id content w).2).
Proof.
  intros Hw. unfold Controller.send_message.
  apply (except_Exception_world str _ _ well_formed); [|done].
  apply (body_triple_bind _ _ _ (λ _, well_formed)).
  { apply body_triple_await, triple_keeps, well_formed_create_or_get_conversation. }
  intros [c|]; cbn [Controller.subscript_id].
  - apply (body_triple_bind _ _ _ (λ _, well_formed)); [by apply body_triple_pure|].
    intros conversation_id.
    apply (body_triple_bind _ _ _ (λ _, well_formed)).
    + apply body_triple_await, triple_keeps, well_formed_create_message.
    + intros message. apply body_triple_still, message_response_still.
  - apply (body_triple_bind _ _ _ (λ _ _, False)); [|by intros a w' []].
    by apply body_triple_raise.
Qed.

Lemma served_invariant `{schemas : Controller.Schemas}
    (str : Controller.Raised → string) w :
  served str w → well_formed (store w) ∧ referential (store w).
Proof.
  induction 1 as [|r w _ [Hwf Href]];
    [split; [apply well_formed_empty|apply referential_empty]|].
  pose proof (λ P c b u p l, reading_handlers_keep str P w c b u p l) as Hread.
  destruct r as [sender_id receiver_id content|c p l|c b p l|u p l|c]; cbn [serve].
  - split; [by apply send_message_keeps_well_formed
           |by apply send_message_keeps_referential].
  - split; [by apply (proj1 (Hread well_formed c 0 0 p l Hwf))
           |by apply (proj1 (Hread referential c 0 0 p l Href))].
  - split; [by apply (Hread well_formed c b 0 p l Hwf)
           |by apply (Hread referential c b 0 p l Href)].
  - split; [by apply (Hread well_formed 0 0 u p l Hwf)
           |by apply (Hread referential 0 0 u p l Href)].
  - split; [by apply (Hread well_formed c 0 0 0 0 Hwf)
           |by apply (Hread referential c 0 0 0 0 Href)].
Qed.

(** X18. Whatever requests the five handlers serve from the empty tables,
    with any failures of queries, any clock, any uuids and any response
    models, the store stays consistent: every participants row has the
    smaller user id first, every partition is in its clustering order without
    two rows of the same clustering columns, and every summary row and every
    message belongs to a conversation that has its participants row. A
    failure in the middle of [send_message] leaves rows behind, but never a
    row of a conversation without participants. *)
Theorem handlers_keep_the_store_consistent `{schemas : Controller.Schemas}
    (str : Controller.Raised → string) w :
  served str w →
  canonical (store w) ∧ clustered (store w) ∧ referential (store w).
Proof.
  intros Hw. destruct (served_invariant str w Hw) as [[Hcan Hcl] Href]. done.
Qed.

Lemma handlers_keep_the_store_consistent_witness :
  let w :=
    serve (schemas := Plain.schemas) Plain.str (Request_send_message 5 9 "hi")
      (start [None; None; None; None; Some (DriverError 7)] Example.clk Example.us) in
  served (schemas := Plain.schemas) Plain.str w
  ∧ canonical (store w) ∧ clustered (store w) ∧ referential (store w).
Proof.
  intros w.
  assert (served (schemas := Plain.schemas) Plain.str w) as Hw
    by (apply served_request, served_start).
  split; [exact Hw|].
  exact (handlers_keep_the_store_consistent (schemas := Plain.schemas) Plain.str w Hw).
Defined.

Lemma omap_resolve_all s (rows : list SummaryRow) :
  (∀ row, row ∈ rows →
          is_Some (conversation_participants s !! c_conversation_id row)) →
  Conversation.id <$> omap (resolve s) rows = c_conversation_id <$> rows.
Proof.
  induction rows as [|row rows IH]; intros Hrows; [done|].
  cbn [omap list_omap fmap list_fmap]. unfold resolve at 1.
  destruct (Hrows row ltac:(by left)) as [e ->].
  cbn [fmap list_fmap Conversation.id]. f_equal.
  apply IH. intros row' Hin. apply Hrows. by right.
Qed.

(** X19. In a store the handlers reached, [get_user_conversations] drops no
    summary row: with no query failing and a positive fetch limit, its page
    lists the conversations of the summary rows of the user at the offsets
    [(page-1)*limit <= i < page*limit] of the partition, one entry per row,
    and its total is the number of rows of the partition, capped by
    [page * limit]. *)
Theorem served_inbox_drops_no_row `{schemas : Controller.Schemas}
    (str : Controller.Raised → string) w user_id page limit :
  served str w →
  fault_free w →
  0 < page * limit →
  ∃ r w',
    ConversationModel.get_user_conversations user_id page limit w = (Return r, w')
    ∧ Page.total r =
        Z.min (page * limit)
          (Z.of_nat (length (Cql.summaries_where user_id (store w))))
    ∧ Conversation.id <$> Page.data r =
        c_conversation_id <$>
          window (Cql.summaries_where user_id (store w))
            ((page - 1) * limit) (page * limit).
Proof.
  intros Hw Hfree Hpos.
  destruct (served_invariant str w Hw) as [_ [Hsum _]].
  rewrite get_user_conversations_run by done.
  eexists _, _. split; [reflexivity|]. cbn [Page.total Page.data].
  set (rows := Cql.summaries_where user_id (store w)).
  set (fetched := take (Z.to_nat (page * limit)) rows).
  assert (Conversation.id <$> omap (resolve (store w)) fetched =
          c_conversation_id <$> fetched) as Hall.
  { apply omap_resolve_all. intros row Hin. apply (Hsum user_id).
    by apply (subseteq_take (Z.to_nat (page * limit)) rows). }
  destruct (page_bounds _ _ Hpos) as [Hlo Hhi].
  split.
  - rewrite <- (length_fmap Conversation.id), Hall, length_fmap.
    unfold fetched. rewrite length_take. lia.
  - unfold window at 1. rewrite fmap_take, fmap_drop, Hall.
    rewrite <- fmap_drop, <- fmap_take. f_equal.
    apply (window_take rows). done.
Qed.

Lemma served_inbox_drops_no_row_witness :
  let w :=
    serve (schemas := Plain.schemas) Plain.str (Request_send_message 5 9 "hi")
      Example.fresh in
  served (schemas := Plain.schemas) Plain.str w
  ∧ fault_free w
  ∧ ∃ r w',
      ConversationModel.get_user_conversations 9 1 20 w = (Return r, w')
      ∧ Page.total r = 2
      ∧ Conversation.id <$> Page.data r = [1700000000; 1700000000].
Proof.
  intros w.
  assert (served (schemas := Plain.schemas) Plain.str w) as Hw
    by (apply served_request, served_start).
  assert (fault_free w) as Hfree by (by apply fault_free_nil).
  split; [exact Hw|]. split; [exact Hfree|].
  destruct (served_inbox_drops_no_row (schemas := Plain.schemas) Plain.str w 9 1 20
              Hw Hfree eq_refl) as (r & w' & Hrun & Htotal & Hdata).
  exists r, w'. split; [exact Hrun|]. split; [exact Htotal|exact Hdata].
Defined.

(** ** The handlers of conversations *)

Lemma comprehension_conversation_response `{schemas : Controller.Schemas}
    (conversations : list Conversation.t) w :
  Controller.comprehension Controller.conversation_response conversations w =
    (match instances (conversation_model <$> conversations) with
     | inl x => inl (Controller.Refused x)
     | inr l => inr l
     end, w).
Proof.
  induction conversations as [|c conversations IH]; [done|].
  cbn [fmap list_fmap Controller.comprehension instances].
  unfold Controller.bind at 1.
  unfold Controller.conversation_response at 1, Controller.model at 1.
  fold (conversation_model c).
  destruct (conversation_model c) as [x|a]; [done|].
  unfold Controller.pure at 1, Controller.bind. rewrite IH.
  by destruct (instances (conversation_model <$> conversations)).
Qed.

Lemma get_user_conversations_invalid w user_id page limit :
  calm 1 w →
  page * limit ≤ 0 →
  ConversationModel.get_user_conversations user_id page limit w =
    (Raise (InvalidRequest "LIMIT must be strictly positive"),
     failed (InvalidRequest "LIMIT must be strictly positive") w).
Proof.
  intros Hcalm Hpos. unfold ConversationModel.get_user_conversations.
  cbv zeta. exec. unfold Cql.limited.
  by destruct (Z.ltb_spec 0 (page * limit)); [lia|].
Qed.

(** X20. [get_conversation] of the conversation handlers, for a conversation
    that has a participants row and with no query failing: the response
    model is called with the stored pair and with the timestamp and content
    of the newest message, or, for a conversation without messages, with the
    creation time and [None] as content; the answer is its instance, or the
    status 500 when it refuses these fields. *)
Theorem known_conversation_response `{schemas : Controller.Schemas}
    (str : Controller.Raised → string) w conversation_id e :
  calm 2 w →
  conversation_participants (store w) !! conversation_id = Some e →
  let last := head (Cql.messages_where conversation_id None (store w)) in
  Controller.get_conversation str conversation_id w =
    (answer str "Failed to get conversation: "
       (Controller.ConversationResponse conversation_id e.1.1 e.1.2
          (match last with
           | Some m => m_message_timestamp m
           | None => e.2
           end)
          (m_content <$> last)),
     after [SELECT_conversation_participants conversation_id;
            SELECT_messages_by_conversation conversation_id None (Some 1)]
       (store w) w).
Proof.
  intros Hcalm Hstored last.
  pose proof (get_conversation_run w conversation_id Hcalm) as Hget.
  rewrite Hstored in Hget.
  unfold Controller.get_conversation, Controller.except_HTTPException_raise.
  rewrite (bind_await_return _ _ _ _ _ Hget).
  cbn [Controller.found]. rewrite bind_pure.
  unfold Controller.conversation_response, Controller.model, answer.
  cbn [conversation_view participant_row Conversation.id Conversation.user1_id
       Conversation.user2_id Conversation.last_message_at
       Conversation.last_message_content p_conversation_id p_user1_id p_user2_id
       p_created_at].
  fold last.
  by destruct (Controller.ConversationResponse _ _ _ _ _).
Qed.

Lemma known_conversation_response_witness :
  ∃ w',
    Controller.get_conversation (schemas := Plain.schemas) Plain.str 1700000000
      Example.opened =
      (inr (1700000000, 5, 9, 1700000001500000, None), w').
Proof.
  assert (calm 2 Example.opened) as Hcalm by (by apply calm_nil).
  eexists.
  rewrite (known_conversation_response (schemas := Plain.schemas) Plain.str
             Example.opened 1700000000 (5, 9, 1700000001500000) Hcalm eq_refl).
  reflexivity.
Defined.

(** X21. [get_user_conversations] of the conversation handlers never
    answers 404. With no query failing and a positive fetch limit the answer
    is the paginated model of the resolved conversations of the page, so a
    user without any summary row gets the model with total 0 and no data;
    with a fetch limit that is not positive the store rejects the query and
    the answer is the status 500 with the text of that error. *)
Theorem inbox_response `{schemas : Controller.Schemas}
    (str : Controller.Raised → string) w user_id page limit :
  fault_free w →
  let prefix := "Failed to get user conversations: " in
  (0 < page * limit →
   let fetched :=
     take (Z.to_nat (page * limit)) (Cql.summaries_where user_id (store w)) in
   let resolved := omap (resolve (store w)) fetched in
   ∃ w',
     Controller.get_user_conversations str user_id page limit w =
       (answer str prefix
          (match instances
                   (conversation_model <$>
                      window resolved ((page - 1) * limit) (page * limit)) with
           | inl x => inl x
           | inr data =>
               Controller.PaginatedConversationResponse
                 (Z.of_nat (length resolved)) page limit data
           end), w')
     ∧ store w' = store w)
  ∧ (0 < page * limit →
     Cql.summaries_where user_id (store w) = [] →
     ∃ w',
       Controller.get_user_conversations str user_id page limit w =
         (answer str prefix (Controller.PaginatedConversationResponse 0 page limit []),
          w'))
  ∧ (page * limit ≤ 0 →
     ∃ w',
       Controller.get_user_conversations str user_id page limit w =
         (inl {| Controller.status_code := 500;
                 Controller.detail :=
                   prefix +:+
                   str (Controller.Driver
                          (InvalidRequest "LIMIT must be strictly positive")) |},
          w')
       ∧ store w' = store w).
Proof.
  intros Hfree prefix.
  assert (∀ Hpos : 0 < page * limit,
            let fetched :=
              take (Z.to_nat (page * limit)) (Cql.summaries_where user_id (store w)) in
            let resolved := omap (resolve (store w)) fetched in
            ∃ w',
              Controller.get_user_conversations str user_id page limit w =
                (answer str prefix
                   (match instances
                            (conversation_model <$>
                               window resolved ((page - 1) * limit) (page * limit)) with
                    | inl x => inl x
                    | inr data =>
                        Controller.PaginatedConversationResponse
                          (Z.of_nat (length resolved)) page limit data
                    end), w')
              ∧ store w' = store w) as Hpage.
  { intros Hpos fetched resolved.
    pose proof (get_user_conversations_run w user_id page limit Hfree Hpos) as Hrun.
    cbv zeta in Hrun. fold fetched in Hrun. fold resolved in Hrun.
    exists (after (SELECT_conversations_by_user user_id (Some (page * limit))
                     :: participants_lookups fetched) (store w) w).
    split; [|reflexivity].
    unfold Controller.get_user_conversations, Controller.except_Exception.
    rewrite (bind_await_return _ _ _ _ _ Hrun).
    unfold Controller.bind. cbn [Page.data Page.total Page.page Page.limit].
    rewrite comprehension_conversation_response.
    destruct (instances _) as [x|data]; [done|].
    unfold Controller.model, answer.
    by destruct (Controller.PaginatedConversationResponse _ _ _ _). }
  split_and!.
  - exact Hpage.
  - intros Hpos Hempty. destruct (Hpage Hpos) as (w' & Hrun & _).
    rewrite Hempty, take_nil in Hrun. cbn [omap list_omap length] in Hrun.
    unfold window in Hrun. rewrite drop_nil, take_nil in Hrun.
    by exists w'.
  - intros Hpos.
    exists (failed (InvalidRequest "LIMIT must be strictly positive") w).
    split; [|reflexivity].
    unfold Controller.get_user_conversations, Controller.except_Exception.
    by rewrite (bind_await_raise _ _ _ _ _
                  (get_user_conversations_invalid w user_id page limit
                     (fault_free_calm 1 w Hfree) Hpos)).
Qed.

Lemma inbox_response_witness :
  fault_free Example.chatted
  ∧ (∃ w',
       Controller.get_user_conversations (schemas := Plain.schemas) Plain.str
         77 1 20 Example.chatted = (inr (0, 1, 20, []), w'))
  ∧ ∃ w',
      Controller.get_user_conversations (schemas := Plain.schemas) Plain.str
        5 0 20 Example.chatted =
        (inl {| Controller.status_code := 500;
                Controller.detail :=
                  "Failed to get user conversations: LIMIT must be strictly positive" |},
         w').
Proof.
  assert (fault_free Example.chatted) as Hfree by (by apply fault_free_nil).
  split; [exact Hfree|]. split.
  - destruct (inbox_response (schemas := Plain.schemas) Plain.str
                Example.chatted 77 1 20 Hfree) as (_ & Hempty & _).
    destruct (Hempty eq_refl eq_refl) as (w' & Hrun).
    exists w'. exact Hrun.
  - destruct (inbox_response (schemas := Plain.schemas) Plain.str
                Example.chatted 5 0 20 Hfree) as (_ & _ & Hinvalid).
    destruct (Hinvalid ltac:(done)) as (w' & Hrun & _).
    exists w'. exact Hrun.
Defined.

(** * The script that generates test data *)

Lemma triple_session_execute P q (Q : list (rows_of q) → Store → Prop)
    (E : Store → Prop) :
  (∀ s, P s → E s) →
  (∀ s result s', P s → Cql.run q s = inr (result, s') → Q result s') →
  triple P (Script.session_execute q) Q E.
Proof.
  intros HE HQ w Hw. unfold Script.session_execute.
  destruct (head (faults w)) as [[e|]|]; [by apply HE|..];
    (destruct (Cql.run q (store w)) as [e|[result s']] eqn:Hrun;
     [by apply HE|by apply (HQ _ _ _ Hw Hrun)]).
Qed.

Ltac triple_session :=
  match goal with
  | |- triple ?P (Script.session_execute ?q) ?Q ?E =>
      refine (triple_session_execute P q Q E _ _)
  end.

Lemma well_formed_insert_message r s : well_formed s → well_formed (Cql.insert_message r s).
Proof.
  intros (Hcan & Hmsg & Hsum). split; [done|split; [|done]].
  intros c. cbn [Cql.insert_message messages_by_conversation].
  rewrite lookup_total_insert. case_decide; [subst|done].
  apply (upsert_in_order _), Hmsg.
Qed.

Lemma well_formed_insert_summary r s : well_formed s → well_formed (Cql.insert_summary r s).
Proof.
  intros (Hcan & Hmsg & Hsum). split; [done|split; [done|]].
  intros u. cbn [Cql.insert_summary conversations_by_user].
  rewrite lookup_total_insert. case_decide; [subst|done].
  apply (upsert_in_order _), Hsum.
Qed.

Lemma well_formed_insert_participants r s :
  p_user1_id r ≤ p_user2_id r →
  well_formed s → well_formed (Cql.insert_participants r s).
Proof.
  intros Hr (Hcan & Hmsg & Hsum). split; [|done].
  intros c e. cbn [Cql.insert_participants conversation_participants].
  rewrite lookup_insert. case_decide; [|by apply Hcan].
  by intros [= <-].
Qed.

Lemma script_message_loop_consistent r i conversation_id user1 user2 created_at
    remaining j last :
  let J := λ s, (well_formed s ∧ referential s)
                ∧ is_Some (conversation_participants s !! conversation_id) in
  triple J
    (Script.message_loop r i conversation_id user1 user2 created_at remaining j last)
    (λ _, J) (λ s, well_formed s ∧ referential s).
Proof.
  intros J. revert j last.
  induction remaining as [|remaining IH]; intros j last;
    cbn [Script.message_loop].
  - by apply triple_ret.
  - cbv zeta.
    apply (triple_bind _ _ _ (λ _, J)); [by apply triple_uuid4|]. intros message_id.
    apply (triple_bind _ _ _ (λ _, J)); [|intros _; apply IH].
    triple_session; [by intros s [Hs _]|].
    intros s result s' [[Hwf Href] Hc] Hrun. cbn [Cql.run] in Hrun.
    injection Hrun as _ <-.
    split; [split|done];
      [by apply well_formed_insert_message|by apply referential_insert_message].
Qed.

Lemma script_conversation_consistent r i :
  triple (λ s, well_formed s ∧ referential s) (Script.conversation r i)
    (λ _ s, well_formed s ∧ referential s) (λ s, well_formed s ∧ referential s).
Proof.
  set (Inv := λ s, well_formed s ∧ referential s).
  unfold Script.conversation. cbv zeta.
  apply (triple_bind _ _ _ (λ _, Inv)); [by apply triple_datetime_now|]. intros now.
  apply (triple_bind _ _ _ (λ _, Inv)); [by apply triple_datetime_now|]. intros now'.
  set (conversation_id := Py.int_timestamp now + Z.of_nat i).
  set (J := λ s, Inv s ∧ is_Some (conversation_participants s !! conversation_id)).
  apply (triple_bind _ _ _ (λ _, J)).
  { triple_session; [done|].
    intros s result s' [Hwf Href] Hrun. cbn [Cql.run] in Hrun. injection Hrun as _ <-.
    destruct (referential_insert_participants
                {| p_conversation_id := conversation_id;
                   p_user1_id := Z.min (Script.sample r i).1 (Script.sample r i).2;
                   p_user2_id := Z.max (Script.sample r i).1 (Script.sample r i).2;
                   p_created_at := now' - Script.timedelta (Script.days r i) 0 0 0 |}
                s Href) as [Href' Hc].
    split; [split|exact Hc]; [|done].
    apply well_formed_insert_participants; [|done].
    cbn [p_user1_id p_user2_id]. lia. }
  intros _.
  apply (triple_bind _ _ _ (λ _, J));
    [apply script_message_loop_consistent|].
  intros [[last_message_timestamp last_message_content]|];
    [|apply triple_ret; by intros s [Hs _]].
  apply (triple_bind _ _ _ (λ _, J)).
  { triple_session; [by intros s [Hs _]|].
    intros s result s' [[Hwf Href] Hc] Hrun. cbn [Cql.run] in Hrun.
    injection Hrun as _ <-.
    split; [split|done];
      [by apply well_formed_insert_summary|by apply referential_insert_summary]. }
  intros _.
  apply (triple_bind _ _ _ (λ _, J)).
  { triple_session; [by intros s [Hs _]|].
    intros s result s' [[Hwf Href] Hc] Hrun. cbn [Cql.run] in Hrun.
    injection Hrun as _ <-.
    split; [split|done];
      [by apply well_formed_insert_summary|by apply referential_insert_summary]. }
  intros _. apply triple_ret. by intros s [Hs _].
Qed.

Lemma script_conversations_loop_consistent r remaining i :
  triple (λ s, well_formed s ∧ referential s) (Script.conversations_loop r remaining i)
    (λ _ s, well_formed s ∧ referential s) (λ s, well_formed s ∧ referential s).
Proof.
  revert i. induction remaining as [|remaining IH]; intros i;
    cbn [Script.conversations_loop].
  - by apply triple_ret.
  - apply (triple_bind _ _ _ (λ _ s, well_formed s ∧ referential s));
      [apply script_conversation_consistent|intros _; apply IH].
Qed.

(** X22. [generate_test_data] keeps the store consistent, whatever the
    random choices are and whichever of its statements fails: from a store
    where every participants row has the smaller user id first, every
    partition is in clustering order and every summary row and message has
    its participants row, it leaves such a store, also when it stops at an
    exception half way. *)
Theorem generated_store_is_consistent r w :
  well_formed (store w) →
  referential (store w) →
  well_formed (store (Script.generate_test_data r w).2)
  ∧ referential (store (Script.generate_test_data r w).2).
Proof.
  intros Hwf Href.
  pose proof (script_conversations_loop_consistent r Script.NUM_CONVERSATIONS O w
                (conj Hwf Href)) as H.
  unfold Script.generate_test_data.
  by destruct (Script.conversations_loop r Script.NUM_CONVERSATIONS 0 w)
    as [[[]|e] w'].
Qed.

Lemma generated_store_is_consistent_witness :
  well_formed (store Example.fresh)
  ∧ referential (store Example.fresh)
  ∧ well_formed (store (Script.generate_test_data Seed.random Example.fresh).2)
  ∧ referential (store (Script.generate_test_data Seed.random Example.fresh).2).
Proof.
  split; [exact well_formed_empty|]. split; [exact referential_empty|].
  exact (generated_store_is_consistent Seed.random Example.fresh
           well_formed_empty referential_empty).
Defined.

(** ** A run of the script without failures *)

Lemma session_execute_calm q w :
  calm 1 w →
  Script.session_execute q w =
    match Cql.run q (store w) with
    | inl e => (Raise e, Script.raised w)
    | inr (result, s') => (Return result, after [q] s' w)
    end.
Proof.
  intros H. unfold Script.session_execute.
  destruct (head (faults w)) as [[e|]|] eqn:Hhead;
    try (by destruct (Cql.run q (store w)) as [|[??]]).
  exfalso. apply (H O e); [lia|]. by rewrite <- head_lookup.
Qed.

Lemma timestamp_kept_by_insert_message conversation_id r s t :
  (∃ row, row ∈ Cql.messages_where conversation_id None s
          ∧ m_message_timestamp row = t) →
  ∃ row, row ∈ Cql.messages_where conversation_id None (Cql.insert_message r s)
         ∧ m_message_timestamp row = t.
Proof.
  intros (row & Hin & Ht). rewrite messages_where_insert_message.
  case_decide as Hc; [|by exists row].
  unfold Cql.messages_where in Hin.
  apply list_elem_of_fmap in Hin as (x & -> & Hx).
  destruct (decide (x.1 = (m_message_timestamp r, m_message_id r))) as [Hk|Hk].
  - eexists. split; [apply list_elem_of_fmap_2, elem_of_upsert_new|].
    cbn [message_row m_message_timestamp fst] in *. by rewrite Hk in Ht.
  - exists (message_row conversation_id x). split; [|done].
    by apply list_elem_of_fmap_2, (upsert_keeps _).
Qed.

Lemma messages_where_insert_message_inv conversation_id r s row :
  row ∈ Cql.messages_where conversation_id None (Cql.insert_message r s) →
  row ∈ Cql.messages_where conversation_id None s
  ∨ (m_conversation_id r = conversation_id
     ∧ m_message_timestamp row = m_message_timestamp r).
Proof.
  rewrite messages_where_insert_message. case_decide as Hc; [|by left].
  intros (x & -> & [->|Hin]%elem_of_upsert_inv)%list_elem_of_fmap.
  - by right.
  - left. by apply list_elem_of_fmap_2.
Qed.

Lemma participants_inserted_app qs1 qs2 :
  participants_inserted (qs1 ++ qs2) =
    participants_inserted qs1 ++ participants_inserted qs2.
Proof. apply omap_app. Qed.

Lemma row_kept_by_insert_message conversation_id r s row :
  row ∈ Cql.messages_where conversation_id None s →
  m_message_id row ≠ m_message_id r →
  row ∈ Cql.messages_where conversation_id None (Cql.insert_message r s).
Proof.
  intros Hin Hne. rewrite messages_where_insert_message.
  case_decide as Hc; [|done].
  unfold Cql.messages_where in Hin.
  apply list_elem_of_fmap in Hin as (x & -> & Hx).
  apply list_elem_of_fmap_2, (upsert_keeps _); [done|].
  intros Hk. apply Hne. cbn [message_row m_message_id]. by rewrite Hk.
Qed.

Lemma script_message_loop_run r i conversation_id user1 user2 created_at
    remaining j last w :
  fault_free w →
  ∃ w',
    Script.message_loop r i conversation_id user1 user2 created_at remaining j last w =
      (Return (tracked r i user1 user2 created_at remaining j last), w')
    ∧ fault_free w'
    ∧ clock w' = clock w
    ∧ conversations_by_user (store w') = conversations_by_user (store w)
    ∧ conversation_participants (store w') = conversation_participants (store w)
    ∧ participants_inserted (journal w') = participants_inserted (journal w)
    ∧ (∀ t,
         (∃ row, row ∈ Cql.messages_where conversation_id None (store w)
                 ∧ m_message_timestamp row = t)
         ∨ (∃ j', (j ≤ j' < j + remaining)%nat
                  ∧ t = Script.message_timestamp r i j' created_at) →
         ∃ row, row ∈ Cql.messages_where conversation_id None (store w')
                ∧ m_message_timestamp row = t)
    ∧ (∀ conversation_id' row,
         row ∈ Cql.messages_where conversation_id' None (store w') →
         row ∈ Cql.messages_where conversation_id' None (store w)
         ∨ (conversation_id' = conversation_id
            ∧ ∃ j', (j ≤ j' < j + remaining)%nat
                    ∧ m_message_timestamp row =
                        Script.message_timestamp r i j' created_at))
    ∧ (∀ conversation_id' row,
         row ∈ Cql.messages_where conversation_id' None (store w) →
         (∀ d, (d < remaining)%nat → m_message_id row ≠ uuids w d) →
         row ∈ Cql.messages_where conversation_id' None (store w'))
    ∧ ((∀ a b, (a < b < remaining)%nat → uuids w a ≠ uuids w b) →
       ∀ d, (d < remaining)%nat →
            generated_message r i conversation_id user1 user2 created_at
              (j + d) (uuids w d)
              ∈ Cql.messages_where conversation_id None (store w')).
Proof.
  revert j last w. induction remaining as [|remaining IH]; intros j last w Hfree.
  - exists w. split_and!; try done.
    + intros t [?|(j' & ? & _)]; [done|lia].
    + intros c row Hin. by left.
    + intros _ d Hd. lia.
  - cbn [Script.message_loop tracked]. cbv zeta. rewrite bind_uuid4.
    rewrite run_bind, session_execute_calm
      by (apply fault_free_calm, fault_free_draw, Hfree).
    cbn [Cql.run].
    set (message :=
           {| m_conversation_id := conversation_id;
              m_message_timestamp := Script.message_timestamp r i j created_at;
              m_message_id := uuids w O;
              m_sender_id := (Script.sender_receiver r i j user1 user2).1;
              m_receiver_id := (Script.sender_receiver r i j user1 user2).2;
              m_content :=
                Script.content j (Script.sender_receiver r i j user1 user2).1
                  (Script.sender_receiver r i j user1 user2).2 |}).
    set (w1 := after [INSERT_messages_by_conversation message]
                 (Cql.insert_message message (store (draw w))) (draw w)).
    assert (fault_free w1) as Hfree1 by (by apply fault_free_after, fault_free_draw).
    destruct (IH (S j)
                (Script.track last (Script.message_timestamp r i j created_at)
                   (m_content message)) w1 Hfree1)
      as (w' & Hrun & Hfree' & Hclock & Hsum & Hpart & Hjournal & Hin & Hinv
          & Hkept & Hrows).
    exists w'. split; [exact Hrun|]. split_and!; try done.
    + rewrite Hjournal. unfold w1. cbn [journal after draw].
      rewrite participants_inserted_app. cbn. by rewrite app_nil_r.
    + intros t Ht. apply Hin.
      destruct Ht as [Hold|(j' & Hj' & ->)].
      * left. by apply timestamp_kept_by_insert_message.
      * destruct (decide (j' = j)) as [->|Hne].
        -- left. exists message. split; [apply message_row_inserted|done].
        -- right. exists j'. split; [lia|done].
    + intros c row Hrow. destruct (Hinv c row Hrow) as [Hold|(-> & j' & Hj' & Ht)].
      * apply messages_where_insert_message_inv in Hold as [Hold|[<- Ht]];
          [by left|].
        right. split; [done|]. exists j. split; [lia|done].
      * right. split; [done|]. exists j'. split; [lia|done].
    + intros c row Hrow Hfresh. apply Hkept.
      * apply (row_kept_by_insert_message c message); [done|].
        apply (Hfresh O). lia.
      * intros d Hd. apply (Hfresh (S d)). lia.
    + intros Hdistinct [|d] Hd.
      * rewrite Nat.add_0_r. apply Hkept.
        -- apply (message_row_inserted message).
        -- intros d Hd'. cbn [m_message_id message]. unfold w1.
           cbn [uuids after draw]. apply Hdistinct. lia.
      * replace (j + S d)%nat with (S j + d)%nat by lia.
        apply (Hrows (λ a b Hab, Hdistinct (S a) (S b) ltac:(lia)) d). lia.
Qed.

Lemma tracked_Some r i user1 user2 created_at remaining j j0 k0 :
  let ts j := Script.message_timestamp r i j created_at in
  let text j :=
    Script.content j (Script.sender_receiver r i j user1 user2).1
      (Script.sender_receiver r i j user1 user2).2 in
  (j0 ≤ k0 < j)%nat →
  (∀ j', (j0 ≤ j' < j)%nat → ts j' ≤ ts k0) →
  (∀ j', (j0 ≤ j' < k0)%nat → ts j' < ts k0) →
  ∃ k,
    (j0 ≤ k < j + remaining)%nat
    ∧ tracked r i user1 user2 created_at remaining j (Some (ts k0, text k0)) =
        Some (ts k, text k)
    ∧ (∀ j', (j0 ≤ j' < j + remaining)%nat → ts j' ≤ ts k)
    ∧ (∀ j', (j0 ≤ j' < k)%nat → ts j' < ts k).
Proof.
  intros ts text. revert j k0.
  induction remaining as [|remaining IH]; intros j k0 Hk0 Hle Hlt.
  - exists k0. split; [lia|]. split; [done|]. split; [|done].
    intros j' Hj'. apply Hle. lia.
  - cbn [tracked Script.track]. fold (ts j). fold (text j).
    destruct (Z.ltb_spec (ts k0) (ts j)) as [Hnewer|Holder].
    + destruct (IH (S j) j) as (k & Hk & -> & Hle' & Hlt'); [lia| | |].
      * intros j' Hj'. destruct (decide (j' = j)) as [->|]; [lia|].
        specialize (Hle j' ltac:(lia)). lia.
      * intros j' Hj'. specialize (Hle j' ltac:(lia)). lia.
      * exists k. split; [lia|]. split; [done|]. split; [|done].
        intros j' Hj'. apply Hle'. lia.
    + destruct (IH (S j) k0) as (k & Hk & -> & Hle' & Hlt'); [lia| |done|].
      * intros j' Hj'. destruct (decide (j' = j)) as [->|]; [lia|].
        apply Hle. lia.
      * exists k. split; [lia|]. split; [done|]. split; [|done].
        intros j' Hj'. apply Hle'. lia.
Qed.

Lemma tracked_newest r i user1 user2 created_at n :
  let ts j := Script.message_timestamp r i j created_at in
  let text j :=
    Script.content j (Script.sender_receiver r i j user1 user2).1
      (Script.sender_receiver r i j user1 user2).2 in
  (0 < n)%nat →
  ∃ k,
    (k < n)%nat
    ∧ tracked r i user1 user2 created_at n O None = Some (ts k, text k)
    ∧ (∀ j, (j < n)%nat → ts j ≤ ts k)
    ∧ (∀ j, (j < k)%nat → ts j < ts k).
Proof.
  intros ts text Hn. destruct n as [|n]; [lia|].
  cbn [tracked Script.track].
  destruct (tracked_Some r i user1 user2 created_at n 1 0 0)
    as (k & Hk & Htracked & Hle & Hlt); [lia| |lia|].
  - intros j' Hj'. by replace j' with O by lia.
  - exists k. split; [lia|]. split; [exact Htracked|]. split.
    + intros j Hj. apply Hle. lia.
    + intros j Hj. apply Hlt. lia.
Qed.

Lemma summaries_inserted_both a b s :
  (c_user_id a = c_user_id b → a = b) →
  a ∈ Cql.summaries_where (c_user_id a) (Cql.insert_summary b (Cql.insert_summary a s))
  ∧ b ∈ Cql.summaries_where (c_user_id b)
          (Cql.insert_summary b (Cql.insert_summary a s)).
Proof.
  intros Hsame. split; [|apply summary_row_inserted].
  destruct (decide (c_user_id a = c_user_id b)) as [Heq|Hne].
  - rewrite <- (Hsame Heq). apply summary_row_inserted.
  - rewrite summaries_where_insert, decide_False by congruence.
    apply summary_row_inserted.
Qed.

Lemma script_conversation_run r i w :
  fault_free w →
  let user1 := (Script.sample r i).1 in
  let user2 := (Script.sample r i).2 in
  let conversation_id := Py.int_timestamp (clock w O) + Z.of_nat i in
  let created_at := clock w 1%nat - Script.timedelta (Script.days r i) 0 0 0 in
  let ts j := Script.message_timestamp r i j created_at in
  let n := Script.num_messages r i in
  ∃ w',
    Script.conversation r i w = (Return (), w')
    ∧ fault_free w'
    ∧ (∀ k, clock w' k = clock w (2 + k)%nat)
    ∧ participants_inserted (journal w') =
        participants_inserted (journal w) ++ [conversation_id]
    ∧ conversation_participants (store w') =
        <[conversation_id := (Z.min user1 user2, Z.max user1 user2, created_at)]>
          (conversation_participants (store w))
    ∧ (∀ j, (j < n)%nat →
            ∃ row, row ∈ Cql.messages_where conversation_id None (store w')
                   ∧ m_message_timestamp row = ts j)
    ∧ (∀ conversation_id' row,
         row ∈ Cql.messages_where conversation_id' None (store w') →
         row ∈ Cql.messages_where conversation_id' None (store w)
         ∨ (conversation_id' = conversation_id
            ∧ ∃ j, (j < n)%nat ∧ m_message_timestamp row = ts j))
    ∧ (∀ t c,
         tracked r i user1 user2 created_at n O None = Some (t, c) →
         {| c_user_id := user1; c_last_message_timestamp := t;
            c_conversation_id := conversation_id; c_other_user_id := user2;
            c_last_message_content := Some c |}
           ∈ Cql.summaries_where user1 (store w')
         ∧ {| c_user_id := user2; c_last_message_timestamp := t;
              c_conversation_id := conversation_id; c_other_user_id := user1;
              c_last_message_content := Some c |}
             ∈ Cql.summaries_where user2 (store w'))
    ∧ ((∀ a b, (a < b < n)%nat → uuids w a ≠ uuids w b) →
       ∀ j, (j < n)%nat →
            generated_message r i conversation_id user1 user2 created_at j
              (uuids w j)
              ∈ Cql.messages_where conversation_id None (store w')).
Proof.
  intros Hfree user1 user2 conversation_id created_at ts n.
  unfold Script.conversation. cbv zeta. rewrite !bind_datetime_now.
  cbn [clock tick]. fold user1 user2 conversation_id created_at.
  assert (fault_free (tick (tick w))) as Hfree0
    by (by apply fault_free_tick, fault_free_tick).
  rewrite run_bind, session_execute_calm by (by apply fault_free_calm).
  cbn [Cql.run].
  set (participants :=
         {| p_conversation_id := conversation_id;
            p_user1_id := Z.min user1 user2;
            p_user2_id := Z.max user1 user2;
            p_created_at := created_at |}).
  set (w1 := after [INSERT_conversation_participants participants]
               (Cql.insert_participants participants (store (tick (tick w))))
               (tick (tick w))).
  assert (fault_free w1) as Hfree1 by (by apply fault_free_after).
  rewrite run_bind. fold n.
  destruct (script_message_loop_run r i conversation_id user1 user2 created_at
              n O None w1 Hfree1)
    as (w2 & -> & Hfree2 & Hclock & Hsum & Hpart & Hjournal & Hin & Hinv & _
        & Hrows).
  assert (participants_inserted (journal w2) =
          participants_inserted (journal w) ++ [conversation_id]) as Hjournal2.
  { rewrite Hjournal. unfold w1. cbn [journal after tick].
    by rewrite participants_inserted_app. }
  assert (∀ j, (j < n)%nat →
               ∃ row, row ∈ Cql.messages_where conversation_id None (store w2)
                      ∧ m_message_timestamp row = ts j) as Hin2.
  { intros j Hj. apply Hin. right. exists j. split; [lia|done]. }
  assert (∀ conversation_id' row,
            row ∈ Cql.messages_where conversation_id' None (store w2) →
            row ∈ Cql.messages_where conversation_id' None (store w)
            ∨ (conversation_id' = conversation_id
               ∧ ∃ j, (j < n)%nat ∧ m_message_timestamp row = ts j)) as Hinv2.
  { intros c row Hrow. destruct (Hinv c row Hrow) as [Hold|(-> & j & Hj & Ht)].
    - by left.
    - right. split; [done|]. exists j. split; [lia|done]. }
  destruct (tracked r i user1 user2 created_at n O None)
    as [[last_message_timestamp last_message_content]|] eqn:Htracked.
  - rewrite run_bind, session_execute_calm by (by apply fault_free_calm).
    cbn [Cql.run].
    set (summary1 := {| c_user_id := user1;
                        c_last_message_timestamp := last_message_timestamp;
                        c_conversation_id := conversation_id;
                        c_other_user_id := user2;
                        c_last_message_content := Some last_message_content |}).
    set (w3 := after [INSERT_conversations_by_user summary1]
                 (Cql.insert_summary summary1 (store w2)) w2).
    assert (fault_free w3) as Hfree3 by (by apply fault_free_after).
    rewrite run_bind, session_execute_calm by (by apply fault_free_calm).
    cbn [Cql.run].
    set (summary2 := {| c_user_id := user2;
                        c_last_message_timestamp := last_message_timestamp;
                        c_conversation_id := conversation_id;
                        c_other_user_id := user1;
                        c_last_message_content := Some last_message_content |}).
    eexists. split; [reflexivity|]. split_and!.
    + by apply fault_free_after.
    + intros k. unfold w3. cbn [clock after]. by rewrite Hclock.
    + unfold w3. cbn [journal after]. rewrite !participants_inserted_app, Hjournal2.
      cbn. by rewrite !app_nil_r.
    + unfold w3. cbn [store after Cql.insert_summary conversation_participants].
      by rewrite Hpart.
    + exact Hin2.
    + exact Hinv2.
    + intros t c [= <- <-]. unfold w3. cbn [store after].
      apply (summaries_inserted_both summary1 summary2).
      unfold summary1, summary2. cbn [c_user_id]. intros Heq. by rewrite Heq.
    + intros Hdistinct j Hj. exact (Hrows Hdistinct j Hj).
  - eexists. split; [reflexivity|]. split_and!; try done.
    intros k. by rewrite Hclock.
Qed.

Lemma head_is_newest l m row :
  StronglySorted newest_first l →
  head l = Some m → row ∈ l → m_message_timestamp row ≤ m_message_timestamp m.
Proof.
  intros Hsorted Hhead Hin. destruct l as [|x l]; [done|].
  injection Hhead as ->. apply StronglySorted_cons in Hsorted as [Hx _].
  apply elem_of_cons in Hin as [->|Hin]; [lia|].
  pose proof (proj1 (Forall_forall _ _) Hx row Hin) as [Hlt|[Heq _]]; lia.
Qed.

(** X23. The summary rows the script writes for a conversation are those of
    its newest message. With no statement failing, at least one message and
    different uuids drawn, the iteration [i] of [generate_test_data] stores
    every generated message in the partition of the conversation, under its
    uuid and with its sender, receiver and content, and one summary row for
    each of the two sampled users, with the content of the first generated
    message whose timestamp is the largest. When the store was consistent and
    held no message under the id of the conversation, [get_conversation]
    afterwards reports the timestamp of that message as [last_message_at].
    The timestamps read back from the store are those the script bound up to
    the millisecond. *)
Theorem generated_summary_is_newest_message r i w :
  fault_free w →
  (0 < Script.num_messages r i)%nat →
  (∀ a b, (a < b < Script.num_messages r i)%nat → uuids w a ≠ uuids w b) →
  let user1 := (Script.sample r i).1 in
  let user2 := (Script.sample r i).2 in
  let conversation_id := Py.int_timestamp (clock w O) + Z.of_nat i in
  let created_at := clock w 1%nat - Script.timedelta (Script.days r i) 0 0 0 in
  let ts j := Script.message_timestamp r i j created_at in
  let text j :=
    Script.content j (Script.sender_receiver r i j user1 user2).1
      (Script.sender_receiver r i j user1 user2).2 in
  ∃ k w',
    (k < Script.num_messages r i)%nat
    ∧ Script.conversation r i w = (Return (), w')
    ∧ (∀ j, (j < Script.num_messages r i)%nat → ts j ≤ ts k)
    ∧ (∀ j, (j < k)%nat → ts j < ts k)
    ∧ (∀ j, (j < Script.num_messages r i)%nat →
            ∃ row,
              row ∈ Cql.messages_where conversation_id None (store w')
              ∧ m_message_id row = uuids w j
              ∧ m_sender_id row = (Script.sender_receiver r i j user1 user2).1
              ∧ m_receiver_id row = (Script.sender_receiver r i j user1 user2).2
              ∧ m_content row = text j
              ∧ millisecond (m_message_timestamp row) = millisecond (ts j))
    ∧ (∃ row,
         row ∈ Cql.summaries_where user1 (store w')
         ∧ c_conversation_id row = conversation_id
         ∧ c_other_user_id row = user2
         ∧ c_last_message_content row = Some (text k)
         ∧ millisecond (c_last_message_timestamp row) = millisecond (ts k))
    ∧ (∃ row,
         row ∈ Cql.summaries_where user2 (store w')
         ∧ c_conversation_id row = conversation_id
         ∧ c_other_user_id row = user1
         ∧ c_last_message_content row = Some (text k)
         ∧ millisecond (c_last_message_timestamp row) = millisecond (ts k))
    ∧ (well_formed (store w) →
       referential (store w) →
       Cql.messages_where conversation_id None (store w) = [] →
       ∃ c w'',
         ConversationModel.get_conversation conversation_id w' = (Return (Some c), w'')
         ∧ millisecond (Conversation.last_message_at c) = millisecond (ts k)).
Proof.
  intros Hfree Hn Hdistinct user1 user2 conversation_id created_at ts text.
  destruct (tracked_newest r i user1 user2 created_at (Script.num_messages r i) Hn)
    as (k & Hk & Htracked & Hle & Hlt).
  destruct (script_conversation_run r i w Hfree)
    as (w' & Hrun & Hfree' & _ & _ & Hpart & Hin & Hinv & Hsummaries & Hrows).
  destruct (Hsummaries _ _ Htracked) as [Hsummary1 Hsummary2].
  exists k, w'. split_and!; try done.
  - intros j Hj. eexists. split; [exact (Hrows Hdistinct j Hj)|]. done.
  - eexists. split; [exact Hsummary1|]. done.
  - eexists. split; [exact Hsummary2|]. done.
  - intros Hwf Href Hempty.
    pose proof (script_conversation_consistent r i w (conj Hwf Href)) as Hinv'.
    rewrite Hrun in Hinv'. destruct Hinv' as [[_ Hclustered] _].
    rewrite get_conversation_run by (by apply fault_free_calm).
    fold conversation_id in Hpart. rewrite Hpart, lookup_insert_eq.
    eexists _, _. split; [reflexivity|].
    cbn [conversation_view Conversation.last_message_at]. f_equal.
    destruct (Hin k Hk) as (newest & Hnewest & Hts).
    destruct (head (Cql.messages_where conversation_id None (store w')))
      as [m|] eqn:Hhead.
    + pose proof (messages_where_newest_first (store w') conversation_id Hclustered)
        as Hsorted.
      pose proof (head_is_newest _ m newest Hsorted Hhead Hnewest) as Hge.
      assert (m ∈ Cql.messages_where conversation_id None (store w')) as Hm
        by (by apply head_Some_elem_of).
      destruct (Hinv conversation_id m Hm) as [Hold|(_ & j & Hj & Hmj)].
      * rewrite Hempty in Hold. by apply elem_of_nil in Hold.
      * specialize (Hle j Hj). unfold ts, created_at in *. lia.
    + apply head_None in Hhead.
      assert (newest ∈ @nil MessageRow) as Hnil by (rewrite <- Hhead; exact Hnewest).
      by apply elem_of_nil in Hnil.
Qed.

Lemma generated_summary_is_newest_message_witness :
  fault_free Example.fresh
  ∧ ∃ k w' row message,
      Script.conversation Seed.random 0 Example.fresh = (Return (), w')
      ∧ (∀ j, (j < 5)%nat →
              Script.message_timestamp Seed.random 0 j 1699913601500000 ≤
                Script.message_timestamp Seed.random 0 k 1699913601500000)
      ∧ row ∈ Cql.summaries_where 1 (store w')
      ∧ millisecond (c_last_message_timestamp row) =
          millisecond (Script.message_timestamp Seed.random 0 k 1699913601500000)
      ∧ c_conversation_id row = 1700000000
      ∧ message ∈ Cql.messages_where 1700000000 None (store w')
      ∧ m_message_id message = 1003%N
      ∧ m_sender_id message = 4.
Proof.
  assert (fault_free Example.fresh) as Hfree by (by apply fault_free_nil).
  split; [exact Hfree|].
  assert (∀ a b, (a < b < Script.num_messages Seed.random 0)%nat →
                 uuids Example.fresh a ≠ uuids Example.fresh b) as Hdistinct.
  { intros a b Hab. cbn [uuids Example.fresh start]. unfold Example.us. lia. }
  destruct (generated_summary_is_newest_message Seed.random 0 Example.fresh Hfree
              ltac:(cbn; lia) Hdistinct)
    as (k & w' & _ & Hrun & Hle & _ & Hmessages & (row & Hrow & Hid & _ & _ & Hts) & _).
  destruct (Hmessages 3%nat ltac:(cbn; lia))
    as (message & Hmessage & Huuid & Hsender & _).
  exists k, w', row, message. split; [exact Hrun|]. split; [exact Hle|].
  split; [exact Hrow|]. split; [exact Hts|]. split; [exact Hid|].
  split; [exact Hmessage|]. split; [exact Huuid|exact Hsender].
Defined.

(** ** The conversations of a run of the script *)

Lemma clock_monotone (clk : nat → datetime) a b :
  (∀ k, clk k ≤ clk (S k)) → (a ≤ b)%nat → clk a ≤ clk b.
Proof.
  intros Hstep Hab. induction Hab as [|b _ IH]; [done|].
  specialize (Hstep b). lia.
Qed.

Lemma int_timestamp_monotone a b : a ≤ b → Py.int_timestamp a ≤ Py.int_timestamp b.
Proof. intros Hab. unfold Py.int_timestamp. by apply Z.quot_le_mono. Qed.

Lemma script_conversations_loop_run r remaining i w :
  fault_free w →
  (∀ k, clock w k ≤ clock w (S k)) →
  let id d := Py.int_timestamp (clock w (2 * d)%nat) + Z.of_nat (i + d) in
  ∃ w',
    Script.conversations_loop r remaining i w = (Return (), w')
    ∧ participants_inserted (journal w') =
        participants_inserted (journal w) ++ (id <$> seq 0 remaining)
    ∧ (∀ c, (∀ d, (d < remaining)%nat → c ≠ id d) →
            conversation_participants (store w') !! c =
              conversation_participants (store w) !! c)
    ∧ (∀ d, (d < remaining)%nat →
            conversation_participants (store w') !! id d =
              Some (Z.min (Script.sample r (i + d)).1 (Script.sample r (i + d)).2,
                    Z.max (Script.sample r (i + d)).1 (Script.sample r (i + d)).2,
                    clock w (2 * d + 1)%nat
                    - Script.timedelta (Script.days r (i + d)) 0 0 0)).
Proof.
  revert i w. induction remaining as [|remaining IH]; intros i w Hfree Hclock id.
  - exists w. split; [done|]. split; [by rewrite app_nil_r|].
    split; [done|]. intros d Hd. lia.
  - cbn [Script.conversations_loop]. rewrite run_bind.
    destruct (script_conversation_run r i w Hfree)
      as (w1 & -> & Hfree1 & Hclock1 & Hjournal1 & Hpart1 & _).
    assert (∀ k, clock w1 k ≤ clock w1 (S k)) as Hmono1.
    { intros k. rewrite !Hclock1. apply (Hclock (2 + k)%nat). }
    destruct (IH (S i) w1 Hfree1 Hmono1) as (w' & Hrun & Hjournal & Hother & Hrows).
    assert (∀ d, Py.int_timestamp (clock w1 (2 * d)%nat) + Z.of_nat (S i + d) =
                 id (S d)) as Hid.
    { intros d. unfold id. rewrite Hclock1.
      replace (2 + 2 * d)%nat with (2 * S d)%nat by lia.
      replace (i + S d)%nat with (S i + d)%nat by lia. done. }
    assert (∀ d, (0 < d)%nat → id 0%nat < id d) as Hlater.
    { intros d Hd. unfold id.
      pose proof (int_timestamp_monotone _ _
                    (clock_monotone (clock w) (2 * 0) (2 * d) Hclock ltac:(lia))).
      lia. }
    exists w'. split; [exact Hrun|]. split_and!.
    + rewrite Hjournal, Hjournal1, <- app_assoc. f_equal.
      cbn [seq fmap list_fmap app]. unfold id at 1.
      rewrite Nat.add_0_r. f_equal.
      rewrite <- fmap_S_seq, <- list_fmap_compose.
      apply list_fmap_ext. intros _ d _. apply Hid.
    + intros c Hc. rewrite Hother.
      * rewrite Hpart1, lookup_insert_ne; [done|].
        specialize (Hc O ltac:(lia)). unfold id in Hc.
        rewrite Nat.add_0_r in Hc. done.
      * intros d Hd. rewrite Hid. apply Hc. lia.
    + intros [|d] Hd.
      * rewrite Hother.
        -- rewrite Hpart1. unfold id. rewrite !Nat.add_0_r.
           by rewrite lookup_insert_eq.
        -- intros d Hd'. rewrite Hid. specialize (Hlater (S d) ltac:(lia)). lia.
      * rewrite <- Hid, (Hrows d ltac:(lia)), Hclock1.
        replace (S i + d)%nat with (i + S d)%nat by lia.
        by replace (2 + (2 * d + 1))%nat with (2 * S d + 1)%nat by lia.
Qed.

Lemma StronglySorted_seq start len : StronglySorted lt (seq start len).
Proof.
  revert start. induction len as [|len IH]; intros start; cbn [seq]; constructor;
    [apply IH|].
  apply Forall_forall. intros x Hx%elem_of_seq. lia.
Qed.

(** X24. With no statement failing and a clock that does not go back, the
    conversation ids of a run of [generate_test_data], [int(now) + i] for
    [i = 0, ..., 14], are strictly increasing, so the run makes fifteen
    different conversations and none of them takes the participants row of
    another: at the end the row of each id is the pair sampled in its
    iteration, the smaller user id first. *)
Theorem generated_conversations_are_distinct r w :
  fault_free w →
  (∀ k, clock w k ≤ clock w (S k)) →
  let id d := Py.int_timestamp (clock w (2 * d)%nat) + Z.of_nat d in
  ∃ w',
    Script.generate_test_data r w = (Return (), w')
    ∧ participants_inserted (journal w') =
        participants_inserted (journal w) ++ (id <$> seq 0 15)
    ∧ StronglySorted Z.lt (id <$> seq 0 15)
    ∧ ∀ d, (d < 15)%nat →
           conversation_participants (store w') !! id d =
             Some (Z.min (Script.sample r d).1 (Script.sample r d).2,
                   Z.max (Script.sample r d).1 (Script.sample r d).2,
                   clock w (2 * d + 1)%nat - Script.timedelta (Script.days r d) 0 0 0).
Proof.
  intros Hfree Hclock id.
  destruct (script_conversations_loop_run r Script.NUM_CONVERSATIONS O w Hfree Hclock)
    as (w' & Hrun & Hjournal & _ & Hrows).
  exists w'. split; [exact Hrun|]. split; [exact Hjournal|]. split.
  - apply (StronglySorted_fmap id lt); [|apply StronglySorted_seq].
    intros a b Hab. unfold id.
    pose proof (int_timestamp_monotone _ _
                  (clock_monotone (clock w) (2 * a) (2 * b) Hclock ltac:(lia))).
    lia.
  - intros d Hd. exact (Hrows d Hd).
Qed.

Lemma generated_conversations_are_distinct_witness :
  fault_free Example.fresh
  ∧ (∀ k, clock Example.fresh k ≤ clock Example.fresh (S k))
  ∧ ∃ w',
      Script.generate_test_data Seed.random Example.fresh = (Return (), w')
      ∧ conversation_participants (store w') !! 1700000004 =
          Some (2, 5, 1699827204500000).
Proof.
  assert (fault_free Example.fresh) as Hfree by (by apply fault_free_nil).
  assert (∀ k, clock Example.fresh k ≤ clock Example.fresh (S k)) as Hclock.
  { intros k. cbn [clock Example.fresh start]. unfold Example.clk. lia. }
  split; [exact Hfree|]. split; [exact Hclock|].
  destruct (generated_conversations_are_distinct Seed.random Example.fresh
              Hfree Hclock) as (w' & Hrun & _ & _ & Hrows).
  exists w'. split; [exact Hrun|]. exact (Hrows 1%nat ltac:(lia)).
Defined.
